(** * STORM research assistant: the interactive orchestration core

    A shallow embedding of the parts of [autogen_storm/workflow.py] and
    [app_interactive.py] that carry the interactive orchestration: the
    interview fan-out ([_conduct_interviews], [asyncio.gather]), the
    request/response correlation through the global [pending_responses]
    dictionary ([wait_for_response], [websocket_endpoint]), the analyst-count
    question and the two report approval loops ([_get_final_report_approval]
    on the console, [get_report_approval] over the WebSocket).

    Language models, search tools and the text of prompts are collaborators:
    they appear as the fields of the class [Collaborators], and the general
    theorems hold for all of them; the examples run with the collaborators
    [scripted].

    Further parts of the code are embedded after these: [run_research] and
    [_run_research_with_additional_analyst], the model configuration of
    config.py ([to_autogen_config]) with [create_model_config], the HTTP
    endpoints that start, record, return and delete a research task, and the
    text of the final report ([_assemble_final_report], embedded as
    [assemble_final_report] over the builtins [str.lower] and [str.strip]).

    The definitions come first, in the order of the source files; the
    theorems follow: the fan-out, the pending requests, the analyst count,
    the approval loops, the result of the research; then the rest of the
    correlation, the console, the configuration and the endpoints, the
    instance behind the WebSocket, the research that is approved at once and
    the text of the final report. *)

From Stdlib Require Import ZArith NArith Lia DecimalString.
From Stdlib Require QArith_base.
From stdpp Require Import base option list strings pretty gmap fin_maps.

(** ** Python values that cross the wire *)

(** The payload of a WebSocket message is parsed JSON: [Dict[str, Any]].
    [JInt] stands for the JSON numbers without a fraction. *)
#[local] Unset Elimination Schemes.
Inductive JValue :=
| JNull
| JBool (b : bool)
| JInt (n : Z)
| JStr (s : string)
| JArr (items : list JValue)
| JObj (fields : list (string * JValue)).
#[local] Set Elimination Schemes.

(** [v == "literal"] for a value taken out of a payload. *)
Definition py_eq_str (v : JValue) (s : string) : bool :=
  match v with
  | JStr t => String.eqb t s
  | _ => false
  end.

(** Truth value of [if v:]. *)
Definition truthy (v : JValue) : bool :=
  match v with
  | JNull => false
  | JBool b => b
  | JInt n => negb (n =? 0)%Z
  | JStr s => negb (String.eqb s "")
  | JArr items => match items with [] => false | _ :: _ => true end
  | JObj fields => match fields with [] => false | _ :: _ => true end
  end.

(** [d.get(key, default)] *)
Definition py_get (d : gmap string JValue) (key : string) (default : JValue) : JValue :=
  match d !! key with
  | Some v => v
  | None => default
  end.

(** ** Exceptions *)

Inductive Exc :=
| CollaboratorError (msg : string)   (* anything a model or tool call raises *)
| HTTPException (status_code : Z)
| CancelledError
| EOFError
| IndexError
| UnboundLocalError (variable : string).

(** [except Exception] does not catch [asyncio.CancelledError], which derives
    from [BaseException]. *)
Definition is_Exception (e : Exc) : bool :=
  match e with
  | CancelledError => false
  | _ => true
  end.

(** ** models.py *)

Record Analyst := {
  affiliation : string;
  name : string;
  role : string;
  description : string
}.

(** [max_analysts] is annotated [int]; [run_interactive_research] stores in it
    whatever the operator's payload held, hence [JValue]. *)
Record ResearchTask := {
  topic : string;
  max_analysts : JValue;
  max_interview_turns : Z;
  parallel_interviews : bool;
  user_feedback : option JValue
}.

Record InterviewResult := {
  analyst : Analyst;
  interview_content : string;
  section_content : string
}.

(** The dictionary [{"main_content": .., "introduction": .., "conclusion": ..}]
    that [_write_report] builds; it always has exactly these three keys. *)
Record ReportParts := {
  part_main_content : string;
  part_introduction : string;
  part_conclusion : string
}.

Record ResearchResult := {
  result_topic : string;
  analysts : list Analyst;
  interviews : list InterviewResult;
  introduction : string;
  main_content : string;
  conclusion : string;
  final_report : string
}.

(** ** Collaborators *)

(** What the workflow obtains from language models and from the event loop.
    Every model call may raise.  [completion_order l] is the order in which
    the interview coroutines started by one [asyncio.gather] over [l] finish:
    indices into [l], earliest first; indices that are repeated or out of
    range are skipped and the coroutines not named finish afterwards in
    input order, so that every list denotes a completion order and every
    completion order is denoted by some list.  [_assemble_final_report] cuts
    and joins the text of the report; no statement below depends on how, so it
    is kept abstract here, as is the builtin [int] ([py_int], [None] for
    [ValueError]). *)
Class Collaborators := {
  run_analyst_generator : ResearchTask -> Exc + list Analyst;
  run_diverse_analyst_generator : ResearchTask -> Exc + list Analyst;
  run_additional_analyst_generator :
    ResearchTask -> JValue -> list Analyst -> Exc + Analyst;
  run_interview_team : Analyst -> Z -> Exc + string;
  run_feedback_interview_team : Analyst -> Z -> JValue -> Exc + string;
  run_section_team : Analyst -> string -> Exc + string;
  run_feedback_section_team : Analyst -> JValue -> string -> Exc + string;
  run_report_writers : string -> list InterviewResult -> Exc + ReportParts;
  run_feedback_report_writers :
    string -> list InterviewResult -> JValue -> Exc + ReportParts;
  _assemble_final_report : ReportParts -> string;
  completion_order : list Analyst -> list nat;
  py_int : string -> option Z
}.

(** ** asyncio.gather and the sequential loop *)

(** What the fan-out does, for the proofs: when the coroutine of the unit at
    an index is started, when it returns and when it raises. *)
Inductive UnitEvent :=
| Started (i : nat)
| Finished (i : nat)
| Raised (i : nat).

Section FanOut.
Context {R : Type}.

(** [for a in analysts: r = await unit(a); interviews.append(r)]:
    the next coroutine is created only after the previous one returned; an
    exception leaves the loop at once. *)
Fixpoint await_each (unit : Analyst -> Exc + R) (l : list Analyst)
    (i : nat) (acc : list R) (log : list UnitEvent)
    : list UnitEvent * (Exc + list R) :=
  match l with
  | [] => (log, inr acc)
  | a :: l' =>
      match unit a with
      | inl e => (log ++ [Started i; Raised i], inl e)
      | inr r => await_each unit l' (S i) (acc ++ [r]) (log ++ [Started i; Finished i])
      end
  end.

(** The children of one [gather] finish one after the other in the order
    [order].  A child that returns stores its result in its own slot; the
    first child that raises makes [gather] raise that exception
    ([return_exceptions] is left at [False]). *)
Fixpoint gather_wait (outcomes : list (Exc + R)) (order : list nat)
    (slots : list (option R)) (log : list UnitEvent)
    : list UnitEvent * (Exc + list (option R)) :=
  match order with
  | [] => (log, inr slots)
  | i :: order' =>
      match outcomes !! i, slots !! i with
      | Some (inl e), Some None => (log ++ [Raised i], inl e)
      | Some (inr r), Some None =>
          gather_wait outcomes order' (<[i := Some r]> slots) (log ++ [Finished i])
      | _, _ => gather_wait outcomes order' slots log
      end
  end.

(** [await asyncio.gather] over the coroutines [unit(a) for a in analysts]: all children are
    started, in input order; once all have returned the results are read
    from the children in input order. *)
Definition gather (unit : Analyst -> Exc + R) (l : list Analyst) (order : list nat)
    : list UnitEvent * (Exc + list R) :=
  let n := length l in
  match gather_wait (unit <$> l) (order ++ seq 0 n) (replicate n None)
                    (Started <$> seq 0 n) with
  | (log, inl e) => (log, inl e)
  | (log, inr slots) => (log, inr (omap id slots))
  end.
End FanOut.

Section Workflow.
Context `{Collaborators}.

(** [_conduct_single_interview]: the interview, then the section written
    from its transcript. *)
Definition _conduct_single_interview (a : Analyst) (max_turns : Z)
    : Exc + InterviewResult :=
  match run_interview_team a max_turns with
  | inl e => inl e
  | inr content =>
      match run_section_team a content with
      | inl e => inl e
      | inr section =>
          inr {| analyst := a; interview_content := content;
                 section_content := section |}
      end
  end.

(** [_conduct_interviews], with the log of the units' starts and ends. *)
Definition _conduct_interviews_log (l : list Analyst) (task : ResearchTask)
    : list UnitEvent * (Exc + list InterviewResult) :=
  let unit a := _conduct_single_interview a (max_interview_turns task) in
  if parallel_interviews task then
    match gather unit l (completion_order l) with
    | (log, inl e) => (log, inl e)
    | (log, inr interview_results) => (log, inr ([] ++ interview_results))
    end
  else await_each unit l 0 [] [].

Definition _conduct_interviews (l : list Analyst) (task : ResearchTask)
    : Exc + list InterviewResult :=
  snd (_conduct_interviews_log l task).
End Workflow.

(** ** Code that reads, writes and may raise *)

(** A computation over a state [St]: [None] when the fuel of a loop ran out,
    otherwise the new state and either the exception raised or the value
    returned. *)
Definition M (St A : Type) : Type := St -> option (St * (Exc + A)).

Definition ret {St A} (a : A) : M St A := fun s => Some (s, inr a).
Definition raise {St A} (e : Exc) : M St A := fun s => Some (s, inl e).
Definition lift {St A} (r : Exc + A) : M St A := fun s => Some (s, r).
Definition bind {St A B} (m : M St A) (k : A -> M St B) : M St B :=
  fun s =>
    match m s with
    | None => None
    | Some (s', inl e) => Some (s', inl e)
    | Some (s', inr a) => k a s'
    end.
Definition gets {St A} (f : St -> A) : M St A := fun s => Some (s, inr (f s)).
Definition modify {St} (f : St -> St) : M St () := fun s => Some (f s, inr ()).

Notation "x <~ m ;; k" := (bind m (fun x => k))
  (at level 100, m at next level, right associativity).
Notation "m ;;; k" := (bind m (fun _ => k))
  (at level 100, right associativity).

(** ** The StormWorkflow instance *)

(** The fields [__init__] creates in interactive mode; [current_report_parts]
    starts as the empty dictionary, here [None]. *)
Record StormWorkflow := {
  current_analysts : list Analyst;
  current_interviews : list InterviewResult;
  current_report_parts : option ReportParts;
  report_versions : list ReportParts
}.

Definition StormWorkflow_init : StormWorkflow :=
  {| current_analysts := []; current_interviews := [];
     current_report_parts := None; report_versions := [] |}.

Definition set_current (l : list Analyst) (rs : list InterviewResult)
    (self : StormWorkflow) : StormWorkflow :=
  {| current_analysts := l; current_interviews := rs;
     current_report_parts := current_report_parts self;
     report_versions := report_versions self |}.

Definition append_version (parts : ReportParts) (self : StormWorkflow) : StormWorkflow :=
  {| current_analysts := current_analysts self;
     current_interviews := current_interviews self;
     current_report_parts := Some parts;
     report_versions := report_versions self ++ [parts] |}.

Definition JLen {A} (l : list A) : JValue := JInt (Z.of_nat (length l)).

Section WorkflowMethods.
Context `{Collaborators}.

Definition _generate_analysts (task : ResearchTask) : Exc + list Analyst :=
  run_analyst_generator task.

Definition _generate_analysts_with_diverse_tools (task : ResearchTask)
    : Exc + list Analyst :=
  run_diverse_analyst_generator task.

Definition _generate_additional_analyst_with_feedback (task : ResearchTask)
    (feedback : JValue) (existing_analysts : list Analyst) : Exc + Analyst :=
  run_additional_analyst_generator task feedback existing_analysts.

Definition _write_report (topic : string) (interviews : list InterviewResult)
    : Exc + ReportParts :=
  run_report_writers topic interviews.

Definition _write_feedback_aware_report (topic : string)
    (interviews : list InterviewResult) (feedback : JValue) : Exc + ReportParts :=
  run_feedback_report_writers topic interviews feedback.

Definition _conduct_single_feedback_aware_interview (a : Analyst) (max_turns : Z)
    (feedback : JValue) : Exc + InterviewResult :=
  match run_feedback_interview_team a max_turns feedback with
  | inl e => inl e
  | inr content =>
      match run_feedback_section_team a feedback content with
      | inl e => inl e
      | inr section =>
          inr {| analyst := a; interview_content := content;
                 section_content := section |}
      end
  end.

Definition _conduct_feedback_aware_interviews (l : list Analyst)
    (task : ResearchTask) (feedback : JValue) : Exc + list InterviewResult :=
  let unit a :=
    _conduct_single_feedback_aware_interview a (max_interview_turns task) feedback in
  if parallel_interviews task then
    match gather unit l (completion_order l) with
    | (_, inl e) => inl e
    | (_, inr interview_results) => inr ([] ++ interview_results)
    end
  else snd (await_each unit l 0 [] []).

(** [_run_automatic_research] (tracing left out). *)
Definition _run_automatic_research (task : ResearchTask) : Exc + ResearchResult :=
  match _generate_analysts_with_diverse_tools task with
  | inl e => inl e
  | inr analysts =>
      match _conduct_interviews analysts task with
      | inl e => inl e
      | inr interviews =>
          match _write_report (topic task) interviews with
          | inl e => inl e
          | inr report_parts =>
              inr {| result_topic := topic task;
                     analysts := analysts;
                     interviews := interviews;
                     introduction := part_introduction report_parts;
                     main_content := part_main_content report_parts;
                     conclusion := part_conclusion report_parts;
                     final_report := _assemble_final_report report_parts |}
          end
      end
  end.

(** [_rewrite_with_feedback]: one more analyst made from the feedback, all
    analysts interviewed again, a new report; the instance then holds the
    enlarged analyst list and the new interviews. *)
Definition _rewrite_with_feedback (topic : string) (feedback : JValue)
    : M StormWorkflow ReportParts :=
  let task_with_feedback :=
    {| topic := topic; max_analysts := JInt 1; max_interview_turns := 3;
       parallel_interviews := true; user_feedback := Some feedback |} in
  existing <~ gets current_analysts ;;
  additional_analyst <~
    lift (_generate_additional_analyst_with_feedback task_with_feedback feedback existing) ;;
  existing' <~ gets current_analysts ;;
  let all_analysts := existing' ++ [additional_analyst] in
  let updated_task :=
    {| topic := topic; max_analysts := JLen all_analysts; max_interview_turns := 3;
       parallel_interviews := true; user_feedback := Some feedback |} in
  interviews <~ lift (_conduct_feedback_aware_interviews all_analysts updated_task feedback) ;;
  report_parts <~ lift (_write_feedback_aware_report topic interviews feedback) ;;
  modify (set_current all_analysts interviews) ;;;
  ret report_parts.
End WorkflowMethods.

(** ** The console: workflow.py in interactive mode *)

(** Lines the workflow prints while it talks to the operator, by the
    statement that prints them. *)
Inductive Printed :=
| AnalystCountBanner (default_count : JValue)
| CountOutOfRange
| CountNotANumber
| ProceedingWith (count : JValue)
| ReviewHeader (version : nat)
| Preview (version : nat) (parts : ReportParts)
| Menu (options : nat)
| Approved (versions : nat)
| RewriteMenu
| CompleteRewriteNotice
| FeedbackQuestion
| FeedbackNoted (feedback : string)
| NoFeedbackNotice
| InvalidRewriteChoice
| Rewritten (version : nat)
| FullReport (parts : ReportParts)
| InvalidChoice (options : nat)
| VersionSummaries (versions : list ReportParts)
| CompareCancelled
| VersionContent (parts : ReportParts)
| VersionOutOfRange (versions : nat)
| VersionNotANumber
| CompareFooter.

(** [stdin] holds the strings the successive [safe_input] calls return
    (already stripped); at its end [input] raises [EOFError]. *)
Record Console := {
  stdin : list string;
  stdout : list Printed;
  self : StormWorkflow
}.

Definition safe_input : M Console string :=
  fun w =>
    match stdin w with
    | [] => Some (w, inl EOFError)
    | line :: rest =>
        Some ({| stdin := rest; stdout := stdout w; self := self w |}, inr line)
    end.

Definition print (p : Printed) : M Console () :=
  modify (fun w => {| stdin := stdin w; stdout := stdout w ++ [p]; self := self w |}).

Definition on_self {A} (m : M StormWorkflow A) : M Console A :=
  fun w =>
    match m (self w) with
    | None => None
    | Some (self', r) =>
        Some ({| stdin := stdin w; stdout := stdout w; self := self' |}, r)
    end.

(** A loop that only reads and prints: what it printed, the lines left, and
    how it ended. *)
Definition reading {A} (banner : list Printed)
    (loop : list string -> list Printed * list string * (Exc + A)) : M Console A :=
  fun w =>
    let '(out, rest, r) := loop (stdin w) in
    Some ({| stdin := rest; stdout := stdout w ++ banner ++ out; self := self w |}, r).

(** How a turn of an approval loop ends: by [return] or by going round
    again, and with which draft in hand. *)
Inductive Turn :=
| Return (report : ReportParts)
| Continue (report : ReportParts).

(** [continue_choice.lower() != 'y'] *)
Definition lower_is_y (s : string) : bool := String.eqb s "y" || String.eqb s "Y".

Section Console.
Context `{Collaborators}.

(** The [while True] of [_get_analyst_count_from_user]. *)
Fixpoint analyst_count_loop (default_count : JValue) (lines : list string)
    : list Printed * list string * (Exc + JValue) :=
  match lines with
  | [] => ([], [], inl EOFError)
  | user_input :: rest =>
      if String.eqb user_input "" then ([], rest, inr default_count)
      else
        match py_int user_input with
        | Some count =>
            if ((1 <=? count) && (count <=? 10))%Z then ([], rest, inr (JInt count))
            else
              let '(out, rest', r) := analyst_count_loop default_count rest in
              (CountOutOfRange :: out, rest', r)
        | None =>
            let '(out, rest', r) := analyst_count_loop default_count rest in
            (CountNotANumber :: out, rest', r)
        end
  end.

Definition _get_analyst_count_from_user (default_count : JValue) : M Console JValue :=
  reading [AnalystCountBanner default_count] (analyst_count_loop default_count).

Definition _show_full_report (report_parts : ReportParts) : M Console () :=
  print (FullReport report_parts) ;;;
  safe_input ;;;
  ret ().

(** The [while True] of [_compare_report_versions]. *)
Fixpoint compare_loop (versions : list ReportParts) (lines : list string)
    : list Printed * list string * (Exc + ()) :=
  match lines with
  | [] => ([], [], inl EOFError)
  | version_num :: rest =>
      if String.eqb version_num "0" then ([CompareCancelled], rest, inr ())
      else
        match py_int version_num with
        | None =>
            let '(out, rest', r) := compare_loop versions rest in
            (VersionNotANumber :: out, rest', r)
        | Some n =>
            match (if (0 <=? n - 1)%Z then versions !! Z.to_nat (n - 1) else None) with
            | Some selected_version =>
                match rest with
                | [] => ([VersionContent selected_version], [], inl EOFError)
                | continue_choice :: rest' =>
                    if lower_is_y continue_choice then
                      let '(out, rest'', r) := compare_loop versions rest' in
                      (VersionContent selected_version :: out, rest'', r)
                    else ([VersionContent selected_version], rest', inr ())
                end
            | None =>
                let '(out, rest', r) := compare_loop versions rest in
                (VersionOutOfRange (length versions) :: out, rest', r)
            end
        end
  end.

Definition _compare_report_versions : M Console () :=
  versions <~ gets (fun w => report_versions (self w)) ;;
  reading [VersionSummaries versions] (compare_loop versions) ;;;
  print CompareFooter ;;;
  safe_input ;;;
  ret ().

(** Choice 2 of the menu: how the next draft is made. *)
Definition rewrite_report (topic : string) (rewrite_choice : string)
    : M Console ReportParts :=
  if String.eqb rewrite_choice "1" then
    print CompleteRewriteNotice ;;;
    existing <~ gets (fun w => current_analysts (self w)) ;;
    let task_copy :=
      {| topic := topic; max_analysts := JLen existing; max_interview_turns := 3;
         parallel_interviews := true; user_feedback := None |} in
    research_result <~ lift (_run_automatic_research task_copy) ;;
    let new_report_parts :=
      {| part_main_content := main_content research_result;
         part_introduction := introduction research_result;
         part_conclusion := conclusion research_result |} in
    on_self (modify (set_current (analysts research_result) (interviews research_result))) ;;;
    ret new_report_parts
  else if String.eqb rewrite_choice "2" then
    print FeedbackQuestion ;;;
    feedback <~ safe_input ;;
    if negb (String.eqb feedback "") then
      print (FeedbackNoted feedback) ;;;
      on_self (_rewrite_with_feedback topic (JStr feedback))
    else
      print NoFeedbackNotice ;;;
      current <~ gets (fun w => current_interviews (self w)) ;;
      lift (_write_report topic current)
  else
    print InvalidRewriteChoice ;;;
    current <~ gets (fun w => current_interviews (self w)) ;;
    lift (_write_report topic current).

(** One turn of the [while True] of [_get_final_report_approval]: the menu,
    the operator's choice and what it leads to. *)
Definition approval_turn (topic : string) (report_parts : ReportParts)
    : M Console Turn :=
  versions <~ gets (fun w => length (report_versions (self w))) ;;
  let options := if bool_decide (1 < versions) then 4 else 3 in
  print (Menu options) ;;;
  choice <~ safe_input ;;
  if String.eqb choice "1" then
    print (Approved versions) ;;;
    ret (Return report_parts)
  else if String.eqb choice "2" then
    print RewriteMenu ;;;
    rewrite_choice <~ safe_input ;;
    new_report_parts <~ rewrite_report topic rewrite_choice ;;
    on_self (modify (append_version new_report_parts)) ;;;
    versions' <~ gets (fun w => length (report_versions (self w))) ;;
    print (Rewritten versions') ;;;
    ret (Continue new_report_parts)
  else if String.eqb choice "3" then
    _show_full_report report_parts ;;;
    ret (Continue report_parts)
  else if String.eqb choice "4" && bool_decide (1 < versions) then
    _compare_report_versions ;;;
    ret (Continue report_parts)
  else
    print (InvalidChoice options) ;;;
    ret (Continue report_parts).

(** The [while True] itself; every turn reads at least one line, so [fuel]
    above the number of lines left is never used up. *)
Fixpoint approval_loop (fuel : nat) (topic : string) (report_parts : ReportParts)
    : M Console ReportParts :=
  match fuel with
  | O => fun _ => None
  | S fuel' =>
      turn <~ approval_turn topic report_parts ;;
      match turn with
      | Return report => ret report
      | Continue report => approval_loop fuel' topic report
      end
  end.

Definition _get_final_report_approval (topic : string) (report_parts : ReportParts)
    : M Console ReportParts :=
  on_self (modify (append_version report_parts)) ;;;
  versions <~ gets (fun w => length (report_versions (self w))) ;;
  print (ReviewHeader versions) ;;;
  print (Preview versions report_parts) ;;;
  fuel <~ gets (fun w => S (length (stdin w))) ;;
  approval_loop fuel topic report_parts.

Definition with_max_analysts (count : JValue) (task : ResearchTask) : ResearchTask :=
  {| topic := topic task; max_analysts := count;
     max_interview_turns := max_interview_turns task;
     parallel_interviews := parallel_interviews task;
     user_feedback := user_feedback task |}.

(** [_run_interactive_research].  The lists bound to [analysts] and
    [interviews] are never changed in place afterwards: a rewrite binds new
    lists to the fields of the instance. *)
Definition _run_interactive_research (task : ResearchTask) : M Console ResearchResult :=
  final_analyst_count <~ _get_analyst_count_from_user (max_analysts task) ;;
  let task := with_max_analysts final_analyst_count task in
  print (ProceedingWith final_analyst_count) ;;;
  analysts <~ lift (_generate_analysts_with_diverse_tools task) ;;
  on_self (modify (fun self => set_current analysts (current_interviews self) self)) ;;;
  interviews <~ lift (_conduct_interviews analysts task) ;;
  on_self (modify (fun self => set_current (current_analysts self) interviews self)) ;;;
  report_parts <~ lift (_write_report (topic task) interviews) ;;
  final_report_parts <~ _get_final_report_approval (topic task) report_parts ;;
  ret {| result_topic := topic task;
         analysts := analysts;
         interviews := interviews;
         introduction := part_introduction final_report_parts;
         main_content := part_main_content final_report_parts;
         conclusion := part_conclusion final_report_parts;
         final_report := _assemble_final_report final_report_parts |}.
End Console.

(** ** The WebSocket backend: app_interactive.py *)

Inductive MessageType :=
| PROGRESS | ANALYST_COUNT_REQUEST | REPORT_APPROVAL_REQUEST
| FEEDBACK_REQUEST | RESULT | ERROR.

Inductive UserResponseType := ANALYST_COUNT | REPORT_APPROVAL | FEEDBACK.

(** The member's value, as an f-string prints a [str] enum member (newer
    interpreters print the qualified member name instead, on both sides of
    the correlation alike). *)
Definition format_response_type (t : UserResponseType) : string :=
  match t with
  | ANALYST_COUNT => "analyst_count"
  | REPORT_APPROVAL => "report_approval"
  | FEEDBACK => "feedback"
  end.

(** [f"{session_id}_{response_type}"] *)
Definition response_key (session_id : string) (t : UserResponseType) : string :=
  session_id +:+ "_" +:+ format_response_type t.

(** [key.startswith(session_id)] *)
Definition startswith (key session_id : string) : bool := String.prefix session_id key.

(** An [asyncio.Future]. *)
Inductive Future :=
| FutPending
| FutResult (data : gmap string JValue)
| FutCancelled.

(** The module's globals.  [futures] holds every future created so far; a
    future is known by its position there.  The sockets in
    [active_connections] are known by their session. *)
Record Globals := {
  futures : list Future;
  active_connections : gset string;
  pending_responses : gmap string nat
}.

Definition Globals_init : Globals :=
  {| futures := []; active_connections := ∅; pending_responses := ∅ |}.

Definition done (g : Globals) (future : nat) : bool :=
  match futures g !! future with
  | Some FutPending => false
  | _ => true
  end.

Definition resolve (future : nat) (state : Future) (g : Globals) : Globals :=
  {| futures := if done g future then futures g else <[future := state]> (futures g);
     active_connections := active_connections g;
     pending_responses := pending_responses g |}.

Definition pop_pending (key : string) (g : Globals) : Globals :=
  {| futures := futures g;
     active_connections := active_connections g;
     pending_responses := delete key (pending_responses g) |}.

(** [websocket_endpoint(websocket, session_id)], by what its socket does. *)

(** [await websocket.accept(); active_connections[session_id] = websocket] *)
Definition on_connect (session_id : string) (g : Globals) : Globals :=
  {| futures := futures g;
     active_connections := {[session_id]} ∪ active_connections g;
     pending_responses := pending_responses g |}.

(** One turn of the receiving loop, for a message that validates as a
    [UserResponse]. *)
Definition on_message (session_id : string) (type : UserResponseType)
    (data : gmap string JValue) (g : Globals) : Globals :=
  match pending_responses g !! response_key session_id type with
  | Some future => resolve future (FutResult data) g
  | None => g
  end.

(** One turn of [for key in list(pending_responses.keys())] in the
    [except WebSocketDisconnect] branch. *)
Definition disconnect_step (session_id : string) (key : string) (future : nat)
    (g : Globals) : Globals :=
  if startswith key session_id
  then resolve future FutCancelled (pop_pending key g)
  else g.

(** The [except WebSocketDisconnect] branch.  The turns of the loop commute,
    so the order in which the keys are visited does not show. *)
Definition on_disconnect (session_id : string) (g : Globals) : Globals :=
  let g0 :=
    {| futures := futures g;
       active_connections := active_connections g ∖ {[session_id]};
       pending_responses := pending_responses g |} in
  map_fold (disconnect_step session_id) g0 (pending_responses g).

(** What reaches the server while a task waits: a message or the loss of a
    socket, [delay] time units after the event before it (or after the wait
    began). *)
Inductive Inbound :=
| Message (delay : N) (session_id : string) (type : UserResponseType)
          (data : gmap string JValue)
| Disconnect (delay : N) (session_id : string).

Definition delay_of (ev : Inbound) : N :=
  match ev with
  | Message d _ _ _ => d
  | Disconnect d _ => d
  end.

Definition sooner (by_time : N) (ev : Inbound) : Inbound :=
  match ev with
  | Message d s t data => Message (d - by_time) s t data
  | Disconnect d s => Disconnect (d - by_time) s
  end.

Definition websocket_endpoint (ev : Inbound) (g : Globals) : Globals :=
  match ev with
  | Message _ s t data => on_message s t data g
  | Disconnect _ s => on_disconnect s g
  end.

Inductive Awaited :=
| Resolved (data : gmap string JValue)
| TimeoutError
| Cancelled.

(** [await asyncio.wait_for(future, timeout)]: the task sleeps while the
    server handles what arrives; it wakes when its future is done or when the
    timer fires, and then [wait_for] cancels the future.  An event due exactly
    when the timer fires is taken to come after it. *)
Fixpoint wait_for (future : nat) (timeout : N) (inbox : list Inbound) (g : Globals)
    : list Inbound * Globals * Awaited :=
  match futures g !! future with
  | Some (FutResult data) => (inbox, g, Resolved data)
  | Some FutCancelled => (inbox, g, Cancelled)
  | _ =>
      match inbox with
      | [] => ([], resolve future FutCancelled g, TimeoutError)
      | ev :: inbox' =>
          if (timeout <=? delay_of ev)%N
          then (sooner timeout ev :: inbox', resolve future FutCancelled g, TimeoutError)
          else wait_for future (timeout - delay_of ev) inbox' (websocket_endpoint ev g)
      end
  end.

(** [wait_for_response] up to its [await]:
    [future = asyncio.Future(); pending_responses[response_key] = future]. *)
Definition wait_for_response_register (session_id : string) (t : UserResponseType)
    (g : Globals) : nat * Globals :=
  let future := length (futures g) in
  (future,
   {| futures := futures g ++ [FutPending];
      active_connections := active_connections g;
      pending_responses := <[response_key session_id t := future]> (pending_responses g) |}).

(** [wait_for_response] from its [await] on: the [except] and the
    [finally]. *)
Definition wait_for_response_resume (session_id : string) (t : UserResponseType)
    (awaited : Awaited) (g : Globals) : Globals * (Exc + gmap string JValue) :=
  (pop_pending (response_key session_id t) g,
   match awaited with
   | Resolved response => inr response
   | TimeoutError => inl (HTTPException 408)
   | Cancelled => inl CancelledError
   end).

(** Progress lines, by the [action] of their [agent_activity] where they have
    one. *)
Inductive ProgressText :=
| research_starting
| generating_analysts (analyst_count : JValue)
| analyzing_topic
| creating_profiles
| analysts_created (l : list Analyst)
| preparing_questions
| starting_interviews (n : nat)
| parallel_interviews_started (l : list Analyst)
| sequential_interviews_started (l : list Analyst)
| conducting_interview (i : nat)
| interview_completed (i : nat)
| interviews_completed (interview_count : nat)
| analyzing_interviews
| structuring_report
| writing_report
| reviewing_report
| report_approved
| complete_rewrite_starting
| feedback_noted (feedback : JValue)
| feedback_rewrite_running
| default_rewrite_running
| rewrite_completed (version : Z)
| research_completed.

(** What [websocket.send_json] sent, by message type. *)
Inductive Outbound :=
| Progress (text : ProgressText)
| AnalystCountRequest (default_count : JValue)
| ReportApprovalRequest (topic : string) (version : Z) (full_report : ReportParts)
| Result (topic : string) (analysts : list Analyst) (interview_count : nat)
         (final_report : string)
| Error (error : Exc).

Definition type_of (m : Outbound) : MessageType :=
  match m with
  | Progress _ => PROGRESS
  | AnalystCountRequest _ => ANALYST_COUNT_REQUEST
  | ReportApprovalRequest _ _ _ => REPORT_APPROVAL_REQUEST
  | Result _ _ _ _ => RESULT
  | Error _ => ERROR
  end.

(** One [InteractiveStormWorkflow] at work: what will reach the server, what
    was sent on its socket, the globals and its [StormWorkflow]. *)
Record App := {
  inbox : list Inbound;
  sent : list Outbound;
  globals : Globals;
  workflow : StormWorkflow
}.

(** How a turn of [get_report_approval] ends: by [return], or with the
    values of [version], [current_report] and [new_report] for the next
    turn. *)
Inductive Round :=
| Approve (report : ReportParts)
| Present (version : Z) (current_report : ReportParts) (new_report : option ReportParts).

(** [websocket.send_json] on a socket that is connected: the message is
    sent.  The loss of the socket is an event of the inbox, [Disconnect],
    and is handled while the workflow waits; a send on a socket that is lost
    already, which raises in the source, is not among the runs described. *)
Definition send_json (m : Outbound) : M App () :=
  modify (fun w => {| inbox := inbox w; sent := sent w ++ [m];
                      globals := globals w; workflow := workflow w |}).

Definition send_progress (text : ProgressText) : M App () := send_json (Progress text).

Definition on_workflow {A} (m : M StormWorkflow A) : M App A :=
  fun w =>
    match m (workflow w) with
    | None => None
    | Some (workflow', r) =>
        Some ({| inbox := inbox w; sent := sent w;
                 globals := globals w; workflow := workflow' |}, r)
    end.

(** The progress messages the interview units send when they start and when
    they return. *)
Definition unit_updates (log : list UnitEvent) : list Outbound :=
  omap (fun ev =>
          match ev with
          | Started i => Some (Progress (conducting_interview i))
          | Finished i => Some (Progress (interview_completed i))
          | Raised _ => None
          end) log.

Section InteractiveStormWorkflow.
Context `{Collaborators}.
Variable session_id : string.

(** [wait_for_response], with its timeout of 300 seconds. *)
Definition wait_for_response (t : UserResponseType) : M App (gmap string JValue) :=
  fun w =>
    let '(future, g1) := wait_for_response_register session_id t (globals w) in
    let '(inbox', g2, awaited) := wait_for future 300 (inbox w) g1 in
    let '(g3, r) := wait_for_response_resume session_id t awaited g2 in
    Some ({| inbox := inbox'; sent := sent w; globals := g3; workflow := workflow w |}, r).

Definition get_analyst_count (default_count : JValue) : M App JValue :=
  send_json (AnalystCountRequest default_count) ;;;
  response <~ wait_for_response ANALYST_COUNT ;;
  ret (py_get response "count" default_count).

(** The branches of [elif action == "rewrite"] that bind [new_report];
    [new_report] keeps what an earlier turn bound to it. *)
Definition rewrite_requested (topic : string) (response : gmap string JValue)
    (new_report : option ReportParts) : M App (option ReportParts) :=
  let rewrite_type := py_get response "rewrite_type" (JStr "feedback") in
  if py_eq_str rewrite_type "complete" then
    send_progress complete_rewrite_starting ;;;
    current <~ gets (fun w => current_interviews (workflow w)) ;;
    report <~ lift (_write_report topic current) ;;
    ret (Some report)
  else if py_eq_str rewrite_type "feedback" then
    let feedback := py_get response "feedback" (JStr "") in
    if truthy feedback then
      send_progress (feedback_noted feedback) ;;;
      send_progress feedback_rewrite_running ;;;
      report <~ on_workflow (_rewrite_with_feedback topic feedback) ;;
      ret (Some report)
    else
      send_progress default_rewrite_running ;;;
      current <~ gets (fun w => current_interviews (workflow w)) ;;
      report <~ lift (_write_report topic current) ;;
      ret (Some report)
  else ret new_report.

(** What [get_report_approval] does with the operator's answer: the chain
    [if action == "approve" .. elif action == "rewrite" .. elif action ==
    "view_full"]; an answer that matches none of them falls through to the
    next turn of the loop. *)
Definition apply_decision (topic : string) (version : Z)
    (current_report : ReportParts) (new_report : option ReportParts)
    (response : gmap string JValue) : M App Round :=
  let action := py_get response "action" JNull in
  if py_eq_str action "approve" then
    send_progress report_approved ;;;
    ret (Approve current_report)
  else if py_eq_str action "rewrite" then
    new_report' <~ rewrite_requested topic response new_report ;;
    match new_report' with
    | None => raise (UnboundLocalError "new_report")
    | Some report =>
        send_progress (rewrite_completed (version + 1)) ;;;
        ret (Present (version + 1) report new_report')
    end
  else if py_eq_str action "view_full" then
    ret (Present version current_report new_report)
  else
    ret (Present version current_report new_report).

(** One turn of the [while True] of [get_report_approval]. *)
Definition report_approval_turn (topic : string) (version : Z)
    (current_report : ReportParts) (new_report : option ReportParts)
    : M App Round :=
  send_json (ReportApprovalRequest topic version current_report) ;;;
  response <~ wait_for_response REPORT_APPROVAL ;;
  apply_decision topic version current_report new_report response.

(** The [while True] itself; every turn that goes on has taken an event
    from the inbox. *)
Fixpoint report_approval_loop (fuel : nat) (topic : string) (version : Z)
    (current_report : ReportParts) (new_report : option ReportParts)
    : M App ReportParts :=
  match fuel with
  | O => fun _ => None
  | S fuel' =>
      round <~ report_approval_turn topic version current_report new_report ;;
      match round with
      | Approve report => ret report
      | Present version' current_report' new_report' =>
          report_approval_loop fuel' topic version' current_report' new_report'
      end
  end.

Definition get_report_approval (topic : string) (report_parts : ReportParts)
    : M App ReportParts :=
  fuel <~ gets (fun w => S (length (inbox w))) ;;
  report_approval_loop fuel topic 1 report_parts None.

(** Step 3 of [run_interactive_research]: the interviews, with the units'
    progress messages. *)
Definition interviews_with_updates (l : list Analyst) (task : ResearchTask)
    : M App (list InterviewResult) :=
  let unit a := _conduct_single_interview a (max_interview_turns task) in
  if parallel_interviews task then
    send_progress (parallel_interviews_started l) ;;;
    let '(log, r) := gather unit l (completion_order l) in
    modify (fun w => {| inbox := inbox w; sent := sent w ++ unit_updates log;
                        globals := globals w; workflow := workflow w |}) ;;;
    lift r
  else
    send_progress (sequential_interviews_started l) ;;;
    let '(log, r) := await_each unit l 0 [] [] in
    modify (fun w => {| inbox := inbox w; sent := sent w ++ unit_updates log;
                        globals := globals w; workflow := workflow w |}) ;;;
    lift r.

(** The [try] block of [run_interactive_research] from
    [task.max_analysts = analyst_count] on. *)
Definition research_with_count (analyst_count : JValue) (task : ResearchTask)
    : M App () :=
  let task := with_max_analysts analyst_count task in
  send_progress (generating_analysts analyst_count) ;;;
  send_progress analyzing_topic ;;;
  send_progress creating_profiles ;;;
  analysts <~ lift (_generate_analysts task) ;;
  send_progress (analysts_created analysts) ;;;
  send_progress preparing_questions ;;;
  send_progress (starting_interviews (length analysts)) ;;;
  interviews <~ interviews_with_updates analysts task ;;
  send_progress (interviews_completed (length interviews)) ;;;
  send_progress analyzing_interviews ;;;
  send_progress structuring_report ;;;
  send_progress writing_report ;;;
  report_parts <~ lift (_write_report (topic task) interviews) ;;
  send_progress reviewing_report ;;;
  final_report_parts <~ get_report_approval (topic task) report_parts ;;
  let final_report := _assemble_final_report final_report_parts in
  send_progress research_completed ;;;
  send_json (Result (topic task) analysts (length interviews) final_report).

(** The [try] block of [run_interactive_research]. *)
Definition research_steps (task : ResearchTask) : M App () :=
  send_progress research_starting ;;;
  analyst_count <~ get_analyst_count (max_analysts task) ;;
  research_with_count analyst_count task.

(** [run_interactive_research], its [try] and its [except]: [except
    Exception as e] sends the error; a cancellation passes through.  The
    [finally] clause, which closes the workflow, is added by
    [run_interactive_research_closing]. *)
Definition run_interactive_research (task : ResearchTask) : M App () :=
  fun w =>
    match research_steps task w with
    | None => None
    | Some (w', inl e) =>
        if is_Exception e then send_json (Error e) w' else Some (w', inl e)
    | Some (w', inr r) => Some (w', inr r)
    end.
End InteractiveStormWorkflow.

(** ** Collaborators for the examples *)

Definition analyst_named (n : string) : Analyst :=
  {| affiliation := "institute"; name := n; role := "analyst"; description := n |}.

Definition decimal (s : string) : option Z :=
  if String.eqb s "" then None else Z.of_int <$> NilEmpty.int_of_string s.

(** Analysts a1, a2, ... *)
Definition numbered_analysts (n : nat) : list Analyst :=
  (fun i => analyst_named ("a" +:+ pretty i)) <$> seq 1 n.

Definition as_many_as_asked (task : ResearchTask) : list Analyst :=
  match max_analysts task with
  | JInt n => numbered_analysts (Z.to_nat n)
  | _ => []
  end.

(** Both generators return as many analysts as the task asks for; the
    generator of the additional analyst returns one more; the interview with an
    analyst whose name is in [failing] raises; the children of a [gather]
    finish in the order [order]. *)
Definition scripted (failing : list string) (order : list nat) : Collaborators :=
  {| run_analyst_generator task := inr (as_many_as_asked task);
     run_diverse_analyst_generator task := inr (as_many_as_asked task);
     run_additional_analyst_generator _ _ _ := inr (analyst_named "feedback analyst");
     run_interview_team a _ :=
       if bool_decide (name a ∈ failing)
       then inl (CollaboratorError (name a))
       else inr ("interview with " +:+ name a);
     run_feedback_interview_team a _ _ :=
       if bool_decide (name a ∈ failing)
       then inl (CollaboratorError (name a))
       else inr ("feedback interview with " +:+ name a);
     run_section_team a _ := inr ("section by " +:+ name a);
     run_feedback_section_team a _ _ := inr ("feedback section by " +:+ name a);
     run_report_writers _ rs :=
       inr {| part_main_content := "report";
              part_introduction := "introduction";
              part_conclusion := "conclusion" |};
     run_feedback_report_writers _ rs _ :=
       inr {| part_main_content := "report with feedback";
              part_introduction := "introduction";
              part_conclusion := "conclusion" |};
     _assemble_final_report parts := part_main_content parts;
     completion_order _ := order;
     py_int := decimal |}.

(** ** The older fan-out: storm_research.py *)

Record Editor := {
  editor_affiliation : string;
  editor_name : string;
  editor_role : string;
  editor_description : string
}.

(** A line of the conversation an interview yields: what was said, or one of
    the two notices the code puts in the place of a transcript. *)
Inductive Line :=
| Said (text : string)
| InterviewError (name : string)
| InterviewFailed (error : Exc).

Section StormResearch.
(** The interview team of [conduct_single_interview] at work. *)
Variable run_editor_interview : Editor -> string -> Exc + list string.

(** [conduct_single_interview]: the whole body is in a [try]; on an
    [Exception] the transcript is the notice alone. *)
Definition conduct_single_interview (editor : Editor) (topic : string)
    : Exc + list Line :=
  match run_editor_interview editor topic with
  | inr conversation => inr (Said <$> conversation)
  | inl e =>
      if is_Exception e then inr [InterviewError (editor_name editor)] else inl e
  end.

(** The [for editor_name, task in tasks] of [conduct_all_interviews_parallel]:
    each task is awaited in its own [try]. *)
Fixpoint await_tasks (tasks : list (string * (Exc + list Line)))
    (interview_results : gmap string (list Line)) : Exc + gmap string (list Line) :=
  match tasks with
  | [] => inr interview_results
  | (name, outcome) :: tasks' =>
      match outcome with
      | inr result => await_tasks tasks' (<[name := result]> interview_results)
      | inl e =>
          if is_Exception e
          then await_tasks tasks' (<[name := [InterviewFailed e]]> interview_results)
          else inl e
      end
  end.

(** [conduct_all_interviews_parallel]; the summary at its end reads the first
    line of every transcript. *)
Definition conduct_all_interviews_parallel (editors : list Editor) (topic : string)
    : Exc + gmap string (list Line) :=
  let tasks :=
    (fun editor => (editor_name editor, conduct_single_interview editor topic)) <$> editors in
  match await_tasks tasks ∅ with
  | inl e => inl e
  | inr interview_results =>
      if bool_decide (map_Forall (fun _ v => v ≠ []) interview_results)
      then inr interview_results
      else inl IndexError
  end.
End StormResearch.

(** ** Notions for the statements *)

(** The log of a unit that ran to its end. *)
Definition ran (i : nat) : list UnitEvent := [Started i; Finished i].

(** A slot is filled only with the result of its own child. *)
Definition own_results {R} (outcomes : list (Exc + R)) (slots : list (option R)) : Prop :=
  ∀ i r, slots !! i = Some (Some r) → outcomes !! i = Some (inr r).

(** How the wait of an Ask of the session [session_id], issued in the globals
    [g] with the inbox [events], ends. *)
Definition ask_ends (session_id : string) (t : UserResponseType)
    (events : list Inbound) (g : Globals) : Awaited :=
  (wait_for (length (futures g)) 300 events (wait_for_response_register session_id t g).2).2.

(** The version numbers the loop announces: in the header of the first
    review and after every rewrite. *)
Definition announced (out : list Printed) : list nat :=
  omap (fun p =>
          match p with
          | ReviewHeader version => Some version
          | Rewritten version => Some version
          | _ => None
          end) out.

Definition versions_of (w : Console) : list ReportParts := report_versions (self w).

(** A computation that ends, leaves the version history alone, announces no
    version and at most reads lines. *)
Definition steady {A} (m : M Console A) : Prop :=
  ∀ w, ∃ w' r out,
    m w = Some (w', r) ∧ stdout w' = stdout w ++ out ∧ announced out = [] ∧
    versions_of w' = versions_of w ∧ length (stdin w') ≤ length (stdin w).

Definition keeps_versions {A} (m : M StormWorkflow A) : Prop :=
  ∀ s, ∃ s' r, m s = Some (s', r) ∧ report_versions s' = report_versions s.

(** What one turn of the console loop does to the draft, to the version
    history and to the announced versions. *)
Definition turn_outcome (parts : ReportParts) (w w' : Console)
    (out : list Printed) (r : Exc + Turn) : Prop :=
  match r with
  | inl e => versions_of w' = versions_of w ∧ announced out = []
  | inr (Return report) =>
      report = parts ∧ versions_of w' = versions_of w ∧ announced out = []
  | inr (Continue report) =>
      length (stdin w') < length (stdin w) ∧
      ((report = parts ∧ versions_of w' = versions_of w ∧ announced out = []) ∨
       (versions_of w' = versions_of w ++ [report] ∧
        announced out = [S (length (versions_of w))]))
  end.

(** The versions the loop over the WebSocket presents: the version number
    and the draft of each of its approval requests. *)
Definition presented (out : list Outbound) : list (Z * ReportParts) :=
  omap (fun m =>
          match m with
          | ReportApprovalRequest _ version report => Some (version, report)
          | _ => None
          end) out.

(** A message that carries a version number: an approval request or the
    announcement of a finished rewrite. *)
Definition carries_version (m : Outbound) : bool :=
  match m with
  | ReportApprovalRequest _ _ _ => true
  | Progress (rewrite_completed _) => true
  | _ => false
  end.

(** What the messages [out] say of a counter that stands at [version], with
    the draft [report] in hand if one is known: every approval request
    carries the counter and the draft in hand, and every announcement of a
    finished rewrite carries the counter plus one, which is the counter from
    then on, for a draft that the next request shows. *)
Fixpoint counts_from (version : Z) (report : option ReportParts) (out : list Outbound)
    : Prop :=
  match out with
  | [] => True
  | ReportApprovalRequest _ version' report' :: out' =>
      version' = version ∧ (∀ r, report = Some r → report' = r) ∧
      counts_from version (Some report') out'
  | Progress (rewrite_completed version') :: out' =>
      version' = (version + 1)%Z ∧ counts_from (version + 1) None out'
  | _ :: out' => counts_from version report out'
  end.

(** ** Inputs for the examples *)

Definition three_analysts : list Analyst := Eval vm_compute in numbered_analysts 3.

Definition example_task (parallel : bool) : ResearchTask :=
  {| topic := "X"; max_analysts := JInt 2; max_interview_turns := 3;
     parallel_interviews := parallel; user_feedback := None |}.

Definition example_app (events : list Inbound) : App :=
  {| inbox := events; sent := []; globals := Globals_init; workflow := StormWorkflow_init |}.

(** The globals while a first Ask of session "s" for the analyst count is
    outstanding: its future is future 0. *)
Definition first_ask_outstanding : Globals :=
  (wait_for_response_register "s" ANALYST_COUNT (on_connect "s" Globals_init)).2.

(** The globals while sessions "s1" and "s10" are connected and an Ask of
    "s10" for the analyst count is outstanding (future 0). *)
Definition two_sessions : Globals :=
  (wait_for_response_register "s10" ANALYST_COUNT
     (on_connect "s10" (on_connect "s1" Globals_init))).2.

Definition first_draft : ReportParts :=
  {| part_main_content := "report"; part_introduction := "introduction";
     part_conclusion := "conclusion" |}.

(** A console at the start of the review: the instance has the three analysts
    and an empty version history. *)
Definition review_console (lines : list string) : Console :=
  {| stdin := lines; stdout := [];
     self := set_current three_analysts [] StormWorkflow_init |}.

(** The same console once the first draft has been presented as version 1. *)
Definition presented_console (lines : list string) : Console :=
  {| stdin := lines; stdout := [];
     self := append_version first_draft (set_current three_analysts [] StormWorkflow_init) |}.

(** The research of the specification's scenario on the console: four
    analysts, a rewrite with the feedback "add cost analysis", approval. *)
Definition scenario_console : Console :=
  {| stdin := ["4"; "2"; "2"; "add cost analysis"; "1"]; stdout := [];
     self := StormWorkflow_init |}.

(** The same scenario over the WebSocket. *)
Definition scenario_app : App :=
  example_app
    [Message 2 "s" ANALYST_COUNT {[ "count" := JInt 4 ]};
     Message 3 "s" REPORT_APPROVAL
       (<[ "action" := JStr "rewrite" ]>
          (<[ "rewrite_type" := JStr "feedback" ]>
             {[ "feedback" := JStr "add cost analysis" ]}));
     Message 3 "s" REPORT_APPROVAL {[ "action" := JStr "approve" ]}].

(** The two decisions of the specification's scenario, as they reach the
    approval loop. *)
Definition scenario_decisions : list Inbound :=
  [Message 3 "s" REPORT_APPROVAL
     (<[ "action" := JStr "rewrite" ]>
        (<[ "rewrite_type" := JStr "feedback" ]>
           {[ "feedback" := JStr "add cost analysis" ]}));
   Message 3 "s" REPORT_APPROVAL {[ "action" := JStr "approve" ]}].

(** ** Notions for the statements on the pending requests *)

(** The time the events of a list take to arrive. *)
Definition elapsed (events : list Inbound) : N :=
  foldr (fun ev t => (delay_of ev + t)%N) 0%N events.

(** An event that is neither an answer to the Ask of [session_id] for [t]
    nor the loss of a socket whose session identifier the key of that Ask
    starts with. *)
Definition unrelated (session_id : string) (t : UserResponseType) (ev : Inbound) : Prop :=
  match ev with
  | Message _ s t' _ => s ≠ session_id ∨ t' ≠ t
  | Disconnect _ s => startswith (response_key session_id t) s = false
  end.

Definition is_message (ev : Inbound) : bool :=
  match ev with
  | Message _ _ _ _ => true
  | Disconnect _ _ => false
  end.

(** Every future registered in [pending_responses] was created: its position
    is one of [futures]. *)
Definition futures_allocated (g : Globals) : Prop :=
  map_Forall (fun _ future => future < length (futures g)) (pending_responses g).

(** The future [future] is pending and registered under [key] and under no
    other key. *)
Definition outstanding (key : string) (future : nat) (g : Globals) : Prop :=
  futures g !! future = Some FutPending ∧
  pending_responses g !! key = Some future ∧
  ∀ key', pending_responses g !! key' = Some future → key' = key.

(** The globals once sessions "s" and "u" are connected and an Ask of "u" for
    the report approval is outstanding (future 0). *)
Definition other_session_waiting : Globals :=
  (wait_for_response_register "u" REPORT_APPROVAL
     (on_connect "u" (on_connect "s" Globals_init))).2.

(** Traffic of session "u" and the loss of the socket of a session "t" before
    the answer of session "s". *)
Definition busy_app (last : Inbound) : App :=
  {| inbox := [Message 10 "u" REPORT_APPROVAL {[ "action" := JStr "approve" ]};
               Message 20 "s" FEEDBACK {[ "feedback" := JStr "more" ]};
               Disconnect 30 "t";
               last];
     sent := []; globals := other_session_waiting; workflow := StormWorkflow_init |}.

(** ** run_research *)

Section RunResearch.
Context `{Collaborators}.

(** [run_research] of a workflow created with or without [interactive_mode];
    the automatic mode reads and prints nothing that is recorded here. *)
Definition run_research (interactive_mode : bool) (task : ResearchTask)
    : M Console ResearchResult :=
  if interactive_mode then _run_interactive_research task
  else lift (_run_automatic_research task).
End RunResearch.

(** ** Notions for the statements on the console *)

(** The interviews the instance holds are those of the analysts it holds, in
    the same order. *)
Definition aligned (s : StormWorkflow) : Prop :=
  analyst <$> current_interviews s = current_analysts s.

(** A computation on the console that keeps a property of the instance. *)
Definition keeps {A} (P : StormWorkflow → Prop) (m : M Console A) : Prop :=
  ∀ w w' r, m w = Some (w', r) → P (self w) → P (self w').

(** A complaint about a line that is not an acceptable analyst count. *)
Definition is_count_complaint (p : Printed) : Prop :=
  p = CountOutOfRange ∨ p = CountNotANumber.

(** An analyst count the console accepts. *)
Definition count_in_range (default_count count : JValue) : Prop :=
  count = default_count ∨ ∃ n, count = JInt n ∧ (1 ≤ n ≤ 10)%Z.

(** A console whose instance went through two rewrites. *)
Definition compare_console (lines : list string) : Console :=
  {| stdin := lines; stdout := [];
     self := append_version first_draft (append_version first_draft
               (set_current three_analysts [] StormWorkflow_init)) |}.

(** ** config.py *)

Inductive ModelProvider := OPENAI | AZURE_OPENAI | ANTHROPIC.

(** [ModelConfig]; the float [temperature] is carried as the rational it
    denotes. *)
Record ModelConfig := {
  provider : ModelProvider;
  model : string;
  api_key : option string;
  base_url : option string;
  azure_endpoint : option string;
  azure_deployment : option string;
  api_version : option string;
  use_azure_ad : bool;
  temperature : QArith_base.Q;
  max_tokens : option Z
}.

(** [ModelConfig(provider=.., api_key=.., azure_endpoint=..,
    azure_deployment=.., model=..)]: the other fields take the defaults of
    the dataclass. *)
Definition ModelConfig_with (provider : ModelProvider) (api_key : option string)
    (azure_endpoint azure_deployment : option string) (model : string) : ModelConfig :=
  {| provider := provider; model := model; api_key := api_key; base_url := None;
     azure_endpoint := azure_endpoint; azure_deployment := azure_deployment;
     api_version := Some "2024-06-01"; use_azure_ad := false;
     temperature := QArith_base.Qmake 0 1; max_tokens := None |}.

(** The values of the dictionary that [to_autogen_config] builds. *)
Inductive ConfigValue :=
| CfgNone
| CfgStr (s : string)
| CfgFloat (x : QArith_base.Q)
| CfgInt (n : Z).

(** [{"provider": .., "config": {..}}] *)
Record ComponentConfig := {
  component_provider : string;
  component_config : gmap string ConfigValue
}.

(** Truth value of an [Optional[str]] and of an [Optional[int]]. *)
Definition truthy_str (s : option string) : bool :=
  match s with
  | Some s => negb (String.eqb s "")
  | None => false
  end.

Definition truthy_int (n : option Z) : bool :=
  match n with
  | Some n => negb (n =? 0)%Z
  | None => false
  end.

(** [config["config"][key] = value], for a value that is not [None]. *)
Definition set_str (key : string) (value : option string)
    (config : gmap string ConfigValue) : gmap string ConfigValue :=
  match value with
  | Some s => <[key := CfgStr s]> config
  | None => <[key := CfgNone]> config
  end.

Definition set_int (key : string) (value : option Z)
    (config : gmap string ConfigValue) : gmap string ConfigValue :=
  match value with
  | Some n => <[key := CfgInt n]> config
  | None => <[key := CfgNone]> config
  end.

(** [ModelConfig.to_autogen_config].  [ModelProvider] has the three members
    matched here, so the final [else] of the source is never taken. *)
Definition to_autogen_config (self : ModelConfig) : ComponentConfig :=
  match provider self with
  | OPENAI =>
      let config :=
        <["model" := CfgStr (model self)]>
          (<["temperature" := CfgFloat (temperature self)]> ∅) in
      let config :=
        if truthy_str (api_key self) then set_str "api_key" (api_key self) config
        else config in
      let config :=
        if truthy_str (base_url self) then set_str "base_url" (base_url self) config
        else config in
      let config :=
        if truthy_int (max_tokens self) then set_int "max_tokens" (max_tokens self) config
        else config in
      {| component_provider := "autogen_ext.models.openai.OpenAIChatCompletionClient";
         component_config := config |}
  | AZURE_OPENAI =>
      let config :=
        <["model" := CfgStr (model self)]>
          (<["temperature" := CfgFloat (temperature self)]>
             (set_str "api_version" (api_version self) ∅)) in
      let config :=
        if truthy_str (azure_endpoint self)
        then set_str "azure_endpoint" (azure_endpoint self) config
        else config in
      let config :=
        if truthy_str (azure_deployment self)
        then set_str "azure_deployment" (azure_deployment self) config
        else config in
      let config :=
        if truthy_str (api_key self) && negb (use_azure_ad self)
        then set_str "api_key" (api_key self) config
        else config in
      let config :=
        if truthy_int (max_tokens self) then set_int "max_tokens" (max_tokens self) config
        else config in
      {| component_provider := "autogen_ext.models.openai.AzureOpenAIChatCompletionClient";
         component_config := config |}
  | ANTHROPIC =>
      let config :=
        <["model" := CfgStr (model self)]>
          (<["temperature" := CfgFloat (temperature self)]> ∅) in
      let config :=
        if truthy_str (api_key self) then set_str "api_key" (api_key self) config
        else config in
      let config :=
        if truthy_int (max_tokens self) then set_int "max_tokens" (max_tokens self) config
        else config in
      {| component_provider := "autogen_ext.models.anthropic.AnthropicChatCompletionClient";
         component_config := config |}
  end.

(** The provider is the one named. *)
Definition is_openai (p : ModelProvider) : bool :=
  match p with OPENAI => true | _ => false end.

Definition is_azure_openai (p : ModelProvider) : bool :=
  match p with AZURE_OPENAI => true | _ => false end.

(** [StormConfig] *)
Record StormConfig := {
  config_model_config : ModelConfig;
  expert_model_config : option ModelConfig;
  writer_model_config : option ModelConfig;
  analyst_model_config : option ModelConfig;
  interviewer_model_config : option ModelConfig;
  config_max_analysts : Z;
  config_max_interview_turns : Z;
  tavily_max_results : Z;
  arxiv_max_docs : Z;
  config_parallel_interviews : bool;
  openai_api_key : option string;
  tavily_api_key : option string;
  naver_client_id : option string;
  naver_client_secret : option string
}.

(** ** The HTTP endpoints of app_interactive.py *)

Record ResearchRequest := {
  request_topic : string;
  request_max_analysts : Z;
  request_max_interview_turns : Z;
  request_parallel_interviews : bool;
  model_provider : string;
  request_api_key : option string;
  request_azure_endpoint : option string;
  request_azure_deployment : option string
}.

(** The ["config"] entry of a stored research task. *)
Record StoredConfig := {
  stored_max_analysts : Z;
  stored_max_interview_turns : Z;
  stored_parallel_interviews : bool;
  stored_model_provider : string
}.

(** An entry of [research_tasks].  [completed_at] is absent until the task
    ends; [error] holds the exception whose text is stored. *)
Record StoredTask := {
  stored_session_id : string;
  stored_topic : string;
  status : string;
  created_at : string;
  stored_config : StoredConfig;
  result : JValue;
  error : option Exc;
  completed_at : option string
}.

(** The server: the state of the socket and of the correlation, and the
    global [research_tasks]. *)
Record Server := {
  application : App;
  research_tasks : gmap string StoredTask
}.

(** [research_tasks[session_id].update({"status": "completed",
    "completed_at": .., "result": result})] *)
Definition update_completed (now : string) (value : JValue) (stored : StoredTask)
    : StoredTask :=
  {| stored_session_id := stored_session_id stored; stored_topic := stored_topic stored;
     status := "completed"; created_at := created_at stored;
     stored_config := stored_config stored;
     result := value; error := error stored; completed_at := Some now |}.

(** [research_tasks[session_id].update({"status": "failed", "completed_at": ..,
    "error": str(e)})] *)
Definition update_failed (now : string) (e : Exc) (stored : StoredTask) : StoredTask :=
  {| stored_session_id := stored_session_id stored; stored_topic := stored_topic stored;
     status := "failed"; created_at := created_at stored;
     stored_config := stored_config stored;
     result := result stored; error := Some e; completed_at := Some now |}.

Section Endpoints.
Context `{Collaborators}.
(** The environment [os.getenv] reads, the builtin [str.strip], and
    [ChatCompletionClient.load_component], by the exception it raises if it
    raises one. *)
Variable environ : gmap string string.
Variable strip : string → string.
Variable load_component : ComponentConfig → option Exc.
(** [StormWorkflow.close], which closes the model client and the tracing:
    the exception it raises, if it raises one. *)
Variable close : option Exc.

(** [value if value and value.strip() else os.getenv(variable)] *)
Definition request_or_env (value : option string) (variable : string) : option string :=
  if truthy_str value && truthy_str (strip <$> value) then value
  else environ !! variable.

(** [create_model_config]; nothing in its [try] raises. *)
Definition create_model_config (provider : string)
    (api_key azure_endpoint azure_deployment : option string) : option ModelConfig :=
  if String.eqb provider "openai" then
    let key := request_or_env api_key "OPENAI_API_KEY" in
    if negb (truthy_str key) then None
    else Some (ModelConfig_with OPENAI key None None "gpt-4o")
  else if String.eqb provider "azure_openai" then
    let key := request_or_env api_key "AZURE_OPENAI_API_KEY" in
    let endpoint := request_or_env azure_endpoint "AZURE_OPENAI_ENDPOINT" in
    let deployment := request_or_env azure_deployment "AZURE_OPENAI_DEPLOYMENT" in
    if negb (truthy_str key) then None
    else if negb (truthy_str endpoint) then None
    else if negb (truthy_str deployment) then None
    else Some (ModelConfig_with AZURE_OPENAI key endpoint deployment "gpt-4.1-nano")
  else if String.eqb provider "anthropic" then
    let key := request_or_env api_key "ANTHROPIC_API_KEY" in
    if negb (truthy_str key) then None
    else Some (ModelConfig_with ANTHROPIC key None None "claude-3-5-sonnet-20241022")
  else None.

(** [except Exception as e: raise HTTPException(status_code=500, ..)] around
    the body of [start_interactive_research]. *)
Definition or_internal_error {St A} (body : M St A) : M St A :=
  fun s =>
    match body s with
    | Some (s', inl e) =>
        if is_Exception e then Some (s', inl (HTTPException 500)) else Some (s', inl e)
    | other => other
    end.

(** [start_interactive_research], at the time [now].  The value returned
    stands for the background task that was added:
    [run_interactive_research_task] with this configuration and this task, on
    the socket of the session. *)
Definition start_interactive_research (now : string) (session_id : string)
    (request : ResearchRequest) : M Server (StormConfig * ResearchTask) :=
  connected <~
    gets (fun sv =>
            bool_decide (session_id ∈ active_connections (globals (application sv)))) ;;
  if negb connected then raise (HTTPException 400)
  else
    or_internal_error
      (match create_model_config (model_provider request) (request_api_key request)
               (request_azure_endpoint request) (request_azure_deployment request) with
       | None => raise (HTTPException 400)
       | Some model_config =>
           let config :=
             {| config_model_config := model_config;
                expert_model_config := None; writer_model_config := None;
                analyst_model_config := None; interviewer_model_config := None;
                config_max_analysts := request_max_analysts request;
                config_max_interview_turns := request_max_interview_turns request;
                tavily_max_results := 3; arxiv_max_docs := 3;
                config_parallel_interviews := request_parallel_interviews request;
                openai_api_key := None;
                tavily_api_key := environ !! "TAVILY_API_KEY";
                naver_client_id := None; naver_client_secret := None |} in
           let task :=
             {| topic := request_topic request;
                max_analysts := JInt (request_max_analysts request);
                max_interview_turns := request_max_interview_turns request;
                parallel_interviews := request_parallel_interviews request;
                user_feedback := None |} in
           let stored :=
             {| stored_session_id := session_id;
                stored_topic := request_topic request;
                status := "running";
                created_at := now;
                stored_config :=
                  {| stored_max_analysts := request_max_analysts request;
                     stored_max_interview_turns := request_max_interview_turns request;
                     stored_parallel_interviews := request_parallel_interviews request;
                     stored_model_provider := model_provider request |};
                result := JNull; error := None; completed_at := None |} in
           modify (fun sv =>
                     {| application := application sv;
                        research_tasks := <[session_id := stored]> (research_tasks sv) |}) ;;;
           ret (config, task)
       end).

(** [StormWorkflow._create_model_client] *)
Definition _create_model_client (model_config : option ModelConfig) : option Exc :=
  match model_config with
  | None => None
  | Some model_config => load_component (to_autogen_config model_config)
  end.

(** [InteractiveStormWorkflow(config, websocket, session_id)], that is
    [create_storm_workflow(config, interactive_mode=True)] and so
    [StormWorkflow.__init__]: the model clients are loaded one after the
    other, then the state of the interactive mode is set up. *)
Definition InteractiveStormWorkflow_new (config : StormConfig) : Exc + StormWorkflow :=
  match load_component (to_autogen_config (config_model_config config)) with
  | Some e => inl e
  | None =>
      match _create_model_client (expert_model_config config) with
      | Some e => inl e
      | None =>
          match _create_model_client (writer_model_config config) with
          | Some e => inl e
          | None =>
              match _create_model_client (analyst_model_config config) with
              | Some e => inl e
              | None =>
                  match _create_model_client (interviewer_model_config config) with
                  | Some e => inl e
                  | None => inr StormWorkflow_init
                  end
              end
          end
      end
  end.

(** [run_interactive_research] with its [finally: await
    self.workflow.close()]: the workflow is closed however the research
    ended, and an exception that [close] raises takes the place of the
    outcome of the research. *)
Definition run_interactive_research_closing (session_id : string) (task : ResearchTask)
    : M App () :=
  fun a =>
    match run_interactive_research session_id task a with
    | None => None
    | Some (a', r) =>
        Some (a', match close with
                  | Some e => inl e
                  | None => r
                  end)
    end.

(** [run_interactive_research_task], ending at the time [now].
    [run_interactive_research] has no [return] statement, so the result that
    is stored is [None]. *)
Definition run_interactive_research_task (now : string) (config : StormConfig)
    (task : ResearchTask) (session_id : string) : M Server () :=
  fun sv =>
    let attempt :=
      match InteractiveStormWorkflow_new config with
      | inl e => Some (application sv, inl e)
      | inr workflow =>
          run_interactive_research_closing session_id task
            {| inbox := inbox (application sv); sent := sent (application sv);
               globals := globals (application sv); workflow := workflow |}
      end in
    match attempt with
    | None => None
    | Some (application', inr _) =>
        Some ({| application := application';
                 research_tasks :=
                   alter (update_completed now JNull) session_id (research_tasks sv) |},
              inr ())
    | Some (application', inl e) =>
        if is_Exception e then
          Some ({| application := application';
                   research_tasks :=
                     alter (update_failed now e) session_id (research_tasks sv) |},
                inr ())
        else Some ({| application := application'; research_tasks := research_tasks sv |}, inl e)
    end.
End Endpoints.

(** [get_research_task] *)
Definition get_research_task (task_id : string) : M Server StoredTask :=
  stored <~ gets (fun sv => research_tasks sv !! task_id) ;;
  match stored with
  | None => raise (HTTPException 404)
  | Some stored => ret stored
  end.

(** [delete_research_task] *)
Definition delete_research_task (task_id : string) : M Server string :=
  stored <~ gets (fun sv => research_tasks sv !! task_id) ;;
  match stored with
  | None => raise (HTTPException 404)
  | Some _ =>
      modify (fun sv => {| application := application sv;
                           research_tasks := delete task_id (research_tasks sv) |}) ;;;
      ret task_id
  end.

(** ** Notions for the statements on the endpoints *)

(** The name of a provider in a request and the environment variable that
    holds its API key. *)
Definition provider_name (p : ModelProvider) : string :=
  match p with
  | OPENAI => "openai"
  | AZURE_OPENAI => "azure_openai"
  | ANTHROPIC => "anthropic"
  end.

Definition api_key_variable (p : ModelProvider) : string :=
  match p with
  | OPENAI => "OPENAI_API_KEY"
  | AZURE_OPENAI => "AZURE_OPENAI_API_KEY"
  | ANTHROPIC => "ANTHROPIC_API_KEY"
  end.

(** The application with the instance an [InteractiveStormWorkflow] was
    created with. *)
Definition with_workflow (workflow : StormWorkflow) (a : App) : App :=
  {| inbox := inbox a; sent := sent a; globals := globals a; workflow := workflow |}.

(** ** Inputs for the examples of the endpoints *)

(** [str.strip] on a string of letters, digits and blanks. *)
Fixpoint lstrip_blanks (s : string) : string :=
  match s with
  | String c s' => if String.eqb (String c "") " " then lstrip_blanks s' else s
  | EmptyString => EmptyString
  end.

Definition strip_blanks (s : string) : string :=
  String.rev (lstrip_blanks (String.rev (lstrip_blanks s))).

Definition example_environ : gmap string string :=
  {[ "OPENAI_API_KEY" := "sk-env" ]}.

Definition example_request (provider : string) (key : option string) : ResearchRequest :=
  {| request_topic := "X"; request_max_analysts := 2; request_max_interview_turns := 3;
     request_parallel_interviews := true; model_provider := provider;
     request_api_key := key; request_azure_endpoint := None;
     request_azure_deployment := None |}.

(** A server on which session "s" is connected and nothing is stored. *)
Definition example_server (events : list Inbound) : Server :=
  {| application := {| inbox := events; sent := []; globals := on_connect "s" Globals_init;
               workflow := StormWorkflow_init |};
     research_tasks := ∅ |}.

(** ** Notions for the statements on the instance behind the WebSocket *)

(** A computation of the application that, when it ends, has at most sent
    messages, and has left the workflow instance as it was unless one of the
    messages announces a rewrite with feedback. *)
Definition instance_untouched {A} (m : M App A) : Prop :=
  ∀ a a' r, m a = Some (a', r) →
    ∃ out, sent a' = sent a ++ out ∧
           (Progress feedback_rewrite_running ∉ out → workflow a' = workflow a).

(** The editors and the interviews of the example for storm_research.py:
    the interview with "e2" raises. *)
Definition example_editors : list Editor :=
  [ {| editor_affiliation := "institute"; editor_name := "e1"; editor_role := "editor";
       editor_description := "first" |};
    {| editor_affiliation := "institute"; editor_name := "e2"; editor_role := "editor";
       editor_description := "second" |} ].

Definition example_editor_interview (editor : Editor) (topic : string) : Exc + list string :=
  if String.eqb (editor_name editor) "e2" then inl (CollaboratorError "e2")
  else inr ["question"; "answer"].

(** A request to rewrite with a rewrite type the loop does not know. *)
Definition odd_rewrite : gmap string JValue :=
  <[ "action" := JStr "rewrite" ]> {[ "rewrite_type" := JStr "shorter" ]}.

(** ** The text of the final report: _assemble_final_report *)

(** Python strings are taken as their UTF-8 encoding; a text occurs in
    another, or starts it, exactly when its encoding does. *)

(** The line feed. *)
Definition LF : string :=
  String (Ascii.Ascii false true false true false false false false) "".

(** [s] without its first [len(prefix)] characters. *)
Fixpoint drop_prefix (prefix s : string) : string :=
  match prefix, s with
  | String _ prefix', String _ s' => drop_prefix prefix' s'
  | _, _ => s
  end.

(** [s.split(sep, 1)] when it has two parts: the text before the first
    occurrence of [sep] and the text after it. *)
Fixpoint split_once (sep s : string) : option (string * string) :=
  if String.prefix sep s then Some ("", drop_prefix sep s)
  else
    match s with
    | "" => None
    | String c s' =>
        match split_once sep s' with
        | Some (before, after) => Some (String c before, after)
        | None => None
        end
    end.

(** [sub in s] *)
Definition contains (sub s : string) : bool :=
  match split_once sub s with
  | Some _ => true
  | None => false
  end.

(** [s.replace(old, new, 1)] *)
Definition replace_once (old new s : string) : string :=
  match split_once old s with
  | Some (before, after) => before +:+ new +:+ after
  | None => s
  end.

(** [main_content, section = main_content.split(sep, 1)] in its [try]: when
    the separator does not occur the unpacking raises, nothing is assigned,
    and the [except] sets the section to [None]. *)
Definition split_section (sep main_content : string) : string * option string :=
  match split_once sep main_content with
  | Some (before, after) => (before, Some after)
  | None => (main_content, None)
  end.

Section FinalReport.
(** The builtins [str.lower] and [str.strip]. *)
Variable lower : string → string.
Variable strip : string → string.

(** [_assemble_final_report] *)
Definition assemble_final_report (parts : ReportParts) : string :=
  let main_content := part_main_content parts in
  if (contains "# " main_content || contains "## 서론" main_content)
     && (contains "결론" (lower main_content) || contains "## 결론" main_content)
  then strip main_content
  else
    let main_content :=
      if startswith main_content "## Insights"
      then strip (replace_once "## Insights" "" main_content)
      else main_content in
    let '(main_content, references) :=
      if contains "## 참고문헌" main_content
      then split_section (LF +:+ "## 참고문헌" +:+ LF) main_content
      else if contains "## References" main_content
      then split_section (LF +:+ "## References" +:+ LF) main_content
      else (main_content, None) in
    let '(main_content, sources) :=
      if contains "## Sources" main_content
      then split_section (LF +:+ "## Sources" +:+ LF) main_content
      else (main_content, None) in
    let final_report :=
      part_introduction parts
      +:+ (LF +:+ LF +:+ "---" +:+ LF +:+ LF +:+ "## 주요 내용" +:+ LF +:+ LF)
      +:+ main_content
      +:+ (LF +:+ LF +:+ "---" +:+ LF +:+ LF)
      +:+ part_conclusion parts in
    if truthy_str references
    then final_report +:+ (LF +:+ LF +:+ "## 참고문헌" +:+ LF) +:+ default "" references
    else if truthy_str sources
    then final_report +:+ (LF +:+ LF +:+ "## Sources" +:+ LF) +:+ default "" sources
    else final_report.
End FinalReport.

(** ** Notions for the statements on the final report *)

(** The main content is taken for a whole report. *)
Definition complete_report (lower : string → string) (main_content : string) : bool :=
  (contains "# " main_content || contains "## 서론" main_content)
  && (contains "결론" (lower main_content) || contains "## 결론" main_content).

Definition main_heading : string :=
  LF +:+ LF +:+ "---" +:+ LF +:+ LF +:+ "## 주요 내용" +:+ LF +:+ LF.

Definition rule : string := LF +:+ LF +:+ "---" +:+ LF +:+ LF.

Definition references_heading : string := LF +:+ LF +:+ "## 참고문헌" +:+ LF.

Definition sources_heading : string := LF +:+ LF +:+ "## Sources" +:+ LF.

(** [str.lower] and [str.strip] on the texts of the examples, which have no
    capital letter and no blank at either end. *)
Definition example_parts (main : string) : ReportParts :=
  {| part_main_content := main; part_introduction := "intro"; part_conclusion := "end" |}.

(** The builtins on the texts of the example: [strip] removes the line feed
    that follows the heading "## Insights". *)
Definition strip_line_feed (s : string) : string :=
  if String.prefix LF s then drop_prefix LF s else s.

(** ** _run_research_with_additional_analyst *)

Section AdditionalAnalyst.
Context `{Collaborators}.

(** [_run_research_with_additional_analyst] (tracing left out), on an
    instance created in interactive mode, which has [current_analysts]. *)
Definition _run_research_with_additional_analyst (task : ResearchTask)
    (additional_analyst : Analyst) : M StormWorkflow ResearchResult :=
  existing <~ gets current_analysts ;;
  let analysts :=
    match existing with
    | _ :: _ => existing ++ [additional_analyst]
    | [] => [additional_analyst]
    end in
  interviews <~ lift (_conduct_interviews analysts task) ;;
  report_parts <~ lift (_write_report (topic task) interviews) ;;
  ret {| result_topic := topic task;
         analysts := analysts;
         interviews := interviews;
         introduction := part_introduction report_parts;
         main_content := part_main_content report_parts;
         conclusion := part_conclusion report_parts;
         final_report := _assemble_final_report report_parts |}.
End AdditionalAnalyst.

(** * Theorems *)

(** ** The fan-out *)

Section FanOutFacts.
Context {R : Type}.
Implicit Types (unit : Analyst -> Exc + R) (l : list Analyst) (rs : list R).
Implicit Types (outcomes : list (Exc + R)) (slots : list (option R)).

Lemma await_each_run unit l i acc log :
  ∃ k tail,
    (await_each unit l i acc log).1 = log ++ (seq i k ≫= ran) ++ tail ∧
    ((k = length l ∧ tail = [] ∧
      ∃ rs, Forall2 (fun a r => unit a = inr r) l rs ∧
            (await_each unit l i acc log).2 = inr (acc ++ rs)) ∨
     (k < length l ∧ tail = [Started (i + k); Raised (i + k)] ∧
      ∃ a e, l !! k = Some a ∧ unit a = inl e ∧
             (await_each unit l i acc log).2 = inl e)).
Proof.
  revert i acc log. induction l as [|a l IH]; intros i acc log; simpl.
  - exists 0, []. split; [by rewrite !app_nil_r|].
    left. repeat split; try done. exists []. by rewrite app_nil_r.
  - destruct (unit a) as [e|r] eqn:Ha.
    + exists 0, [Started (i + 0); Raised (i + 0)]. simpl.
      rewrite Nat.add_0_r. split; [done|].
      right. split; [lia|]. split; [done|]. by exists a, e.
    + destruct (IH (S i) (acc ++ [r]) (log ++ [Started i; Finished i]))
        as (k & tail & Hlog & Hres).
      exists (S k), tail. split.
      { rewrite Hlog. simpl. by rewrite <- !app_assoc. }
      destruct Hres as [(-> & -> & rs & Hrs & Hret) | (Hk & -> & a' & e & Hk' & Ha' & Hret)].
      * left. repeat split; try done. exists (r :: rs). split; [by constructor|].
        rewrite Hret. by rewrite <- app_assoc.
      * right. split; [simpl; lia|]. split.
        { by replace (i + S k) with (S i + k) by lia. }
        by exists a', e.
Qed.

Lemma gather_wait_returns outcomes order slots log log' slots' :
  gather_wait outcomes order slots log = (log', inr slots') →
  own_results outcomes slots →
  length slots' = length slots ∧ own_results outcomes slots' ∧
  (∀ i r, slots !! i = Some (Some r) → slots' !! i = Some (Some r)) ∧
  (∀ i, i ∈ order → i < length slots → i < length outcomes →
        ∃ r, slots' !! i = Some (Some r)).
Proof.
  revert slots log. induction order as [|i order IH]; intros slots log Hrun Hown; simpl in Hrun.
  - injection Hrun as <- <-. repeat split; try done. intros i Hi. by apply elem_of_nil in Hi.
  - destruct (outcomes !! i) as [[e|r]|] eqn:Hout; destruct (slots !! i) as [[r'|]|] eqn:Hslot;
      try discriminate Hrun.
    all: try (apply IH in Hrun as (Hlen & Hown' & Hkeep & Hfill); [|done];
              repeat split; try done;
              intros j [->|Hj]%elem_of_cons Hj1 Hj2; [|by apply Hfill];
              first [ by (exists r'; apply Hkeep)
                    | by (apply lookup_lt_is_Some_2 in Hj1; rewrite Hslot in Hj1; destruct Hj1)
                    | by (apply lookup_lt_is_Some_2 in Hj2; rewrite Hout in Hj2; destruct Hj2) ]).
    apply IH in Hrun as (Hlen & Hown' & Hkeep & Hfill).
    + rewrite length_insert in Hlen. repeat split; try done.
      * intros j r' Hj. apply Hkeep. destruct (decide (i = j)) as [->|Hne].
        -- congruence.
        -- by rewrite list_lookup_insert_ne.
      * intros j [->|Hj]%elem_of_cons Hj1 Hj2.
        -- exists r. apply Hkeep. apply list_lookup_insert_eq. by eapply lookup_lt_Some.
        -- apply Hfill; [done| by rewrite length_insert | done].
    + intros j r' Hj. destruct (decide (i = j)) as [->|Hne].
      * rewrite list_lookup_insert_eq in Hj by (by eapply lookup_lt_Some). congruence.
      * rewrite list_lookup_insert_ne in Hj by done. by apply Hown.
Qed.

Lemma gather_wait_raises outcomes order slots log log' e :
  gather_wait outcomes order slots log = (log', inl e) →
  ∃ i, i ∈ order ∧ outcomes !! i = Some (inl e).
Proof.
  revert slots log. induction order as [|i order IH]; intros slots log Hrun; simpl in Hrun.
  - discriminate.
  - destruct (outcomes !! i) as [[e'|r]|] eqn:Hout; destruct (slots !! i) as [[r'|]|] eqn:Hslot;
      try (apply IH in Hrun as (j & Hj & Hje); exists j; split; [by right|done]).
    injection Hrun as _ <-. exists i. split; [by left|done].
Qed.

Lemma gather_wait_failure outcomes order slots log k e :
  outcomes !! k = Some (inl e) → slots !! k = Some None → k ∈ order →
  ∃ log' e', gather_wait outcomes order slots log = (log', inl e').
Proof.
  intros Hk. revert slots log.
  induction order as [|i order IH]; intros slots log Hslot Hin; simpl.
  - by apply elem_of_nil in Hin.
  - destruct (decide (i = k)) as [->|Hne].
    { rewrite Hk, Hslot. eauto. }
    apply elem_of_cons in Hin as [->|Hin]; [done|].
    destruct (outcomes !! i) as [[e'|r]|] eqn:Hout; destruct (slots !! i) as [[r'|]|] eqn:Hsl;
      eauto.
    apply IH; [|done]. by rewrite list_lookup_insert_ne.
Qed.
End FanOutFacts.

Section GatherFacts.
Context {R : Type}.
Implicit Types (unit : Analyst -> Exc + R) (l : list Analyst) (rs : list R).

Lemma filled_slots (slots : list (option R)) :
  (∀ i, i < length slots → ∃ r, slots !! i = Some (Some r)) →
  Some <$> omap id slots = slots.
Proof.
  induction slots as [|s slots IH]; intros Hfull; [done|].
  destruct (Hfull 0) as [r Hr]; [simpl; lia|]. simpl in Hr. injection Hr as ->.
  simpl. f_equal. apply IH. intros i Hi. apply (Hfull (S i)). simpl. lia.
Qed.

Lemma gather_returned unit l order rs :
  (gather unit l order).2 = inr rs → Forall2 (fun a r => unit a = inr r) l rs.
Proof.
  unfold gather.
  destruct (gather_wait _ _ _ _) as [log [e|slots']] eqn:Hrun; [discriminate|].
  simpl. intros [= <-].
  apply gather_wait_returns in Hrun as (Hlen & Hown & _ & Hfill).
  2: { intros i r Hi. apply lookup_replicate in Hi as [? _]. done. }
  rewrite length_replicate in Hlen.
  assert (Hfull : ∀ i, i < length slots' → ∃ r, slots' !! i = Some (Some r)).
  { intros i Hi. rewrite Hlen in Hi. apply Hfill.
    - apply elem_of_app. right. apply elem_of_seq. lia.
    - by rewrite length_replicate.
    - by rewrite length_fmap. }
  apply filled_slots in Hfull.
  apply Forall2_same_length_lookup. split.
  { rewrite <- Hlen, <- Hfull at 1. by rewrite length_fmap. }
  intros i a r Ha Hr.
  assert (slots' !! i = Some (Some r)) as Hs.
  { rewrite <- Hfull. by rewrite list_lookup_fmap, Hr. }
  apply Hown in Hs. rewrite list_lookup_fmap, Ha in Hs. simpl in Hs. congruence.
Qed.

Lemma gather_raised unit l order e :
  (gather unit l order).2 = inl e → ∃ a, a ∈ l ∧ unit a = inl e.
Proof.
  unfold gather.
  destruct (gather_wait _ _ _ _) as [log [e'|slots']] eqn:Hrun; [|discriminate].
  simpl. intros [= <-].
  apply gather_wait_raises in Hrun as (i & _ & Hi).
  rewrite list_lookup_fmap in Hi.
  destruct (l !! i) as [a|] eqn:Ha; [|discriminate]. simpl in Hi.
  exists a. split; [by eapply list_elem_of_lookup_2|congruence].
Qed.

Lemma Forall2_results_unique unit l rs rs' :
  Forall2 (fun a r => unit a = inr r) l rs →
  Forall2 (fun a r => unit a = inr r) l rs' → rs = rs'.
Proof.
  intros Hrs. revert rs'. induction Hrs as [|a r l rs Ha _ IH]; intros rs' Hrs'.
  - by inversion Hrs'.
  - inversion Hrs' as [|? r' ? rs'' Ha' Hrest]; subst. f_equal; [congruence|by apply IH].
Qed.

Lemma gather_all unit l order rs :
  Forall2 (fun a r => unit a = inr r) l rs → (gather unit l order).2 = inr rs.
Proof.
  intros Hrs. destruct (gather unit l order).2 as [e|rs'] eqn:Hg.
  - apply gather_raised in Hg as (a & Ha & Hfail).
    apply list_elem_of_lookup in Ha as [i Hi].
    destruct (Forall2_lookup_l _ _ _ _ _ Hrs Hi) as (r & _ & Hr). congruence.
  - apply gather_returned in Hg. f_equal. by eapply Forall2_results_unique.
Qed.

Lemma gather_one_fails unit l order a e :
  a ∈ l → unit a = inl e → ∃ e', (gather unit l order).2 = inl e'.
Proof.
  intros Ha Hfail. destruct (gather unit l order).2 as [e'|rs] eqn:Hg; [by eauto|].
  apply gather_returned in Hg. apply list_elem_of_lookup in Ha as [i Hi].
  destruct (Forall2_lookup_l _ _ _ _ _ Hg Hi) as (r & _ & Hr). congruence.
Qed.

(** The list a [gather] returns does not depend on the order in which its
    children finish. *)
Lemma gather_order_irrelevant unit l order order' rs :
  (gather unit l order).2 = inr rs → (gather unit l order').2 = inr rs.
Proof. intros Hrs. by apply gather_all, (gather_returned unit l order). Qed.

Lemma await_each_returned unit l rs :
  (await_each unit l 0 [] []).2 = inr rs → Forall2 (fun a r => unit a = inr r) l rs.
Proof.
  intros Hret.
  destruct (await_each_run unit l 0 [] []) as (k & tail & _ & Hres).
  destruct Hres as [(_ & _ & rs' & Hrs & Heq) | (_ & _ & a & e & _ & _ & Heq)];
    rewrite Heq in Hret; [|discriminate].
  injection Hret as <-. done.
Qed.

Lemma await_each_all unit l rs :
  Forall2 (fun a r => unit a = inr r) l rs → (await_each unit l 0 [] []).2 = inr rs.
Proof.
  intros Hrs.
  destruct (await_each_run unit l 0 [] []) as (k & tail & _ & Hres).
  destruct Hres as [(_ & _ & rs' & Hrs' & Heq) | (_ & _ & a & e & Hk & Hfail & Heq)].
  - rewrite Heq. f_equal. by eapply Forall2_results_unique.
  - destruct (Forall2_lookup_l _ _ _ _ _ Hrs Hk) as (r & _ & Hr). congruence.
Qed.

Lemma await_each_one_fails unit l a e :
  a ∈ l → unit a = inl e → ∃ e', (await_each unit l 0 [] []).2 = inl e'.
Proof.
  intros Ha Hfail. destruct (await_each unit l 0 [] []).2 as [e'|rs] eqn:Hg; [by eauto|].
  apply await_each_returned in Hg. apply list_elem_of_lookup in Ha as [i Hi].
  destruct (Forall2_lookup_l _ _ _ _ _ Hg Hi) as (r & _ & Hr). congruence.
Qed.
End GatherFacts.

Section ConductInterviews.
Context `{Collaborators}.

Lemma single_interview_analyst a turns r :
  _conduct_single_interview a turns = inr r → analyst r = a.
Proof.
  unfold _conduct_single_interview.
  destruct (run_interview_team a turns) as [e|content]; [discriminate|].
  destruct (run_section_team a content) as [e|section]; [discriminate|].
  by intros [= <-].
Qed.

Lemma conduct_interviews_eq l task :
  _conduct_interviews l task =
    let unit a := _conduct_single_interview a (max_interview_turns task) in
    if parallel_interviews task
    then (gather unit l (completion_order l)).2
    else (await_each unit l 0 [] []).2.
Proof.
  unfold _conduct_interviews, _conduct_interviews_log. simpl.
  destruct (parallel_interviews task); [|done].
  by destruct (gather _ l (completion_order l)) as [log [e|rs]].
Qed.

Lemma conduct_interviews_returned l task rs :
  _conduct_interviews l task = inr rs →
  Forall2 (fun a r => _conduct_single_interview a (max_interview_turns task) = inr r) l rs.
Proof.
  rewrite conduct_interviews_eq. simpl. destruct (parallel_interviews task).
  - apply gather_returned.
  - apply await_each_returned.
Qed.

Lemma conduct_interviews_all l task rs :
  Forall2 (fun a r => _conduct_single_interview a (max_interview_turns task) = inr r) l rs →
  _conduct_interviews l task = inr rs.
Proof.
  rewrite conduct_interviews_eq. simpl. destruct (parallel_interviews task).
  - apply gather_all.
  - apply await_each_all.
Qed.

(** C1 (as the code has it): in both modes, when the interview of one analyst
    of the list raises, [_conduct_interviews] raises too, the exception of
    one of the failing units; it returns no list, so no slot holds a result
    with an error marker.  A list is returned exactly when every unit
    returns, and then it has the length of the list of analysts. *)
Theorem fan_out_unit_failure_aborts l task :
  (∀ a e,
     a ∈ l →
     _conduct_single_interview a (max_interview_turns task) = inl e →
     ∃ a' e', a' ∈ l ∧
       _conduct_single_interview a' (max_interview_turns task) = inl e' ∧
       _conduct_interviews l task = inl e') ∧
  (∀ rs,
     _conduct_interviews l task = inr rs ↔
     Forall2 (fun a r => _conduct_single_interview a (max_interview_turns task) = inr r) l rs) ∧
  (∀ rs, _conduct_interviews l task = inr rs → length rs = length l).
Proof.
  split; [|split].
  - intros a e Ha Hfail.
    destruct (_conduct_interviews l task) as [e'|rs] eqn:Hrun.
    + revert Hrun. rewrite conduct_interviews_eq. simpl.
      destruct (parallel_interviews task); intros Hrun.
      * apply gather_raised in Hrun as (a' & Ha' & Hfail'). by exists a', e'.
      * destruct (await_each_run
                    (fun a => _conduct_single_interview a (max_interview_turns task))
                    l 0 [] []) as (k & tail & _ & Hres).
        destruct Hres as [(_ & _ & rs & _ & Heq) | (_ & _ & a' & e'' & Hk & Hfail' & Heq)];
          rewrite Heq in Hrun; [discriminate|].
        injection Hrun as ->. exists a', e'. split; [by eapply list_elem_of_lookup_2|done].
    + apply conduct_interviews_returned in Hrun.
      apply list_elem_of_lookup in Ha as [i Hi].
      destruct (Forall2_lookup_l _ _ _ _ _ Hrun Hi) as (r & _ & Hr). congruence.
  - intros rs. split; [apply conduct_interviews_returned | apply conduct_interviews_all].
  - intros rs Hrs. apply conduct_interviews_returned in Hrs.
    symmetry. by eapply Forall2_length.
Qed.

(** C6: without [parallel_interviews] the units run in input order, one
    starting only after the one before it returned (and none after one that
    raised); in both modes a returned list has one result per analyst, at
    the analyst's index, whatever the order in which the units finish, and a
    list is returned whenever every unit returns. *)
Theorem fan_out_order l task :
  (parallel_interviews task = false →
   ∃ k tail,
     (_conduct_interviews_log l task).1 = (seq 0 k ≫= ran) ++ tail ∧
     (tail = [] ∧ k = length l ∨ tail = [Started k; Raised k] ∧ k < length l)) ∧
  (∀ rs, _conduct_interviews l task = inr rs → analyst <$> rs = l) ∧
  (∀ rs,
     Forall2 (fun a r => _conduct_single_interview a (max_interview_turns task) = inr r) l rs →
     _conduct_interviews l task = inr rs).
Proof.
  split; [|split].
  - intros Hseq. unfold _conduct_interviews_log. rewrite Hseq.
    destruct (await_each_run
                (fun a => _conduct_single_interview a (max_interview_turns task))
                l 0 [] []) as (k & tail & Hlog & Hres).
    exists k, tail. split; [done|].
    destruct Hres as [(-> & -> & _) | (Hk & -> & _)]; [by left | by right].
  - intros rs Hrs. apply conduct_interviews_returned in Hrs.
    induction Hrs as [|a r l rs Ha _ IH]; [done|].
    simpl. f_equal; [by eapply single_interview_analyst | done].
  - apply conduct_interviews_all.
Qed.
End ConductInterviews.

Lemma fan_out_unit_failure_aborts_witness :
  (∃ a' e', a' ∈ three_analysts ∧
     @_conduct_single_interview (scripted ["a2"] [2; 0; 1]) a' 3 = inl e' ∧
     @_conduct_interviews (scripted ["a2"] [2; 0; 1]) three_analysts (example_task true)
       = inl e') ∧
  Forall2 (fun a r => @_conduct_single_interview (scripted [] [2; 0; 1]) a 3 = inr r)
    [analyst_named "a1"]
    [ {| analyst := analyst_named "a1"; interview_content := "interview with a1";
         section_content := "section by a1" |} ] ∧
  length [ {| analyst := analyst_named "a1"; interview_content := "interview with a1";
              section_content := "section by a1" |} ] = length [analyst_named "a1"].
Proof.
  pose proof (@fan_out_unit_failure_aborts (scripted ["a2"] [2; 0; 1])
                three_analysts (example_task true)) as (Hfail & _ & _).
  pose proof (@fan_out_unit_failure_aborts (scripted [] [2; 0; 1])
                [analyst_named "a1"] (example_task true)) as (_ & Hiff & Hlen).
  split; [|split].
  - apply (Hfail (analyst_named "a2") (CollaboratorError "a2")).
    + unfold three_analysts. apply elem_of_cons. right. apply elem_of_cons. by left.
    + reflexivity.
  - apply (proj1 (Hiff _)). vm_compute. reflexivity.
  - apply Hlen. vm_compute. reflexivity.
Defined.

(** C1, counterexample: analysts a1, a2, a3, the unit of a2 raises.  No list
    of three results comes back, in either mode: the stage raises the
    exception of a2. *)
Lemma fan_out_a2_raises :
  @_conduct_interviews (scripted ["a2"] [2; 0; 1]) three_analysts (example_task true)
    = inl (CollaboratorError "a2") ∧
  @_conduct_interviews (scripted ["a2"] [2; 0; 1]) three_analysts (example_task false)
    = inl (CollaboratorError "a2").
Proof. split; vm_compute; reflexivity. Qed.

Lemma fan_out_order_witness :
  (∃ k tail,
     (@_conduct_interviews_log (scripted [] [2; 0; 1]) three_analysts (example_task false)).1
       = (seq 0 k ≫= ran) ++ tail ∧
     (tail = [] ∧ k = length three_analysts ∨
      tail = [Started k; Raised k] ∧ k < length three_analysts)) ∧
  (@_conduct_interviews_log (scripted [] [2; 0; 1]) three_analysts (example_task true)).1
    = [Started 0; Started 1; Started 2; Finished 2; Finished 0; Finished 1] ∧
  analyst <$> [ {| analyst := analyst_named "a1"; interview_content := "interview with a1";
                   section_content := "section by a1" |};
                {| analyst := analyst_named "a2"; interview_content := "interview with a2";
                   section_content := "section by a2" |};
                {| analyst := analyst_named "a3"; interview_content := "interview with a3";
                   section_content := "section by a3" |} ] = three_analysts ∧
  @_conduct_interviews (scripted [] [2; 0; 1]) [analyst_named "a1"] (example_task true)
    = inr [ {| analyst := analyst_named "a1"; interview_content := "interview with a1";
               section_content := "section by a1" |} ].
Proof.
  pose proof (@fan_out_order (scripted [] [2; 0; 1]) three_analysts (example_task false))
    as (Hseq & _ & _).
  pose proof (@fan_out_order (scripted [] [2; 0; 1]) three_analysts (example_task true))
    as (_ & Haligned & _).
  pose proof (@fan_out_order (scripted [] [2; 0; 1]) [analyst_named "a1"] (example_task true))
    as (_ & _ & Hall).
  split; [by apply Hseq|]. split; [by vm_compute|].
  split; [apply Haligned; by vm_compute|].
  apply Hall. by repeat constructor.
Defined.

(** ** The older fan-out keeps a slot for every unit *)

Section StormResearchFacts.
Variable run : Editor -> string -> Exc + list string.

Lemma conduct_single_interview_notice editor topic e :
  run editor topic = inl e → is_Exception e = true →
  conduct_single_interview run editor topic = inr [InterviewError (editor_name editor)].
Proof. intros Hrun He. unfold conduct_single_interview. by rewrite Hrun, He. Qed.

Lemma await_tasks_all_returned (tasks : list (string * (Exc + list Line)))
    (results : gmap string (list Line)) :
  Forall (fun task => ∃ v, task.2 = inr v ∧ v ≠ []) tasks →
  map_Forall (fun _ v => v ≠ []) results →
  ∃ results',
    await_tasks tasks results = inr results' ∧
    map_Forall (fun _ v => v ≠ []) results' ∧
    (∀ name, is_Some (results !! name) → is_Some (results' !! name)) ∧
    (∀ task, task ∈ tasks → is_Some (results' !! task.1)).
Proof.
  intros Htasks. revert results.
  induction Htasks as [|[name outcome] tasks (v & Hv & Hne) _ IH]; intros results Hres; simpl.
  - exists results. repeat split; try done. intros task Htask. by apply elem_of_nil in Htask.
  - simpl in Hv. subst outcome.
    destruct (IH (<[name := v]> results)) as (results' & Hrun & Hne' & Hkeep & Hall).
    { by apply map_Forall_insert_2. }
    exists results'. repeat split; try done.
    + intros name' Hname'. apply Hkeep.
      destruct (decide (name = name')) as [->|?].
      * rewrite lookup_insert_eq. eauto.
      * by rewrite lookup_insert_ne.
    + intros task [->|Htask]%elem_of_cons; [|by apply Hall].
      simpl. apply Hkeep. rewrite lookup_insert_eq. eauto.
Qed.

(** The fan-out of storm_research.py: as long as no interview is cancelled
    and no conversation is empty, a unit that raises does not stop the stage,
    and the stage returns an entry for every editor. *)
Lemma older_fan_out_keeps_every_slot editors topic :
  (∀ editor e, run editor topic = inl e → is_Exception e = true) →
  (∀ editor, run editor topic ≠ inr []) →
  ∃ results,
    conduct_all_interviews_parallel run editors topic = inr results ∧
    ∀ editor, editor ∈ editors → is_Some (results !! editor_name editor).
Proof.
  intros Hexc Hnonempty. unfold conduct_all_interviews_parallel.
  destruct (await_tasks_all_returned
              ((fun editor => (editor_name editor, conduct_single_interview run editor topic))
                 <$> editors) ∅) as (results & Hrun & Hne & _ & Hall).
  - apply Forall_fmap, Forall_forall. intros editor _. simpl.
    unfold conduct_single_interview.
    destruct (run editor topic) as [e|conversation] eqn:Hr.
    + rewrite (Hexc _ _ Hr). by eexists.
    + eexists. split; [done|]. destruct conversation; [|done]. by destruct (Hnonempty editor).
  - apply map_Forall_empty.
  - exists results. rewrite Hrun, bool_decide_eq_true_2 by done. split; [done|].
    intros editor Hin.
    apply (Hall (editor_name editor, conduct_single_interview run editor topic)).
    apply list_elem_of_fmap. by exists editor.
Qed.
End StormResearchFacts.

Section StormResearchEntries.
Variable run : Editor -> string -> Exc + list string.

(** What the tasks awaited one after the other leave in the dictionary when
    none of them raises and no two have the same name: the entries there
    were, and for every task its own result. *)
Lemma await_tasks_entries (tasks : list (string * (Exc + list Line)))
    (results : gmap string (list Line)) :
  NoDup tasks.*1 →
  Forall (fun task => ∃ v, task.2 = inr v) tasks →
  ∃ results',
    await_tasks tasks results = inr results' ∧
    (∀ name v, (name, inr v) ∈ tasks → results' !! name = Some v) ∧
    (∀ name, name ∉ tasks.*1 → results' !! name = results !! name).
Proof.
  intros Hnames Htasks. revert results Hnames.
  induction Htasks as [|[name outcome] tasks (v & Hv) _ IH]; intros results Hnames; simpl.
  - exists results. split; [done|]. split; [|done].
    intros name v Hin. by apply elem_of_nil in Hin.
  - simpl in Hv. subst outcome. rewrite fmap_cons in Hnames. simpl in Hnames.
    apply NoDup_cons in Hnames as [Hfresh Hnames].
    destruct (IH (<[name := v]> results) Hnames) as (results' & Hrun & Hown & Hother).
    exists results'. split; [done|]. split.
    + intros name' v' [[= -> ->]|Hin]%elem_of_cons; [|by apply Hown].
      rewrite (Hother _ Hfresh). apply lookup_insert_eq.
    + intros name' [Hne Hnot]%not_elem_of_cons.
      rewrite (Hother _ Hnot). by apply lookup_insert_ne.
Qed.

(** X23: the fan-out of storm_research.py, for editors with different names,
    as long as no interview is cancelled and no conversation is empty: a unit
    that raises does not stop the stage; the stage returns the dictionary
    that has, for every editor, the transcript of its interview or, if the
    interview raised, the notice that names the editor, and that has no
    other entry. *)
Theorem older_fan_out_entries editors topic :
  NoDup (editor_name <$> editors) →
  (∀ editor e, editor ∈ editors → run editor topic = inl e → is_Exception e = true) →
  (∀ editor, editor ∈ editors → run editor topic ≠ inr []) →
  ∃ results,
    conduct_all_interviews_parallel run editors topic = inr results ∧
    (∀ editor, editor ∈ editors →
       results !! editor_name editor
         = Some (match run editor topic with
                 | inr conversation => Said <$> conversation
                 | inl _ => [InterviewError (editor_name editor)]
                 end)) ∧
    (∀ name, is_Some (results !! name) → name ∈ editor_name <$> editors).
Proof.
  intros Hnames Hexc Hnonempty. unfold conduct_all_interviews_parallel.
  set (tasks := (fun editor => (editor_name editor, conduct_single_interview run editor topic))
                  <$> editors).
  assert (tasks.*1 = editor_name <$> editors) as Hfst.
  { unfold tasks. rewrite <- list_fmap_compose. done. }
  assert (∀ editor, editor ∈ editors →
            conduct_single_interview run editor topic
              = inr (match run editor topic with
                     | inr conversation => Said <$> conversation
                     | inl _ => [InterviewError (editor_name editor)]
                     end)) as Hsingle.
  { intros editor Hin. unfold conduct_single_interview.
    destruct (run editor topic) as [e|conversation] eqn:Hr; [|done].
    by rewrite (Hexc _ _ Hin Hr). }
  destruct (await_tasks_entries tasks ∅) as (results & Hrun & Hown & Hother).
  { by rewrite Hfst. }
  { apply Forall_fmap, Forall_forall. intros editor Hin. simpl.
    rewrite (Hsingle _ Hin). by eexists. }
  assert (∀ editor, editor ∈ editors →
            results !! editor_name editor
              = Some (match run editor topic with
                      | inr conversation => Said <$> conversation
                      | inl _ => [InterviewError (editor_name editor)]
                      end)) as Hentries.
  { intros editor Hin. apply Hown. apply list_elem_of_fmap.
    exists editor. by rewrite (Hsingle _ Hin). }
  assert (∀ name, is_Some (results !! name) → name ∈ editor_name <$> editors) as Hdom.
  { intros name Hsome. destruct (decide (name ∈ tasks.*1)) as [Hin|Hnot].
    - by rewrite <- Hfst.
    - rewrite (Hother _ Hnot), lookup_empty in Hsome. by destruct Hsome. }
  exists results. rewrite Hrun, bool_decide_eq_true_2; [done|].
  intros name v Hv ->.
  assert (name ∈ editor_name <$> editors) as Hname by (apply Hdom; by eexists).
  apply list_elem_of_fmap in Hname as (editor & -> & Hin).
  rewrite (Hentries _ Hin) in Hv. injection Hv as Hv.
  destruct (run editor topic) as [e|conversation] eqn:Hr; [done|].
  destruct conversation; [|done]. by apply (Hnonempty editor).
Qed.
End StormResearchEntries.

(** ** The pending requests *)

(** C2, counterexample: while the first Ask for ("s", analyst_count) is
    outstanding, a second one raises nothing; it takes the slot of the first
    in [pending_responses], receives the operator's answer and returns it,
    and the future of the first Ask is left pending. *)
Lemma second_ask_takes_the_slot :
  let w := {| inbox := [Message 7 "s" ANALYST_COUNT {[ "count" := JInt 4 ]}];
              sent := []; globals := first_ask_outstanding;
              workflow := StormWorkflow_init |} in
  pending_responses (globals w) !! response_key "s" ANALYST_COUNT = Some 0 ∧
  futures (globals w) !! 0 = Some FutPending ∧
  (wait_for_response_register "s" ANALYST_COUNT (globals w)).1 = 1 ∧
  pending_responses (wait_for_response_register "s" ANALYST_COUNT (globals w)).2
    !! response_key "s" ANALYST_COUNT = Some 1 ∧
  ∃ w', wait_for_response "s" ANALYST_COUNT w = Some (w', inr {[ "count" := JInt 4 ]}) ∧
        futures (globals w') !! 0 = Some FutPending.
Proof.
  repeat split; try by vm_compute.
  eexists. split; [by vm_compute|]. by vm_compute.
Qed.

Lemma resolve_pending future state g :
  futures g !! future = Some FutPending →
  futures (resolve future state g) = <[future := state]> (futures g).
Proof. intros Hf. unfold resolve, done. by rewrite Hf. Qed.

(** C2 (as the code has it): while an Ask for a key is outstanding, a second
    Ask for the same key is registered without any check: it gets a future
    of its own, which replaces the first one in [pending_responses]; the
    first future stays as it was, and the next message for the key resolves
    the second future and not the first. *)
Theorem second_ask_replaces_first g session_id t first :
  pending_responses g !! response_key session_id t = Some first →
  futures g !! first = Some FutPending →
  ∃ second g',
    wait_for_response_register session_id t g = (second, g') ∧
    second ≠ first ∧
    pending_responses g' !! response_key session_id t = Some second ∧
    futures g' !! second = Some FutPending ∧
    futures g' !! first = Some FutPending ∧
    ∀ data,
      futures (on_message session_id t data g') !! second = Some (FutResult data) ∧
      futures (on_message session_id t data g') !! first = Some FutPending.
Proof.
  intros Hkey Hfirst.
  assert (first < length (futures g)) as Hlt by by eapply lookup_lt_Some.
  eexists _, _. split; [reflexivity|]. simpl.
  assert (Hsecond : (futures g ++ [FutPending]) !! length (futures g) = Some FutPending).
  { by rewrite lookup_app_r, Nat.sub_diag by lia. }
  assert (Hfirst' : (futures g ++ [FutPending]) !! first = Some FutPending).
  { by rewrite lookup_app_l. }
  repeat split; try done; try lia.
  - by rewrite lookup_insert_eq.
  - unfold on_message. simpl. rewrite lookup_insert_eq.
    rewrite resolve_pending by done. simpl.
    apply list_lookup_insert_eq. rewrite length_app. simpl. lia.
  - unfold on_message. simpl. rewrite lookup_insert_eq.
    rewrite resolve_pending by done. simpl.
    rewrite list_lookup_insert_ne by lia. done.
Qed.

Lemma second_ask_replaces_first_witness :
  ∃ second g',
    wait_for_response_register "s" ANALYST_COUNT first_ask_outstanding = (second, g') ∧
    second ≠ 0 ∧
    pending_responses g' !! response_key "s" ANALYST_COUNT = Some second ∧
    futures g' !! second = Some FutPending ∧
    futures g' !! 0 = Some FutPending ∧
    ∀ data,
      futures (on_message "s" ANALYST_COUNT data g') !! second = Some (FutResult data) ∧
      futures (on_message "s" ANALYST_COUNT data g') !! 0 = Some FutPending.
Proof.
  apply (second_ask_replaces_first first_ask_outstanding "s" ANALYST_COUNT 0).
  - by vm_compute.
  - reflexivity.
Defined.

(** C3 (as the code has it): session "s1" goes away while session "s10" waits
    for an answer.  The key of "s10" starts with "s1", so the handler of the
    disconnect removes that request and cancels its future, and the Ask of
    "s10" ends in [CancelledError] although "s10" is still connected and its
    operator answers later. *)
Theorem disconnect_cancels_longer_named_session :
  pending_responses two_sessions !! response_key "s10" ANALYST_COUNT = Some 0 ∧
  futures two_sessions !! 0 = Some FutPending ∧
  pending_responses (on_disconnect "s1" two_sessions)
    !! response_key "s10" ANALYST_COUNT = None ∧
  futures (on_disconnect "s1" two_sessions) !! 0 = Some FutCancelled ∧
  "s10" ∈ active_connections (on_disconnect "s1" two_sessions) ∧
  ∃ w',
    wait_for_response "s10" ANALYST_COUNT
      {| inbox := [Disconnect 5 "s1"; Message 5 "s10" ANALYST_COUNT {[ "count" := JInt 4 ]}];
         sent := [];
         globals := on_connect "s10" (on_connect "s1" Globals_init);
         workflow := StormWorkflow_init |}
    = Some (w', inl CancelledError).
Proof.
  repeat split; try by vm_compute.
  eexists. by vm_compute.
Qed.

(** ** What a disconnect does to the pending requests *)

Lemma pending_or_done g future :
  futures g !! future = Some FutPending ∨ futures g !! future ≠ Some FutPending.
Proof. destruct (futures g !! future) as [[| |]|]; auto. Qed.

Lemma resolve_lookup_pending future state g fut :
  futures g !! future = Some FutPending →
  futures (resolve future state g) !! fut =
    if decide (fut = future) then Some state else futures g !! fut.
Proof.
  intros Hf. rewrite resolve_pending by done.
  destruct (decide (fut = future)) as [->|Hne].
  - apply list_lookup_insert_eq. by eapply lookup_lt_Some.
  - by apply list_lookup_insert_ne.
Qed.

Lemma resolve_done future state g :
  futures g !! future ≠ Some FutPending → futures (resolve future state g) = futures g.
Proof.
  intros Hf. unfold resolve, done. simpl.
  by destruct (futures g !! future) as [[| |]|].
Qed.

Lemma on_disconnect_fold session_id g :
  let g' := on_disconnect session_id g in
  (∀ key, pending_responses g' !! key =
            if startswith key session_id then None else pending_responses g !! key) ∧
  active_connections g' = active_connections g ∖ {[session_id]} ∧
  (∀ key fut, pending_responses g !! key = Some fut → startswith key session_id = true →
              futures g !! fut = Some FutPending → futures g' !! fut = Some FutCancelled) ∧
  (∀ fut, (∀ key, pending_responses g !! key = Some fut → startswith key session_id = false) →
          futures g' !! fut = futures g !! fut).
Proof.
  unfold on_disconnect.
  set (g0 := {| futures := futures g;
                active_connections := active_connections g ∖ {[session_id]};
                pending_responses := pending_responses g |}).
  pose (P := fun (r : Globals) (m : gmap string nat) =>
    (∀ key, pending_responses r !! key =
              match m !! key with
              | Some _ => if startswith key session_id then None
                          else pending_responses g !! key
              | None => pending_responses g !! key
              end) ∧
    active_connections r = active_connections g ∖ {[session_id]} ∧
    (∀ key fut, m !! key = Some fut → startswith key session_id = true →
                futures g !! fut = Some FutPending → futures r !! fut = Some FutCancelled) ∧
    (∀ fut, (∀ key, m !! key = Some fut → startswith key session_id = false) →
            futures r !! fut = futures g !! fut) ∧
    (∀ fut, futures r !! fut = futures g !! fut ∨
            (futures g !! fut = Some FutPending ∧ futures r !! fut = Some FutCancelled))).
  assert (P (map_fold (disconnect_step session_id) g0 (pending_responses g))
            (pending_responses g)) as (Hpending & Hactive & Hcancel & Hspare & _).
  { apply (map_fold_weak_ind P).
    - repeat split; try done. intros fut. by left.
    - intros i x m r Hi (Hpending & Hactive & Hcancel & Hspare & Hstate).
      unfold disconnect_step. destruct (startswith i session_id) eqn:Hprefix.
      + repeat split.
        * intros key. simpl. destruct (decide (i = key)) as [->|Hne].
          -- by rewrite lookup_delete_eq, lookup_insert_eq, Hprefix.
          -- rewrite lookup_delete_ne, lookup_insert_ne by done. apply Hpending.
        * done.
        * intros key fut Hkey Hpre Hfut.
          destruct (pending_or_done (pop_pending i r) x) as [Hx|Hx].
          -- rewrite resolve_lookup_pending by done. case_decide as Hd; [done|]. simpl.
             destruct (decide (i = key)) as [->|Hne].
             ++ rewrite lookup_insert_eq in Hkey. congruence.
             ++ rewrite lookup_insert_ne in Hkey by done. by eapply Hcancel.
          -- rewrite resolve_done by done. simpl in *.
             destruct (decide (i = key)) as [->|Hne].
             ++ rewrite lookup_insert_eq in Hkey. injection Hkey as ->.
                destruct (Hstate fut) as [Heq|[_ Hc]]; [|done]. congruence.
             ++ rewrite lookup_insert_ne in Hkey by done. by eapply Hcancel.
        * intros fut Hfut.
          assert (fut ≠ x) as Hne.
          { intros ->. specialize (Hfut i). rewrite lookup_insert_eq in Hfut.
            specialize (Hfut eq_refl). congruence. }
          assert (futures r !! fut = futures g !! fut) as <-.
          { apply Hspare. intros key Hkey. apply Hfut.
            rewrite lookup_insert_ne; [done|]. intros ->. congruence. }
          destruct (pending_or_done (pop_pending i r) x) as [Hx|Hx].
          -- rewrite resolve_lookup_pending by done. by rewrite decide_False.
          -- by rewrite resolve_done.
        * intros fut.
          destruct (pending_or_done (pop_pending i r) x) as [Hx|Hx].
          -- rewrite resolve_lookup_pending by done. case_decide as Hd; [|apply Hstate].
             subst fut. right. split; [|done]. simpl in Hx.
             destruct (Hstate x) as [Heq|[Hp Hc]]; congruence.
          -- rewrite resolve_done by done. apply Hstate.
      + repeat split; try done.
        * intros key. destruct (decide (i = key)) as [->|Hne].
          -- rewrite lookup_insert_eq, Hprefix. rewrite Hpending, Hi. done.
          -- rewrite lookup_insert_ne by done. apply Hpending.
        * intros key fut Hkey Hpre Hfut. destruct (decide (i = key)) as [->|Hne].
          -- congruence.
          -- rewrite lookup_insert_ne in Hkey by done. by eapply Hcancel.
        * intros fut Hfut. apply Hspare. intros key Hkey. apply Hfut.
          rewrite lookup_insert_ne; [done|]. intros ->. congruence. }
  simpl. repeat split; try done.
  intros key. rewrite Hpending.
  destruct (pending_responses g !! key); [done|]. by destruct (startswith key session_id).
Qed.

Lemma prefix_append (s rest : string) : String.prefix s (s +:+ rest) = true.
Proof.
  induction s as [|c s IH]; simpl.
  - by destruct rest.
  - destruct (Ascii.ascii_dec c c); [done|congruence].
Qed.

Lemma startswith_own_key session_id t : startswith (response_key session_id t) session_id = true.
Proof. unfold startswith, response_key. apply prefix_append. Qed.

(** X6: what a disconnect does to the requests of the session and to those
    with unrelated keys: it removes every pending request of that session and
    cancels its future; a request whose key does not start with the session's
    identifier stays, and so does its future unless a removed request shares
    it. *)
Lemma disconnect_own_and_unrelated session_id g :
  (∀ t fut,
     pending_responses g !! response_key session_id t = Some fut →
     futures g !! fut = Some FutPending →
     pending_responses (on_disconnect session_id g) !! response_key session_id t = None ∧
     futures (on_disconnect session_id g) !! fut = Some FutCancelled) ∧
  (∀ key,
     startswith key session_id = false →
     pending_responses (on_disconnect session_id g) !! key = pending_responses g !! key) ∧
  (∀ fut,
     (∀ key, pending_responses g !! key = Some fut → startswith key session_id = false) →
     futures (on_disconnect session_id g) !! fut = futures g !! fut).
Proof.
  destruct (on_disconnect_fold session_id g) as (Hpending & _ & Hcancel & Hspare).
  repeat split.
  - by rewrite Hpending, startswith_own_key.
  - eapply Hcancel; [done| apply startswith_own_key | done].
  - intros key Hkey. by rewrite Hpending, Hkey.
  - done.
Qed.

(** ** The analyst count over the WebSocket *)

Section AnalystCount.
Context `{Collaborators}.
Variable session_id : string.

Lemma get_analyst_count_run default_count w :
  get_analyst_count session_id default_count w =
    let '(future, g1) := wait_for_response_register session_id ANALYST_COUNT (globals w) in
    let '(inbox', g2, awaited) := wait_for future 300 (inbox w) g1 in
    Some ({| inbox := inbox';
             sent := sent w ++ [AnalystCountRequest default_count];
             globals := pop_pending (response_key session_id ANALYST_COUNT) g2;
             workflow := workflow w |},
          match awaited with
          | Resolved response => inr (py_get response "count" default_count)
          | TimeoutError => inl (HTTPException 408)
          | Cancelled => inl CancelledError
          end).
Proof.
  unfold get_analyst_count, bind, send_json, modify, wait_for_response, ret. simpl.
  destruct (wait_for _ _ _ _) as [[inbox' g2] [response| |]]; reflexivity.
Qed.

Lemma research_steps_run task w :
  research_steps session_id task w =
    match get_analyst_count session_id (max_analysts task)
            {| inbox := inbox w; sent := sent w ++ [Progress research_starting];
               globals := globals w; workflow := workflow w |} with
    | None => None
    | Some (w1, inl e) => Some (w1, inl e)
    | Some (w1, inr analyst_count) => research_with_count session_id analyst_count task w1
    end.
Proof. reflexivity. Qed.

(** C4 (as the code has it): when the wait of the analyst-count Ask ends by
    its timer of 300 time units, [get_analyst_count] raises
    [HTTPException(408)]; [run_interactive_research] sends it as an error
    message and ends there: no collaborator is asked for anything, no result
    is sent, and the default count is not used. *)
Theorem analyst_count_timeout_ends_research task w :
  ask_ends session_id ANALYST_COUNT (inbox w) (globals w) = TimeoutError →
  (∃ w1, get_analyst_count session_id (max_analysts task) w
           = Some (w1, inl (HTTPException 408))) ∧
  ∃ w', run_interactive_research session_id task w = Some (w', inr ()) ∧
        sent w' = sent w ++ [Progress research_starting;
                             AnalystCountRequest (max_analysts task);
                             Error (HTTPException 408)] ∧
        workflow w' = workflow w.
Proof.
  unfold ask_ends. intros Hends. split.
  - rewrite get_analyst_count_run. simpl.
    destruct (wait_for _ _ _ _) as [[inbox' g2] awaited]. simpl in Hends. subst awaited.
    eauto.
  - unfold run_interactive_research. rewrite research_steps_run, get_analyst_count_run.
    simpl.
    destruct (wait_for _ _ _ _) as [[inbox' g2] awaited]. simpl in Hends. subst awaited.
    simpl. eexists. split; [reflexivity|]. simpl. by rewrite <- !app_assoc.
Qed.

(** C10: when the answer to the analyst-count Ask arrives in time and its
    data holds no "count", [get_analyst_count] returns the default count of
    the caller, and the research goes on with that count. *)
Theorem analyst_count_missing_field task w data :
  ask_ends session_id ANALYST_COUNT (inbox w) (globals w) = Resolved data →
  data !! "count" = None →
  (∃ w1, get_analyst_count session_id (max_analysts task) w
           = Some (w1, inr (max_analysts task))) ∧
  ∃ w1, sent w1 = sent w ++ [Progress research_starting;
                             AnalystCountRequest (max_analysts task)] ∧
        research_steps session_id task w
          = research_with_count session_id (max_analysts task) task w1.
Proof.
  unfold ask_ends. intros Hends Hcount. split.
  - rewrite get_analyst_count_run. simpl.
    destruct (wait_for _ _ _ _) as [[inbox' g2] awaited]. simpl in Hends. subst awaited.
    unfold py_get. rewrite Hcount. eauto.
  - rewrite research_steps_run, get_analyst_count_run. simpl.
    destruct (wait_for _ _ _ _) as [[inbox' g2] awaited]. simpl in Hends. subst awaited.
    unfold py_get. rewrite Hcount. eexists. split; [|reflexivity].
    simpl. by rewrite <- app_assoc.
Qed.

(** C5 (as the code has it): the count the operator sends is used as it is.
    Whatever integer [n] the answer holds, within 1..10 or not,
    [get_analyst_count] returns [n] and the research goes on with [n]. *)
Theorem analyst_count_unclamped task w data n :
  ask_ends session_id ANALYST_COUNT (inbox w) (globals w) = Resolved data →
  data !! "count" = Some (JInt n) →
  (∃ w1, get_analyst_count session_id (max_analysts task) w = Some (w1, inr (JInt n))) ∧
  ∃ w1, research_steps session_id task w
          = research_with_count session_id (JInt n) task w1.
Proof.
  unfold ask_ends. intros Hends Hcount. split.
  - rewrite get_analyst_count_run. simpl.
    destruct (wait_for _ _ _ _) as [[inbox' g2] awaited]. simpl in Hends. subst awaited.
    unfold py_get. rewrite Hcount. eauto.
  - rewrite research_steps_run, get_analyst_count_run. simpl.
    destruct (wait_for _ _ _ _) as [[inbox' g2] awaited]. simpl in Hends. subst awaited.
    unfold py_get. rewrite Hcount. eauto.
Qed.
End AnalystCount.

(** C4, counterexample: the operator never answers the analyst-count Ask.
    The research does not go on with the default count 2: the last message
    sent is the error of the timeout and there is no result. *)
Lemma silent_operator_ends_research :
  ∃ w',
    @run_interactive_research (scripted [] []) "s" (example_task true) (example_app [])
      = Some (w', inr ()) ∧
    sent w' = [Progress research_starting; AnalystCountRequest (JInt 2);
               Error (HTTPException 408)] ∧
    Forall (fun m => type_of m ≠ RESULT) (sent w').
Proof.
  eexists. split; [by vm_compute|]. split; [by vm_compute|].
  vm_compute. by repeat constructor.
Qed.

Lemma analyst_count_timeout_ends_research_witness :
  let w := example_app [Message 400 "s" ANALYST_COUNT {[ "count" := JInt 4 ]}] in
  (∃ w1, @get_analyst_count "s" (JInt 2) w = Some (w1, inl (HTTPException 408))) ∧
  ∃ w', @run_interactive_research (scripted [] []) "s" (example_task true) w
          = Some (w', inr ()) ∧
        sent w' = sent w ++ [Progress research_starting; AnalystCountRequest (JInt 2);
                             Error (HTTPException 408)] ∧
        workflow w' = workflow w.
Proof.
  apply (@analyst_count_timeout_ends_research (scripted [] []) "s" (example_task true)).
  reflexivity.
Defined.

Lemma analyst_count_missing_field_witness :
  let w := example_app [Message 12 "s" ANALYST_COUNT {[ "number" := JInt 4 ]}] in
  (∃ w1, @get_analyst_count "s" (JInt 2) w = Some (w1, inr (JInt 2))) ∧
  ∃ w1, sent w1 = sent w ++ [Progress research_starting; AnalystCountRequest (JInt 2)] ∧
        @research_steps (scripted [] []) "s" (example_task true) w
          = @research_with_count (scripted [] []) "s" (JInt 2) (example_task true) w1.
Proof.
  apply (@analyst_count_missing_field (scripted [] []) "s" (example_task true) _
           {[ "number" := JInt 4 ]}).
  - by vm_compute.
  - by vm_compute.
Defined.

Lemma analyst_count_unclamped_witness :
  let w := example_app [Message 12 "s" ANALYST_COUNT {[ "count" := JInt 50 ]}] in
  (∃ w1, @get_analyst_count "s" (JInt 2) w = Some (w1, inr (JInt 50))) ∧
  ∃ w1, @research_steps (scripted [] []) "s" (example_task true) w
          = @research_with_count (scripted [] []) "s" (JInt 50) (example_task true) w1.
Proof.
  apply (@analyst_count_unclamped (scripted [] []) "s" (example_task true) _
           {[ "count" := JInt 50 ]}).
  - by vm_compute.
  - by vm_compute.
Defined.

(** The operator answers 50 to the analyst-count request and then approves
    the report: the research is carried out with 50 analysts. *)
Lemma fifty_analysts :
  ∃ w' l report,
    @run_interactive_research (scripted [] []) "s" (example_task true)
      (example_app [Message 12 "s" ANALYST_COUNT {[ "count" := JInt 50 ]};
                    Message 30 "s" REPORT_APPROVAL {[ "action" := JStr "approve" ]}])
      = Some (w', inr ()) ∧
    last (sent w') = Some (Result "X" l 50 report) ∧
    length l = 50 ∧
    Progress (generating_analysts (JInt 50)) ∈ sent w'.
Proof.
  eexists _, _, _. split; [by vm_compute|].
  split; [by vm_compute|]. split; [by vm_compute|].
  vm_compute. set_solver.
Qed.

(** ** The approval loop on the console *)

Lemma announced_app out1 out2 : announced (out1 ++ out2) = announced out1 ++ announced out2.
Proof. apply omap_app. Qed.

Section Steady.
Context {A B : Type}.

Lemma steady_ret (a : A) : steady (ret a).
Proof. intros w. exists w, (inr a), []. by rewrite app_nil_r. Qed.

Lemma steady_lift (r : Exc + A) : steady (lift r).
Proof. intros w. exists w, r, []. by rewrite app_nil_r. Qed.

Lemma steady_raise (e : Exc) : steady (raise (A:=A) e).
Proof. apply steady_lift. Qed.

Lemma steady_gets (f : Console → A) : steady (gets f).
Proof. intros w. exists w, (inr (f w)), []. by rewrite app_nil_r. Qed.

Lemma steady_bind (m : M Console A) (k : A → M Console B) :
  steady m → (∀ a, steady (k a)) → steady (bind m k).
Proof.
  intros Hm Hk w. destruct (Hm w) as (w1 & r & out1 & Hrun & Hout & Hann & Hver & Hin).
  unfold bind. rewrite Hrun. destruct r as [e|a].
  - exists w1, (inl e), out1. done.
  - destruct (Hk a w1) as (w2 & r & out2 & Hrun2 & Hout2 & Hann2 & Hver2 & Hin2).
    exists w2, r, (out1 ++ out2). rewrite Hrun2. repeat split.
    + by rewrite Hout2, Hout, app_assoc.
    + by rewrite announced_app, Hann, Hann2.
    + congruence.
    + lia.
Qed.

Lemma steady_on_self (m : M StormWorkflow A) : keeps_versions m → steady (on_self m).
Proof.
  intros Hm w. destruct (Hm (self w)) as (s' & r & Hrun & Hver).
  unfold on_self. rewrite Hrun. eexists _, r, []. simpl.
  by rewrite app_nil_r.
Qed.

Lemma steady_reading banner (loop : list string → list Printed * list string * (Exc + A)) :
  announced banner = [] →
  (∀ lines, announced (loop lines).1.1 = [] ∧ length (loop lines).1.2 ≤ length lines) →
  steady (reading banner loop).
Proof.
  intros Hbanner Hloop w. unfold reading.
  destruct (Hloop (stdin w)) as [Hann Hlen].
  destruct (loop (stdin w)) as [[out rest] r]. simpl in *.
  eexists _, r, (banner ++ out). simpl. repeat split; try done.
  by rewrite announced_app, Hbanner, Hann.
Qed.

Lemma keeps_versions_ret (a : A) : keeps_versions (ret a).
Proof. intros s. by exists s, (inr a). Qed.

Lemma keeps_versions_lift (r : Exc + A) : keeps_versions (lift r).
Proof. intros s. by exists s, r. Qed.

Lemma keeps_versions_gets (f : StormWorkflow → A) : keeps_versions (gets f).
Proof. intros s. by exists s, (inr (f s)). Qed.

Lemma keeps_versions_bind (m : M StormWorkflow A) (k : A → M StormWorkflow B) :
  keeps_versions m → (∀ a, keeps_versions (k a)) → keeps_versions (bind m k).
Proof.
  intros Hm Hk s. destruct (Hm s) as (s1 & r & Hrun & Hver).
  unfold bind. rewrite Hrun. destruct r as [e|a].
  - by exists s1, (inl e).
  - destruct (Hk a s1) as (s2 & r & Hrun2 & Hver2). exists s2, r. split; [done|congruence].
Qed.
End Steady.

Lemma steady_safe_input : steady safe_input.
Proof.
  intros w. unfold safe_input. destruct (stdin w) as [|line rest] eqn:Hin.
  - exists w, (inl EOFError), []. rewrite app_nil_r, Hin. done.
  - eexists _, (inr line), []. simpl. rewrite app_nil_r. repeat split; try done.
    simpl. lia.
Qed.

Lemma steady_print p : announced [p] = [] → steady (print p).
Proof.
  intros Hp w. eexists _, (inr ()), [p]. unfold print, modify. simpl. done.
Qed.

Lemma keeps_versions_set_current (f : StormWorkflow → StormWorkflow) :
  (∀ s, report_versions (f s) = report_versions s) → keeps_versions (modify f).
Proof. intros Hf s. eexists _, (inr ()). unfold modify. split; [reflexivity|apply Hf]. Qed.

Create HintDb steady.
#[local] Hint Resolve steady_ret steady_lift steady_raise steady_gets steady_safe_input
  keeps_versions_ret keeps_versions_lift keeps_versions_gets : steady.
#[local] Hint Extern 2 (steady (bind _ _)) => apply steady_bind; [|intros ?] : steady.
#[local] Hint Extern 2 (keeps_versions (bind _ _)) =>
  apply keeps_versions_bind; [|intros ?] : steady.
#[local] Hint Extern 2 (steady (print _)) => apply steady_print; reflexivity : steady.
#[local] Hint Extern 2 (steady (on_self _)) => apply steady_on_self : steady.
#[local] Hint Extern 2 (keeps_versions (modify _)) =>
  apply keeps_versions_set_current; intros ?; reflexivity : steady.
#[local] Hint Extern 3 (steady (if ?b then _ else _)) => destruct b : steady.

Section ConsoleSteady.
Context `{Collaborators}.

Lemma keeps_versions_rewrite_with_feedback topic feedback :
  keeps_versions (_rewrite_with_feedback topic feedback).
Proof. unfold _rewrite_with_feedback. auto 20 with steady. Qed.

Lemma analyst_count_loop_reads default_count lines :
  announced (analyst_count_loop default_count lines).1.1 = [] ∧
  length (analyst_count_loop default_count lines).1.2 ≤ length lines.
Proof.
  induction lines as [|line rest [IH1 IH2]]; simpl; [done|].
  destruct (String.eqb line ""); simpl; [split; [done|lia]|].
  destruct (py_int line) as [count|].
  - destruct ((1 <=? count)%Z && (count <=? 10)%Z); simpl; [split; [done|lia]|].
    destruct (analyst_count_loop default_count rest) as [[out rest'] r]. simpl in *.
    split; [done|lia].
  - destruct (analyst_count_loop default_count rest) as [[out rest'] r]. simpl in *.
    split; [done|lia].
Qed.

Lemma compare_loop_reads versions lines :
  announced (compare_loop versions lines).1.1 = [] ∧
  length (compare_loop versions lines).1.2 ≤ length lines.
Proof.
  induction lines as [lines IH] using (induction_ltof1 _ (@length string)).
  unfold ltof in IH. destruct lines as [|line rest]; simpl; [split; [done|simpl; lia]|].
  destruct (String.eqb line "0"); simpl; [split; [done|lia]|].
  destruct (py_int line) as [n|].
  - destruct (if (0 <=? n - 1)%Z then versions !! Z.to_nat (n - 1) else None) as [selected|].
    + destruct rest as [|continue_choice rest']; simpl; [split; [done|lia]|].
      destruct (lower_is_y continue_choice); simpl; [|split; [done|lia]].
      destruct (IH rest') as [IH1 IH2]; [simpl; lia|].
      destruct (compare_loop versions rest') as [[out rest''] r]. simpl in *.
      split; [done|lia].
    + destruct (IH rest) as [IH1 IH2]; [simpl; lia|].
      destruct (compare_loop versions rest) as [[out rest'] r]. simpl in *.
      split; [done|lia].
  - destruct (IH rest) as [IH1 IH2]; [simpl; lia|].
    destruct (compare_loop versions rest) as [[out rest'] r]. simpl in *.
    split; [done|lia].
Qed.

Lemma steady_show_full_report parts : steady (_show_full_report parts).
Proof. unfold _show_full_report. auto 20 with steady. Qed.

Lemma steady_compare_report_versions : steady _compare_report_versions.
Proof.
  unfold _compare_report_versions.
  apply steady_bind; [auto with steady|]. intros versions.
  apply steady_bind; [|auto 20 with steady].
  apply steady_reading; [done|]. apply compare_loop_reads.
Qed.

Lemma steady_rewrite_report topic rewrite_choice :
  steady (rewrite_report topic rewrite_choice).
Proof.
  unfold rewrite_report.
  destruct (String.eqb rewrite_choice "1"); [auto 20 with steady|].
  destruct (String.eqb rewrite_choice "2"); [|auto 20 with steady].
  apply steady_bind; [auto with steady|]. intros _.
  apply steady_bind; [auto with steady|]. intros feedback.
  destruct (negb (String.eqb feedback "")); [|auto 20 with steady].
  apply steady_bind; [auto with steady|]. intros _.
  apply steady_on_self, keeps_versions_rewrite_with_feedback.
Qed.
End ConsoleSteady.

Section ApprovalLoop.
Context `{Collaborators}.

#[local] Arguments rewrite_report : simpl never.
#[local] Arguments _show_full_report : simpl never.
#[local] Arguments _compare_report_versions : simpl never.

Lemma approval_turn_spec topic parts w :
  ∃ w' r out,
    approval_turn topic parts w = Some (w', r) ∧
    stdout w' = stdout w ++ out ∧
    turn_outcome parts w w' out r.
Proof.
  unfold approval_turn.
  simpl. unfold bind at 1. simpl. unfold bind at 1. simpl.
  unfold bind at 1. unfold safe_input at 1. simpl.
  destruct (stdin w) as [|choice rest] eqn:Hin.
  { eexists _, _, [_]. split; [reflexivity|]. simpl. done. }
  destruct (String.eqb choice "1").
  { eexists _, _, [_; _]. split; [reflexivity|]. simpl.
    rewrite <- app_assoc. done. }
  destruct (String.eqb choice "2").
  { unfold bind at 1. simpl. unfold bind at 1. unfold safe_input at 1. simpl.
    destruct rest as [|rewrite_choice rest'].
    { eexists _, _, [_; _]. split; [reflexivity|]. simpl.
      rewrite <- app_assoc. done. }
    unfold bind at 1.
    match goal with
    | |- context [rewrite_report topic rewrite_choice ?w1] =>
        destruct (steady_rewrite_report topic rewrite_choice w1)
          as (w2 & r & out & Hrun & Hout & Hann & Hver & Hlen)
    end.
    rewrite Hrun. simpl in Hout, Hver, Hlen. destruct r as [e|new_report_parts].
    { eexists _, _, ([_; _] ++ out). split; [reflexivity|]. simpl.
      rewrite Hout, <- !app_assoc. split; [done|]. split; [done|].
      by rewrite Hann. }
    eexists _, _, ([_; _] ++ out ++ [_]). split; [reflexivity|]. simpl.
    rewrite Hout, <- !app_assoc. split; [done|]. split; [rewrite Hin; simpl; lia|]. right.
    unfold versions_of in *. simpl. rewrite !Hver. split; [done|].
    rewrite !announced_app, Hann. simpl. by rewrite length_app, Nat.add_1_r. }
  destruct (String.eqb choice "3").
  { unfold bind at 1.
    match goal with
    | |- context [_show_full_report parts ?w1] =>
        destruct (steady_show_full_report parts w1)
          as (w2 & r & out & Hrun & Hout & Hann & Hver & Hlen)
    end.
    rewrite Hrun. simpl in Hout, Hver, Hlen. destruct r as [e|[]].
    - eexists _, _, ([_] ++ out). split; [reflexivity|]. simpl.
      rewrite Hout, <- !app_assoc. done.
    - eexists _, _, ([_] ++ out). split; [reflexivity|]. simpl.
      rewrite Hout, <- !app_assoc. split; [done|]. split; [rewrite Hin; simpl; lia|]. by left. }
  destruct (String.eqb choice "4" && _).
  { unfold bind at 1.
    match goal with
    | |- context [_compare_report_versions ?w1] =>
        destruct (steady_compare_report_versions w1)
          as (w2 & r & out & Hrun & Hout & Hann & Hver & Hlen)
    end.
    rewrite Hrun. simpl in Hout, Hver, Hlen. destruct r as [e|[]].
    - eexists _, _, ([_] ++ out). split; [reflexivity|]. simpl.
      rewrite Hout, <- !app_assoc. done.
    - eexists _, _, ([_] ++ out). split; [reflexivity|]. simpl.
      rewrite Hout, <- !app_assoc. split; [done|]. split; [rewrite Hin; simpl; lia|]. by left. }
  eexists _, _, [_; _]. split; [reflexivity|]. simpl.
  rewrite <- app_assoc. split; [done|]. split; [rewrite Hin; simpl; lia|]. by left.
Qed.

Lemma approval_loop_spec fuel topic parts w :
  length (stdin w) < fuel →
  last (versions_of w) = Some parts →
  ∃ w' r out added,
    approval_loop fuel topic parts w = Some (w', r) ∧
    stdout w' = stdout w ++ out ∧
    versions_of w' = versions_of w ++ added ∧
    announced out = seq (S (length (versions_of w))) (length added) ∧
    (∀ final, r = inr final → last (versions_of w') = Some final).
Proof.
  revert parts w. induction fuel as [|fuel IH]; intros parts w Hfuel Hlast; [lia|].
  simpl. unfold bind at 1.
  destruct (approval_turn_spec topic parts w) as (w1 & r & out1 & Hrun & Hout & Hturn).
  rewrite Hrun. destruct r as [e|[report|report]]; simpl in Hturn.
  - destruct Hturn as [Hver Hann].
    exists w1, (inl e), out1, []. rewrite app_nil_r. done.
  - destruct Hturn as (-> & Hver & Hann).
    exists w1, (inr parts), out1, []. rewrite app_nil_r. repeat split; try done.
    intros final [= <-]. by rewrite Hver.
  - destruct Hturn as [Hshorter Hturn].
    destruct (IH report w1) as (w' & r & out2 & added & Hloop & Hout2 & Hver2 & Hann2 & Hfinal).
    { lia. }
    { destruct Hturn as [(-> & Hver & _) | (Hver & _)]; rewrite Hver; [done|].
      apply last_snoc. }
    rewrite Hloop.
    destruct Hturn as [(-> & Hver & Hann) | (Hver & Hann)].
    + exists w', r, (out1 ++ out2), added.
      rewrite Hout2, Hout, <- app_assoc, announced_app, Hann, Hann2.
      split; [done|]. split; [done|]. split; [by rewrite Hver2, Hver|].
      split; [by rewrite Hver|done].
    + exists w', r, (out1 ++ out2), (report :: added).
      rewrite Hout2, Hout, <- app_assoc, announced_app, Hann, Hann2.
      split; [done|]. split; [done|]. split; [by rewrite Hver2, Hver, <- app_assoc|].
      split; [|done].
      rewrite Hver, length_app. simpl. by rewrite Nat.add_1_r.
Qed.

#[local] Arguments approval_loop : simpl never.

Lemma final_report_approval_spec topic report_parts w :
  ∃ w' r out added,
    _get_final_report_approval topic report_parts w = Some (w', r) ∧
    stdout w' = stdout w ++ out ∧
    versions_of w' = versions_of w ++ report_parts :: added ∧
    announced out = seq (S (length (versions_of w))) (S (length added)) ∧
    (∀ final, r = inr final → last (versions_of w') = Some final).
Proof.
  unfold _get_final_report_approval. simpl.
  unfold bind at 1. simpl. unfold bind at 1. simpl. unfold bind at 1. simpl.
  unfold bind at 1. simpl. unfold bind at 1. simpl.
  match goal with
  | |- context [approval_loop ?fuel topic report_parts ?w1] =>
      destruct (approval_loop_spec fuel topic report_parts w1)
        as (w' & r & out & added & Hloop & Hout & Hver & Hann & Hfinal)
  end.
  { simpl. lia. }
  { unfold versions_of. simpl. apply last_snoc. }
  unfold versions_of in *. simpl in *.
  exists w', r, ([ReviewHeader (length (report_versions (self w) ++ [report_parts]));
                  Preview (length (report_versions (self w) ++ [report_parts])) report_parts]
                 ++ out), added.
  rewrite Hloop, Hout, <- !app_assoc. split; [done|]. split; [done|].
  split; [by rewrite Hver, <- app_assoc|]. split; [|done].
  rewrite announced_app, Hann, length_app. simpl. by rewrite Nat.add_1_r.
Qed.

Lemma approve_turn topic parts w rest :
  stdin w = "1" :: rest →
  ∃ w', approval_turn topic parts w = Some (w', inr (Return parts)) ∧
        self w' = self w ∧ stdin w' = rest.
Proof.
  intros Hin. unfold approval_turn. simpl. unfold bind at 1. simpl. unfold bind at 1. simpl.
  unfold bind at 1. unfold safe_input at 1. simpl. rewrite Hin. simpl.
  eexists. split; [reflexivity|]. done.
Qed.

Lemma view_full_turn topic parts w key rest :
  stdin w = "3" :: key :: rest →
  ∃ w', approval_turn topic parts w = Some (w', inr (Continue parts)) ∧
        self w' = self w ∧ stdin w' = rest ∧
        stdout w' = stdout w ++ [Menu (if bool_decide (1 < length (versions_of w))
                                       then 4 else 3);
                                 FullReport parts].
Proof.
  intros Hin. unfold approval_turn. simpl. unfold bind at 1. simpl. unfold bind at 1. simpl.
  unfold bind at 1. unfold safe_input at 1. simpl. rewrite Hin. simpl.
  eexists. split; [reflexivity|]. simpl. by rewrite <- app_assoc.
Qed.

Lemma rewrite_turn topic parts w rewrite_choice rest :
  stdin w = "2" :: rewrite_choice :: rest →
  ∃ w' r,
    approval_turn topic parts w = Some (w', r) ∧
    match r with
    | inl e => versions_of w' = versions_of w
    | inr (Return _) => False
    | inr (Continue new_report_parts) =>
        versions_of w' = versions_of w ++ [new_report_parts] ∧
        last (stdout w') = Some (Rewritten (S (length (versions_of w))))
    end.
Proof.
  intros Hin. unfold approval_turn. simpl. unfold bind at 1. simpl. unfold bind at 1. simpl.
  unfold bind at 1. unfold safe_input at 1. simpl. rewrite Hin. simpl.
  unfold bind at 1. simpl. unfold bind at 1. unfold safe_input at 1. simpl.
  unfold bind at 1.
  match goal with
  | |- context [rewrite_report topic rewrite_choice ?w1] =>
      destruct (steady_rewrite_report topic rewrite_choice w1)
        as (w2 & r & out & Hrun & Hout & Hann & Hver & Hlen)
  end.
  rewrite Hrun. unfold versions_of in *. simpl in Hver.
  destruct r as [e|new_report_parts]; simpl.
  - eexists _, _. split; [reflexivity|]. done.
  - eexists _, _. split; [reflexivity|]. simpl. rewrite Hver. split; [done|].
    by rewrite last_snoc, length_app, Nat.add_1_r.
Qed.
End ApprovalLoop.

(** ** The approval loop over the WebSocket *)

Section ReportApproval.
Context `{Collaborators}.
Variable session_id : string.

Lemma rewrite_requested_ends topic response new_report w :
  ∃ w' r, rewrite_requested topic response new_report w = Some (w', r).
Proof.
  unfold rewrite_requested.
  destruct (py_eq_str _ "complete").
  { unfold bind, send_progress, send_json, modify, gets, lift, ret. simpl.
    destruct (_write_report _ _); eauto. }
  destruct (py_eq_str _ "feedback"); [|unfold ret; eauto].
  destruct (truthy _).
  - unfold bind at 1. simpl. unfold bind at 1. simpl. unfold bind at 1.
    unfold on_workflow. simpl.
    destruct (keeps_versions_rewrite_with_feedback topic
                (py_get response "feedback" (JStr "")) (workflow w))
      as (s' & r & Hrun & _).
    rewrite Hrun. destruct r; unfold ret; eauto.
  - unfold bind, send_progress, send_json, modify, gets, lift, ret. simpl.
    destruct (_write_report _ _); eauto.
Qed.

Lemma decision_approve topic version current_report new_report response w :
  py_get response "action" JNull = JStr "approve" →
  apply_decision topic version current_report new_report response w
    = Some ({| inbox := inbox w; sent := sent w ++ [Progress report_approved];
               globals := globals w; workflow := workflow w |},
            inr (Approve current_report)).
Proof. intros Haction. unfold apply_decision. rewrite Haction. reflexivity. Qed.

Lemma decision_view_full topic version current_report new_report response w :
  py_get response "action" JNull = JStr "view_full" →
  apply_decision topic version current_report new_report response w
    = Some (w, inr (Present version current_report new_report)).
Proof. intros Haction. unfold apply_decision. rewrite Haction. reflexivity. Qed.

Lemma decision_rewrite topic version current_report new_report response w :
  py_get response "action" JNull = JStr "rewrite" →
  ∃ w' r,
    apply_decision topic version current_report new_report response w = Some (w', r) ∧
    match r with
    | inl e => True
    | inr (Approve _) => False
    | inr (Present version' current_report' new_report') =>
        version' = (version + 1)%Z ∧ new_report' = Some current_report' ∧
        last (sent w') = Some (Progress (rewrite_completed (version + 1)))
    end.
Proof.
  intros Haction. unfold apply_decision. rewrite Haction. simpl.
  unfold bind at 1.
  destruct (rewrite_requested_ends topic response new_report w) as (w1 & r & Hrun).
  rewrite Hrun. destruct r as [e|[report|]].
  - by eexists _, _.
  - eexists _, _. split; [reflexivity|]. simpl. by rewrite last_snoc.
  - by eexists _, _.
Qed.

Lemma decision_unrecognized topic version current_report new_report response w :
  py_eq_str (py_get response "action" JNull) "approve" = false →
  py_eq_str (py_get response "action" JNull) "rewrite" = false →
  apply_decision topic version current_report new_report response w
    = Some (w, inr (Present version current_report new_report)).
Proof.
  intros Happrove Hrewrite. unfold apply_decision. rewrite Happrove, Hrewrite.
  by destruct (py_eq_str _ "view_full").
Qed.

(** A rewrite whose [rewrite_type] is neither "complete" nor "feedback",
    as the first decision: [new_report] was never bound. *)
Lemma decision_rewrite_unbound topic version current_report response w :
  py_get response "action" JNull = JStr "rewrite" →
  py_eq_str (py_get response "rewrite_type" (JStr "feedback")) "complete" = false →
  py_eq_str (py_get response "rewrite_type" (JStr "feedback")) "feedback" = false →
  apply_decision topic version current_report None response w
    = Some (w, inl (UnboundLocalError "new_report")).
Proof.
  intros Haction Hcomplete Hfeedback. unfold apply_decision. rewrite Haction. simpl.
  unfold bind, rewrite_requested. by rewrite Hcomplete, Hfeedback.
Qed.

Lemma wait_for_inbox future timeout events g :
  length (wait_for future timeout events g).1.1 ≤ length events ∧
  (futures g !! future = Some FutPending →
   ∀ data, (wait_for future timeout events g).2 = Resolved data →
           length (wait_for future timeout events g).1.1 < length events).
Proof.
  revert timeout g. induction events as [|ev events IH]; intros timeout g; simpl.
  - destruct (futures g !! future) as [[| |]|]; simpl; split; try done;
      intros; discriminate.
  - destruct (futures g !! future) as [[| |]|] eqn:Hf; simpl;
      try (split; [lia | intros; discriminate]).
    + destruct (timeout <=? delay_of ev)%N; simpl; [split; [lia|discriminate]|].
      destruct (IH (timeout - delay_of ev)%N (websocket_endpoint ev g)) as [IH1 _].
      split; [lia|]. intros _ data _. lia.
    + destruct (timeout <=? delay_of ev)%N; simpl; [split; [lia|discriminate]|].
      destruct (IH (timeout - delay_of ev)%N (websocket_endpoint ev g)) as [IH1 _].
      split; [lia|]. intros ? data _. lia.
Qed.

Lemma wait_for_response_run t w :
  wait_for_response session_id t w =
    let '(future, g1) := wait_for_response_register session_id t (globals w) in
    let '(inbox', g2, awaited) := wait_for future 300 (inbox w) g1 in
    Some ({| inbox := inbox'; sent := sent w;
             globals := pop_pending (response_key session_id t) g2;
             workflow := workflow w |},
          match awaited with
          | Resolved response => inr response
          | TimeoutError => inl (HTTPException 408)
          | Cancelled => inl CancelledError
          end).
Proof.
  unfold wait_for_response. simpl.
  destruct (wait_for _ _ _ _) as [[inbox' g2] [response| |]]; reflexivity.
Qed.

Lemma wait_for_response_reads t w :
  ∃ w' r, wait_for_response session_id t w = Some (w', r) ∧
          sent w' = sent w ∧ workflow w' = workflow w ∧
          match r with
          | inl _ => True
          | inr _ => length (inbox w') < length (inbox w)
          end.
Proof.
  rewrite wait_for_response_run. simpl.
  match goal with
  | |- context [wait_for ?f ?t ?ev ?g] =>
      destruct (wait_for_inbox f t ev g) as [_ Hshorter];
      destruct (wait_for f t ev g) as [[inbox' g2] awaited] eqn:Hwait
  end.
  eexists _, _. split; [reflexivity|]. simpl. split; [done|]. split; [done|].
  destruct awaited as [response| |]; try done.
  simpl in Hshorter. apply (Hshorter) with (data := response); [|done].
  simpl. by rewrite lookup_app_r, Nat.sub_diag by lia.
Qed.

Lemma apply_decision_ends topic version current_report new_report response w :
  ∃ w' r, apply_decision topic version current_report new_report response w
            = Some (w', r) ∧ inbox w' = inbox w.
Proof.
  unfold apply_decision.
  destruct (py_eq_str _ "approve"); [by eexists _, _|].
  destruct (py_eq_str _ "rewrite").
  2: { destruct (py_eq_str _ "view_full"); by eexists _, _. }
  unfold bind at 1, rewrite_requested.
  destruct (py_eq_str _ "complete").
  { unfold bind, send_progress, send_json, modify, gets, lift, ret. simpl.
    destruct (_write_report _ _); by eexists _, _. }
  destruct (py_eq_str _ "feedback").
  2: { unfold ret. destruct new_report; by eexists _, _. }
  destruct (truthy _).
  - unfold bind at 1. simpl. unfold bind at 1. simpl. unfold bind at 1.
    unfold on_workflow. simpl.
    destruct (keeps_versions_rewrite_with_feedback topic
                (py_get response "feedback" (JStr "")) (workflow w))
      as (s' & r & Hrun & _).
    rewrite Hrun. destruct r; by eexists _, _.
  - unfold bind, send_progress, send_json, modify, gets, lift, ret. simpl.
    destruct (_write_report _ _); by eexists _, _.
Qed.

(** The loop of [get_report_approval] ends on every inbox, by a return or
    by an exception. *)
Lemma report_approval_loop_ends fuel topic version current_report new_report w :
  length (inbox w) < fuel →
  ∃ w' r, report_approval_loop session_id fuel topic version current_report new_report w
            = Some (w', r).
Proof.
  revert version current_report new_report w.
  induction fuel as [|fuel IH]; intros version current_report new_report w Hfuel; [lia|].
  simpl. unfold bind at 1, report_approval_turn, bind at 1, send_json at 1, modify. simpl.
  unfold bind at 1.
  match goal with
  | |- context [wait_for_response session_id REPORT_APPROVAL ?w1] =>
      destruct (wait_for_response_reads REPORT_APPROVAL w1)
        as (w2 & r & Hrun & _ & _ & Hshorter)
  end.
  rewrite Hrun. destruct r as [e|response]; [by eexists _, _|].
  destruct (apply_decision_ends topic version current_report new_report response w2)
    as (w3 & r & Hdecide & Hinbox).
  rewrite Hdecide. destruct r as [e|[report|version' current' new']]; try by eexists _, _.
  apply IH. rewrite Hinbox. simpl in Hshorter. lia.
Qed.

Lemma get_report_approval_ends topic report_parts w :
  ∃ w' r, get_report_approval session_id topic report_parts w = Some (w', r).
Proof.
  unfold get_report_approval, bind, gets. apply report_approval_loop_ends. lia.
Qed.
End ReportApproval.

(** ** The versions of the approval loops *)

Section ApprovalVersions.
Context `{Collaborators}.
Variable session_id : string.

(** On the console. *)

(** A turn of the console loop ends the loop only after it has read the
    choice 1, and then it returns the draft in hand and reports the number
    of versions there are. *)
Lemma approval_turn_return topic parts w w' report :
  approval_turn topic parts w = Some (w', inr (Return report)) →
  report = parts ∧ stdin w = "1" :: stdin w' ∧ self w' = self w ∧
  last (stdout w') = Some (Approved (length (versions_of w))).
Proof.
  unfold approval_turn.
  simpl. unfold bind at 1. simpl. unfold bind at 1. simpl.
  unfold bind at 1. unfold safe_input at 1. simpl.
  destruct (stdin w) as [|choice rest] eqn:Hin; [discriminate|].
  destruct (String.eqb choice "1") eqn:Hchoice.
  { apply String.eqb_eq in Hchoice as ->. intros [= <- <-]. simpl.
    repeat split. by rewrite last_snoc. }
  destruct (String.eqb choice "2").
  { unfold bind at 1. simpl. unfold bind at 1. unfold safe_input at 1. simpl.
    destruct rest as [|rewrite_choice rest']; [discriminate|].
    unfold bind at 1.
    match goal with
    | |- context [rewrite_report topic rewrite_choice ?w1] =>
        destruct (steady_rewrite_report topic rewrite_choice w1) as (w2 & r & out & Hrun & _)
    end.
    rewrite Hrun. destruct r as [e|new_report_parts]; discriminate. }
  destruct (String.eqb choice "3").
  { unfold bind at 1.
    match goal with
    | |- context [_show_full_report parts ?w1] =>
        destruct (steady_show_full_report parts w1) as (w2 & r & out & Hrun & _)
    end.
    rewrite Hrun. destruct r as [e|[]]; discriminate. }
  destruct (String.eqb choice "4" && _).
  { unfold bind at 1.
    match goal with
    | |- context [_compare_report_versions ?w1] =>
        destruct (steady_compare_report_versions w1) as (w2 & r & out & Hrun & _)
    end.
    rewrite Hrun. destruct r as [e|[]]; discriminate. }
  discriminate.
Qed.

(** The console loop returns only after an approval: it has read a line,
    and the last thing printed is the approval at the number of versions
    there are. *)
Lemma approval_loop_returns fuel topic parts w w' final :
  approval_loop fuel topic parts w = Some (w', inr final) →
  length (stdin w') < length (stdin w) ∧
  last (stdout w') = Some (Approved (length (versions_of w'))).
Proof.
  revert parts w. induction fuel as [|fuel IH]; intros parts w; [discriminate|].
  simpl. unfold bind at 1.
  destruct (approval_turn_spec topic parts w) as (w1 & r & out1 & Hrun & Hout & Hturn).
  rewrite Hrun. destruct r as [e|[report|report]]; simpl in Hturn; [discriminate| |].
  - intros [= <- <-].
    destruct (approval_turn_return _ _ _ _ _ Hrun) as (_ & Hin & Hself & Hlast).
    rewrite Hin. simpl. split; [lia|]. unfold versions_of in *. by rewrite Hself.
  - intros Hloop. destruct Hturn as [Hshorter _].
    destruct (IH report w1 Hloop) as [Hlen Hlast]. split; [lia|done].
Qed.

(** [_get_final_report_approval] by its loop. *)
Lemma final_report_approval_run topic report_parts w :
  _get_final_report_approval topic report_parts w =
    let version := length (versions_of w ++ [report_parts]) in
    approval_loop (S (length (stdin w))) topic report_parts
      {| stdin := stdin w;
         stdout := stdout w ++ [ReviewHeader version; Preview version report_parts];
         self := append_version report_parts (self w) |}.
Proof.
  unfold _get_final_report_approval, bind, on_self, gets, print, modify, versions_of.
  unfold modify, append_version. cbn [stdin stdout self report_versions].
  by rewrite <- app_assoc.
Qed.

(** Over the WebSocket. *)

Lemma counts_from_quiet version report pre out :
  Forall (fun m => carries_version m = false) pre →
  counts_from version report (pre ++ out) ↔ counts_from version report out.
Proof.
  induction 1 as [|m pre Hm _ IH]; [done|]. simpl.
  destruct m as [text| | | |]; try done. by destruct text.
Qed.

Lemma presented_app out1 out2 : presented (out1 ++ out2) = presented out1 ++ presented out2.
Proof. apply omap_app. Qed.

Lemma presented_quiet pre :
  Forall (fun m => carries_version m = false) pre → presented pre = [].
Proof.
  induction 1 as [|m pre Hm _ IH]; [done|]. unfold presented in *. simpl.
  by destruct m.
Qed.

(** The rewrites of the loop over the WebSocket send progress messages that
    carry no version number, take nothing from the inbox and leave the
    version history of the instance alone. *)
Lemma rewrite_requested_spec topic response new_report a :
  ∃ a' r pre,
    rewrite_requested topic response new_report a = Some (a', r) ∧
    sent a' = sent a ++ pre ∧
    Forall (fun m => carries_version m = false) pre ∧
    inbox a' = inbox a ∧
    report_versions (workflow a') = report_versions (workflow a).
Proof.
  unfold rewrite_requested.
  destruct (py_eq_str _ "complete").
  { unfold bind, send_progress, send_json, modify, gets, lift, ret. simpl.
    destruct (_write_report _ _); eexists _, _, [_]; (split; [reflexivity|]);
      simpl; repeat split; by repeat constructor. }
  destruct (py_eq_str _ "feedback").
  2: { unfold ret. eexists _, _, []. split; [reflexivity|]. rewrite app_nil_r. done. }
  destruct (truthy _).
  - unfold bind at 1. simpl. unfold bind at 1. simpl. unfold bind at 1.
    unfold on_workflow. simpl.
    destruct (keeps_versions_rewrite_with_feedback topic
                (py_get response "feedback" (JStr "")) (workflow a))
      as (s' & r & Hrun & Hversions).
    rewrite Hrun. destruct r; unfold ret; eexists _, _, [_; _];
      (split; [reflexivity|]); simpl; rewrite <- app_assoc;
      repeat split; by repeat constructor.
  - unfold bind, send_progress, send_json, modify, gets, lift, ret. simpl.
    destruct (_write_report _ _); eexists _, _, [_]; (split; [reflexivity|]);
      simpl; repeat split; by repeat constructor.
Qed.

(** What a decision does to the counter, to the draft in hand and to the
    messages sent. *)
Lemma apply_decision_spec topic version current_report new_report response a :
  ∃ a' r out,
    apply_decision topic version current_report new_report response a = Some (a', r) ∧
    sent a' = sent a ++ out ∧
    inbox a' = inbox a ∧
    report_versions (workflow a') = report_versions (workflow a) ∧
    match r with
    | inl e => Forall (fun m => carries_version m = false) out
    | inr (Approve report) => report = current_report ∧ out = [Progress report_approved]
    | inr (Present version' current_report' new_report') =>
        (version' = version ∧ current_report' = current_report ∧ out = []) ∨
        (version' = (version + 1)%Z ∧
         ∃ pre, Forall (fun m => carries_version m = false) pre ∧
                out = pre ++ [Progress (rewrite_completed (version + 1))])
    end.
Proof.
  unfold apply_decision.
  destruct (py_eq_str _ "approve").
  { eexists _, _, [_]. split; [reflexivity|]. done. }
  destruct (py_eq_str _ "rewrite").
  2: { destruct (py_eq_str _ "view_full"); eexists _, _, []; (split; [reflexivity|]);
         rewrite app_nil_r; repeat split; by left. }
  unfold bind at 1.
  destruct (rewrite_requested_spec topic response new_report a)
    as (a1 & r & pre & Hrun & Hsent & Hquiet & Hinbox & Hversions).
  rewrite Hrun. destruct r as [e|[report|]].
  - by eexists _, _, pre.
  - eexists _, _, (pre ++ [_]). split; [reflexivity|]. simpl.
    rewrite Hsent, <- app_assoc. repeat split; try done. right. split; [done|].
    by exists pre.
  - by eexists _, _, pre.
Qed.

(** One turn of the loop over the WebSocket. *)
Lemma report_approval_turn_spec topic version current_report new_report a :
  ∃ a' r out,
    report_approval_turn session_id topic version current_report new_report a = Some (a', r) ∧
    sent a' = sent a ++ ReportApprovalRequest topic version current_report :: out ∧
    report_versions (workflow a') = report_versions (workflow a) ∧
    match r with
    | inl e => Forall (fun m => carries_version m = false) out
    | inr (Approve report) =>
        report = current_report ∧ out = [Progress report_approved] ∧
        length (inbox a') < length (inbox a)
    | inr (Present version' current_report' new_report') =>
        length (inbox a') < length (inbox a) ∧
        ((version' = version ∧ current_report' = current_report ∧ out = []) ∨
         (version' = (version + 1)%Z ∧
          ∃ pre, Forall (fun m => carries_version m = false) pre ∧
                 out = pre ++ [Progress (rewrite_completed (version + 1))]))
    end.
Proof.
  unfold report_approval_turn, bind at 1, send_json at 1, modify. simpl.
  unfold bind at 1.
  match goal with
  | |- context [wait_for_response session_id REPORT_APPROVAL ?a1] =>
      destruct (wait_for_response_reads session_id REPORT_APPROVAL a1)
        as (a2 & r & Hrun & Hsent & Hworkflow & Hshorter)
  end.
  rewrite Hrun. simpl in Hsent, Hworkflow, Hshorter.
  destruct r as [e|response].
  { eexists _, _, []. split; [reflexivity|]. rewrite Hsent, Hworkflow. done. }
  destruct (apply_decision_spec topic version current_report new_report response a2)
    as (a3 & r & out & Hdecide & Hsent' & Hinbox & Hversions & Hr).
  rewrite Hdecide. exists a3, r, out. split; [done|].
  rewrite Hsent', Hsent, <- app_assoc. split; [done|].
  rewrite Hversions, Hworkflow. split; [done|].
  destruct r as [e|[report|version' current' new']]; [done| |].
  - destruct Hr as [-> ->]. rewrite Hinbox. done.
  - rewrite Hinbox. done.
Qed.

(** The loop over the WebSocket: its first message presents the draft it
    was given at the counter it was given, its messages count the versions
    one by one, it leaves the version history of the instance alone, and it
    returns only after an approval, with the draft it presented last. *)
Lemma report_approval_loop_spec fuel topic version current_report new_report a :
  length (inbox a) < fuel →
  ∃ a' r out,
    report_approval_loop session_id fuel topic version current_report new_report a
      = Some (a', r) ∧
    sent a' = sent a ++ ReportApprovalRequest topic version current_report :: out ∧
    counts_from version (Some current_report) out ∧
    report_versions (workflow a') = report_versions (workflow a) ∧
    ∀ final, r = inr final →
      snd <$> last (presented (ReportApprovalRequest topic version current_report :: out))
        = Some final ∧
      last out = Some (Progress report_approved) ∧
      length (inbox a') < length (inbox a).
Proof.
  revert version current_report new_report a.
  induction fuel as [|fuel IH]; intros version current_report new_report a Hfuel; [lia|].
  simpl. unfold bind at 1.
  destruct (report_approval_turn_spec topic version current_report new_report a)
    as (a1 & r & out1 & Hrun & Hsent & Hversions & Hr).
  rewrite Hrun. destruct r as [e|[report|version' current' new']].
  - exists a1, (inl e), out1. repeat split; try done.
    rewrite <- (app_nil_r out1). by apply counts_from_quiet.
  - destruct Hr as (-> & -> & Hshorter).
    exists a1, (inr current_report), [Progress report_approved].
    split; [done|]. split; [done|]. split; [done|]. split; [done|].
    by intros final [= <-].
  - destruct Hr as [Hshorter Hr].
    destruct (IH version' current' new' a1) as (a' & r & out2 & Hloop & Hsent2 & Hcount & Hver2 & Hfinal);
      [lia|].
    rewrite Hloop.
    exists a', r, (out1 ++ ReportApprovalRequest topic version' current' :: out2).
    split; [done|]. split; [by rewrite Hsent2, Hsent, <- app_assoc|].
    split; [|split; [by rewrite Hver2|]].
    + destruct Hr as [(-> & -> & ->)|(-> & pre & Hquiet & ->)]; simpl.
      * split; [done|]. split; [by intros r' [= <-]|done].
      * rewrite <- app_assoc. apply counts_from_quiet; [done|]. simpl.
        split; [done|]. split; [done|]. split; [done|]. done.
    + intros final Hr'. destruct (Hfinal final Hr') as (Hlast & Hlast' & Hshorter').
      split; [|split; [|lia]].
      * rewrite presented_app, app_comm_cons, last_app.
        destruct (last (presented (ReportApprovalRequest topic version' current' :: out2)));
          [done|discriminate].
      * rewrite last_app. destruct out2 as [|m out2]; [discriminate|].
        change (last (ReportApprovalRequest topic version' current' :: m :: out2))
          with (last (m :: out2)). by rewrite Hlast'.
Qed.

(** C7 (as the code has it): the versions of the two approval loops.  On
    the console, on a fresh instance, the loop announces the versions 1, 2,
    ..., one more after every rewrite, and the last one announced is the
    length of [report_versions]; the first entry of the history is the
    first draft; the loop returns only after it has read an approval, which
    is reported at the current version, and the report returned is the
    entry of the history at that version.  Decision by decision: an
    approval ends the loop with the draft in hand and leaves the instance as
    it is; a rewrite that goes through appends one entry, announces the next
    version and the loop goes on with the new draft; after the full report
    was shown the loop goes on with the same draft and the same instance.
    Over the WebSocket there is a counter and no history: the first request
    presents the first draft as version 1, every request carries the counter
    and the draft in hand, every finished rewrite is announced with the
    counter plus one, [report_versions] of the instance is not touched, and
    the loop returns only after an approval, with the draft it presented
    last.  Decision by decision: an approval ends the loop with the draft in
    hand, view_full goes on with the counter and the draft as they are, and a
    rewrite that goes through goes on with the counter plus one and the new
    draft. *)
Theorem approval_loop_versions topic report_parts w a :
  let options := if bool_decide (1 < length (versions_of w)) then 4 else 3 in
  (versions_of w = [] →
   ∃ w' r out,
     _get_final_report_approval topic report_parts w = Some (w', r) ∧
     stdout w' = stdout w ++ out ∧
     announced out = seq 1 (length (versions_of w')) ∧
     versions_of w' !! 0 = Some report_parts ∧
     ∀ final, r = inr final →
       versions_of w' !! (length (versions_of w') - 1) = Some final ∧
       last out = Some (Approved (length (versions_of w'))) ∧
       length (stdin w') < length (stdin w)) ∧
  (∀ fuel rest,
     stdin w = "1" :: rest →
     approval_loop (S fuel) topic report_parts w
       = Some ({| stdin := rest;
                  stdout := stdout w ++ [Menu options; Approved (length (versions_of w))];
                  self := self w |},
               inr report_parts)) ∧
  (∀ fuel rewrite_choice rest,
     stdin w = "2" :: rewrite_choice :: rest →
     ∃ w1 r,
       approval_turn topic report_parts w = Some (w1, r) ∧
       match r with
       | inl e =>
           versions_of w1 = versions_of w ∧
           approval_loop (S fuel) topic report_parts w = Some (w1, inl e)
       | inr (Return _) => False
       | inr (Continue new_report_parts) =>
           versions_of w1 = versions_of w ++ [new_report_parts] ∧
           last (stdout w1) = Some (Rewritten (S (length (versions_of w)))) ∧
           approval_loop (S fuel) topic report_parts w
             = approval_loop fuel topic new_report_parts w1
       end) ∧
  (∀ fuel key rest,
     stdin w = "3" :: key :: rest →
     approval_loop (S fuel) topic report_parts w
       = approval_loop fuel topic report_parts
           {| stdin := rest;
              stdout := stdout w ++ [Menu options; FullReport report_parts];
              self := self w |}) ∧
  (∃ a' r out,
     get_report_approval session_id topic report_parts a = Some (a', r) ∧
     sent a' = sent a ++ ReportApprovalRequest topic 1 report_parts :: out ∧
     counts_from 1 (Some report_parts) out ∧
     report_versions (workflow a') = report_versions (workflow a) ∧
     ∀ final, r = inr final →
       snd <$> last (presented (ReportApprovalRequest topic 1 report_parts :: out))
         = Some final ∧
       last out = Some (Progress report_approved) ∧
       length (inbox a') < length (inbox a)) ∧
  (∀ fuel version current_report new_report a1 response,
     wait_for_response session_id REPORT_APPROVAL
       {| inbox := inbox a;
          sent := sent a ++ [ReportApprovalRequest topic version current_report];
          globals := globals a; workflow := workflow a |} = Some (a1, inr response) →
     let loop :=
       report_approval_loop session_id (S fuel) topic version current_report new_report a in
     (py_get response "action" JNull = JStr "approve" →
      loop = Some ({| inbox := inbox a1; sent := sent a1 ++ [Progress report_approved];
                      globals := globals a1; workflow := workflow a1 |},
                   inr current_report)) ∧
     (py_get response "action" JNull = JStr "view_full" →
      loop = report_approval_loop session_id fuel topic version current_report new_report a1) ∧
     (py_get response "action" JNull = JStr "rewrite" →
      ∃ a2 r,
        apply_decision topic version current_report new_report response a1 = Some (a2, r) ∧
        match r with
        | inl e => loop = Some (a2, inl e)
        | inr (Approve _) => False
        | inr (Present version' current_report' new_report') =>
            version' = (version + 1)%Z ∧ new_report' = Some current_report' ∧
            last (sent a2) = Some (Progress (rewrite_completed (version + 1))) ∧
            loop = report_approval_loop session_id fuel topic (version + 1)
                     current_report' new_report' a2
        end)).
Proof.
  intros options. repeat apply conj.
  - intros Hfresh.
    destruct (final_report_approval_spec topic report_parts w)
      as (w' & r & out & added & Hrun & Hout & Hver & Hann & Hfinal).
    rewrite Hfresh in Hver, Hann. simpl in Hver, Hann.
    exists w', r, out. rewrite Hver. simpl.
    split; [done|]. split; [done|]. split; [done|]. split; [done|].
    intros final ->. rewrite final_report_approval_run in Hrun.
    apply approval_loop_returns in Hrun as [Hlen Hlast]. simpl in Hlen.
    split; [|split; [|done]].
    + specialize (Hfinal final eq_refl). rewrite Hver, last_lookup in Hfinal.
      simpl in Hfinal. by rewrite Nat.sub_0_r.
    + rewrite Hout, Hver, last_app in Hlast. simpl in Hlast.
      destruct (last out) as [p|] eqn:Hp; [done|].
      apply last_None in Hp. subst out. discriminate Hann.
  - intros fuel rest Hin. simpl. unfold bind at 1.
    unfold approval_turn. simpl. unfold bind at 1. simpl. unfold bind at 1. simpl.
    unfold bind at 1. unfold safe_input at 1. simpl. rewrite Hin. simpl.
    unfold ret. by rewrite <- app_assoc.
  - intros fuel rewrite_choice rest Hin.
    destruct (rewrite_turn topic report_parts w rewrite_choice rest Hin)
      as (w1 & r & Hrun & Hr).
    exists w1, r. split; [done|].
    assert (approval_loop (S fuel) topic report_parts w
            = match r with
              | inl e => Some (w1, inl e)
              | inr (Return report) => Some (w1, inr report)
              | inr (Continue report) => approval_loop fuel topic report w1
              end) as Hloop.
    { simpl. unfold bind at 1. rewrite Hrun. by destruct r as [e|[report|report]]. }
    destruct r as [e|[report|report]]; [done|done|]. by destruct Hr.
  - intros fuel key rest Hin. simpl. unfold bind at 1.
    unfold approval_turn. simpl. unfold bind at 1. simpl. unfold bind at 1. simpl.
    unfold bind at 1. unfold safe_input at 1. simpl. rewrite Hin. simpl.
    by rewrite <- app_assoc.
  - unfold get_report_approval, bind, gets.
    apply report_approval_loop_spec. lia.
  - intros fuel version current_report new_report a1 response Hwait loop.
    assert (loop = bind (apply_decision topic version current_report new_report response)
                     (fun round =>
                        match round with
                        | Approve report => ret report
                        | Present version' current_report' new_report' =>
                            report_approval_loop session_id fuel topic version'
                              current_report' new_report'
                        end) a1) as ->.
    { subst loop. simpl. unfold bind at 1.
      unfold report_approval_turn, bind at 1, send_json at 1, modify. simpl.
      unfold bind at 1. rewrite Hwait. unfold bind.
      by destruct (apply_decision _ _ _ _ _ a1) as [[a2 [e|round]]|]. }
    unfold bind. repeat apply conj.
    + intros Happrove. by rewrite (decision_approve _ _ _ _ _ _ Happrove).
    + intros Hview. by rewrite (decision_view_full _ _ _ _ _ _ Hview).
    + intros Hrewrite.
      destruct (decision_rewrite topic version current_report new_report response a1
                  Hrewrite) as (a2 & r & Hdecide & Hr).
      exists a2, r. split; [done|]. rewrite Hdecide.
      destruct r as [e|[report|version' current' new']]; [done|done|].
      by destruct Hr as (-> & -> & Hlast).
Qed.
End ApprovalVersions.

(** C7, counterexample: the scenario of the specification over the
    WebSocket.  The operator asks for a rewrite with feedback and then
    approves: the loop presents the versions 1 and 2 and the research ends
    with the second draft, but the version history of the instance has no
    entry at all, neither at the end nor at any time before. *)
Lemma approval_history_counterexample :
  ∃ a',
    @run_interactive_research (scripted [] []) "s" (example_task true) scenario_app
      = Some (a', inr ()) ∧
    (presented (sent a')).*1 = [1; 2]%Z ∧
    length (report_versions (workflow a')) = 0 ∧
    ∃ a'' final,
      @get_report_approval (scripted [] []) "s" "X" first_draft
        (example_app scenario_decisions) = Some (a'', inr final) ∧
      (presented (sent a'')).*1 = [1; 2]%Z ∧
      final ≠ first_draft ∧
      length (report_versions (workflow a'')) = 0.
Proof.
  eexists. split; [by vm_compute|]. split; [by vm_compute|]. split; [by vm_compute|].
  eexists _, _. split; [by vm_compute|]. split; [by vm_compute|]. split; by vm_compute.
Qed.

(** Three rewrites, with the full report asked for in between, then
    approval, over the WebSocket: the versions 1, 2, 2, 3 and 4 are
    presented and the fourth draft is returned. *)
Lemma three_rewrites_then_approval_websocket :
  ∃ a' final,
    @get_report_approval (scripted [] []) "s" "X" first_draft
      (example_app
         [Message 3 "s" REPORT_APPROVAL
            (<[ "action" := JStr "rewrite" ]> {[ "rewrite_type" := JStr "complete" ]});
          Message 3 "s" REPORT_APPROVAL {[ "action" := JStr "view_full" ]};
          Message 3 "s" REPORT_APPROVAL
            (<[ "action" := JStr "rewrite" ]> {[ "feedback" := JStr "add cost analysis" ]});
          Message 3 "s" REPORT_APPROVAL {[ "action" := JStr "rewrite" ]};
          Message 3 "s" REPORT_APPROVAL {[ "action" := JStr "approve" ]}])
      = Some (a', inr final) ∧
    (presented (sent a')).*1 = [1; 2; 2; 3; 4]%Z ∧
    snd <$> last (presented (sent a')) = Some final ∧
    inbox a' = [].
Proof.
  eexists _, _. split; [by vm_compute|]. split; [by vm_compute|]. split; by vm_compute.
Qed.

Lemma approval_loop_versions_witness :
  (let w := review_console ["2"; "2"; "add cost analysis"; "3"; ""; "1"] in
   ∃ w' r out,
     @_get_final_report_approval (scripted [] []) "X" first_draft w = Some (w', r) ∧
     stdout w' = stdout w ++ out ∧
     announced out = seq 1 (length (versions_of w')) ∧
     versions_of w' !! 0 = Some first_draft ∧
     ∀ final, r = inr final →
       versions_of w' !! (length (versions_of w') - 1) = Some final ∧
       last out = Some (Approved (length (versions_of w'))) ∧
       length (stdin w') < length (stdin w)) ∧
  @approval_loop (scripted [] []) 1 "X" first_draft (presented_console ["1"])
    = Some ({| stdin := []; stdout := [Menu 3; Approved 1];
               self := self (presented_console ["1"]) |}, inr first_draft) ∧
  (let w := presented_console ["2"; "2"; ""; "1"] in
   ∃ w1 r,
     @approval_turn (scripted [] []) "X" first_draft w = Some (w1, r) ∧
     match r with
     | inl e =>
         versions_of w1 = versions_of w ∧
         @approval_loop (scripted [] []) 2 "X" first_draft w = Some (w1, inl e)
     | inr (Return _) => False
     | inr (Continue new_report_parts) =>
         versions_of w1 = versions_of w ++ [new_report_parts] ∧
         last (stdout w1) = Some (Rewritten 2) ∧
         @approval_loop (scripted [] []) 2 "X" first_draft w
           = @approval_loop (scripted [] []) 1 "X" new_report_parts w1
     end) ∧
  @approval_loop (scripted [] []) 2 "X" first_draft (presented_console ["3"; ""; "1"])
    = @approval_loop (scripted [] []) 1 "X" first_draft
        {| stdin := ["1"]; stdout := [Menu 3; FullReport first_draft];
           self := self (presented_console ["3"; ""; "1"]) |} ∧
  (let a := example_app scenario_decisions in
   ∃ a' r out,
     @get_report_approval (scripted [] []) "s" "X" first_draft a = Some (a', r) ∧
     sent a' = sent a ++ ReportApprovalRequest "X" 1 first_draft :: out ∧
     counts_from 1 (Some first_draft) out ∧
     report_versions (workflow a') = report_versions (workflow a) ∧
     ∀ final, r = inr final →
       snd <$> last (presented (ReportApprovalRequest "X" 1 first_draft :: out))
         = Some final ∧
       last out = Some (Progress report_approved) ∧
       length (inbox a') < length (inbox a)) ∧
  (∃ a1,
     @report_approval_loop (scripted [] []) "s" 1 "X" 1 first_draft None
       (example_app [Message 3 "s" REPORT_APPROVAL {[ "action" := JStr "approve" ]}])
       = Some ({| inbox := inbox a1; sent := sent a1 ++ [Progress report_approved];
                  globals := globals a1; workflow := workflow a1 |}, inr first_draft) ∧
     sent a1 = [ReportApprovalRequest "X" 1 first_draft] ∧ inbox a1 = []) ∧
  (∃ a1,
     @report_approval_loop (scripted [] []) "s" 2 "X" 1 first_draft None
       (example_app [Message 3 "s" REPORT_APPROVAL {[ "action" := JStr "view_full" ]};
                     Message 3 "s" REPORT_APPROVAL {[ "action" := JStr "approve" ]}])
       = @report_approval_loop (scripted [] []) "s" 1 "X" 1 first_draft None a1 ∧
     sent a1 = [ReportApprovalRequest "X" 1 first_draft] ∧ length (inbox a1) = 1) ∧
  (let a := example_app [Message 3 "s" REPORT_APPROVAL {[ "action" := JStr "rewrite" ]};
                         Message 3 "s" REPORT_APPROVAL {[ "action" := JStr "approve" ]}] in
   ∃ a1 a2 r,
     @apply_decision (scripted [] []) "X" 1 first_draft None
       {[ "action" := JStr "rewrite" ]} a1 = Some (a2, r) ∧
     match r with
     | inl e =>
         @report_approval_loop (scripted [] []) "s" 2 "X" 1 first_draft None a
           = Some (a2, inl e)
     | inr (Approve _) => False
     | inr (Present version' current_report' new_report') =>
         version' = 2%Z ∧ new_report' = Some current_report' ∧
         last (sent a2) = Some (Progress (rewrite_completed 2)) ∧
         @report_approval_loop (scripted [] []) "s" 2 "X" 1 first_draft None a
           = @report_approval_loop (scripted [] []) "s" 1 "X" 2
               current_report' new_report' a2
     end).
Proof.
  pose proof (@approval_loop_versions (scripted [] []) "s" "X" first_draft
                (review_console ["2"; "2"; "add cost analysis"; "3"; ""; "1"])
                (example_app scenario_decisions)) as (Hconsole & _ & _ & _ & Hweb & _).
  pose proof (@approval_loop_versions (scripted [] []) "s" "X" first_draft
                (presented_console ["1"])
                (example_app [Message 3 "s" REPORT_APPROVAL {[ "action" := JStr "approve" ]}]))
    as (_ & Happrove & _ & _ & _ & Hweb_approve).
  pose proof (@approval_loop_versions (scripted [] []) "s" "X" first_draft
                (presented_console ["2"; "2"; ""; "1"])
                (example_app
                   [Message 3 "s" REPORT_APPROVAL {[ "action" := JStr "rewrite" ]};
                    Message 3 "s" REPORT_APPROVAL {[ "action" := JStr "approve" ]}]))
    as (_ & _ & Hrewrite & _ & _ & Hweb_rewrite).
  pose proof (@approval_loop_versions (scripted [] []) "s" "X" first_draft
                (presented_console ["3"; ""; "1"])
                (example_app
                   [Message 3 "s" REPORT_APPROVAL {[ "action" := JStr "view_full" ]};
                    Message 3 "s" REPORT_APPROVAL {[ "action" := JStr "approve" ]}]))
    as (_ & _ & _ & Hview & _ & Hweb_view).
  split; [by apply Hconsole|].
  split; [by apply (Happrove 0 [])|].
  split; [by apply (Hrewrite 1 "2" [""; "1"])|].
  split; [by apply (Hview 1 "" ["1"])|].
  split; [exact Hweb|].
  split; [|split].
  - eassert (wait_for_response "s" REPORT_APPROVAL _ = Some (_, inr _)) as Hwait;
      [|eexists; split;
        [apply (proj1 (Hweb_approve 0 1%Z first_draft None _ _ Hwait))|]].
    + vm_compute. reflexivity.
    + vm_compute. reflexivity.
    + split; reflexivity.
  - eassert (wait_for_response "s" REPORT_APPROVAL _ = Some (_, inr _)) as Hwait;
      [|eexists; split;
        [apply (proj1 (proj2 (Hweb_view 1 1%Z first_draft None _ _ Hwait)))|]].
    + vm_compute. reflexivity.
    + vm_compute. reflexivity.
    + split; reflexivity.
  - eassert (wait_for_response "s" REPORT_APPROVAL _ = Some (_, inr _)) as Hwait;
      [|eexists; apply (proj2 (proj2 (Hweb_rewrite 1 1%Z first_draft None _ _ Hwait)))].
    + vm_compute. reflexivity.
    + vm_compute. reflexivity.
Defined.

(** ** Decisions the loops do not know *)

Section ApprovalClaims.
Context `{Collaborators}.
Variable session_id : string.

(** C8 (as the code has it): a choice that the console menu does not offer
    leaves the draft, the version and the history as they are, prints a line
    that says so and goes round again; a rewrite whose way of rewriting is
    not one of the two offered prints a line that says so, writes a plain new
    draft from the interviews at hand and records it as the next version;
    over the WebSocket an action other than approve, rewrite and view_full
    changes nothing, sends nothing and goes round again. *)
Theorem malformed_decisions topic report_parts w :
  (∀ choice rest,
     stdin w = choice :: rest →
     choice ≠ "1" → choice ≠ "2" → choice ≠ "3" →
     choice ≠ "4" ∨ length (versions_of w) ≤ 1 →
     let options := if bool_decide (1 < length (versions_of w)) then 4 else 3 in
     approval_turn topic report_parts w
       = Some ({| stdin := rest;
                  stdout := stdout w ++ [Menu options; InvalidChoice options];
                  self := self w |},
               inr (Continue report_parts))) ∧
  (∀ rewrite_choice rest new_report_parts,
     stdin w = "2" :: rewrite_choice :: rest →
     rewrite_choice ≠ "1" → rewrite_choice ≠ "2" →
     _write_report topic (current_interviews (self w)) = inr new_report_parts →
     let options := if bool_decide (1 < length (versions_of w)) then 4 else 3 in
     approval_turn topic report_parts w
       = Some ({| stdin := rest;
                  stdout := stdout w ++ [Menu options; RewriteMenu; InvalidRewriteChoice;
                                         Rewritten (S (length (versions_of w)))];
                  self := append_version new_report_parts (self w) |},
               inr (Continue new_report_parts))) ∧
  (∀ version current_report new_report response a,
     py_eq_str (py_get response "action" JNull) "approve" = false →
     py_eq_str (py_get response "action" JNull) "rewrite" = false →
     py_eq_str (py_get response "action" JNull) "view_full" = false →
     apply_decision topic version current_report new_report response a
       = Some (a, inr (Present version current_report new_report))).
Proof.
  repeat apply conj.
  - intros choice rest Hin H1 H2 H3 H4 options.
    apply String.eqb_neq in H1, H2, H3.
    unfold approval_turn. simpl. unfold bind at 1. simpl. unfold bind at 1. simpl.
    unfold bind at 1. unfold safe_input at 1. simpl. rewrite Hin, H1, H2, H3.
    assert (String.eqb choice "4" && bool_decide (1 < length (report_versions (self w)))
            = false) as ->.
    { destruct H4 as [H4|H4].
      - apply String.eqb_neq in H4. by rewrite H4.
      - rewrite bool_decide_eq_false_2, andb_false_r; [done|]. unfold versions_of in H4. lia. }
    simpl. unfold bind, print, modify, ret. simpl. by rewrite <- app_assoc.
  - intros rewrite_choice rest new_report_parts Hin H1 H2 Hwrite options.
    apply String.eqb_neq in H1, H2.
    unfold approval_turn. simpl. unfold bind at 1. simpl. unfold bind at 1. simpl.
    unfold bind at 1. unfold safe_input at 1. simpl. rewrite Hin. simpl.
    unfold bind at 1. simpl. unfold bind at 1. unfold safe_input at 1. simpl.
    unfold bind at 1. unfold rewrite_report. rewrite H1, H2.
    unfold bind at 1. simpl. unfold bind at 1. simpl. rewrite Hwrite.
    unfold bind, lift, on_self, gets, print, modify, ret. simpl.
    unfold versions_of. rewrite length_app, Nat.add_1_r, <- !app_assoc. done.
  - intros version current_report new_report response a Happrove Hrewrite _.
    by apply decision_unrecognized.
Qed.
End ApprovalClaims.

(** Three rewrites (a whole new research, one with feedback, one without),
    the full report shown in between, then approval: four versions, and the
    fourth is returned. *)
Lemma three_rewrites_then_approval :
  ∃ w' final,
    @_get_final_report_approval (scripted [] []) "X" first_draft
      (review_console ["2"; "1"; "2"; "2"; "add cost analysis"; "3"; ""; "2"; "2"; ""; "1"])
      = Some (w', inr final) ∧
    length (versions_of w') = 4 ∧
    versions_of w' !! 3 = Some final ∧
    announced (stdout w') = [1; 2; 3; 4].
Proof.
  eexists _, _. split; [by vm_compute|]. split; [by vm_compute|].
  split; by vm_compute.
Qed.

(** C8, counterexample: the operator asks for a rewrite and then picks a way
    of rewriting that is not on offer.  The console loop does not stay at
    version 1: it records a second version.  Over the WebSocket an unknown
    action is followed by no message at all. *)
Lemma malformed_decisions_counterexample :
  (∃ w' final,
     @_get_final_report_approval (scripted [] []) "X" first_draft
       (review_console ["2"; "7"; "1"]) = Some (w', inr final) ∧
     length (versions_of w') = 2 ∧
     announced (stdout w') = [1; 2] ∧
     InvalidRewriteChoice ∈ stdout w') ∧
  @apply_decision (scripted [] []) "X" 1 first_draft None {[ "action" := JStr "publish" ]}
    (example_app []) = Some (example_app [], inr (Present 1 first_draft None)).
Proof.
  split; [|by vm_compute].
  eexists _, _. split; [by vm_compute|]. split; [by vm_compute|]. split; [by vm_compute|].
  vm_compute. set_solver.
Qed.

Lemma malformed_decisions_witness :
  (let w := presented_console ["5"; "1"] in
   @approval_turn (scripted [] []) "X" first_draft w
     = Some ({| stdin := ["1"]; stdout := [Menu 3; InvalidChoice 3]; self := self w |},
             inr (Continue first_draft))) ∧
  (let w := presented_console ["2"; "7"; "1"] in
   @approval_turn (scripted [] []) "X" first_draft w
     = Some ({| stdin := ["1"];
                stdout := [Menu 3; RewriteMenu; InvalidRewriteChoice; Rewritten 2];
                self := append_version first_draft (self w) |},
             inr (Continue first_draft))) ∧
  @apply_decision (scripted [] []) "X" 1 first_draft None {[ "action" := JStr "publish" ]}
    (example_app []) = Some (example_app [], inr (Present 1 first_draft None)).
Proof.
  pose proof (@malformed_decisions (scripted [] []) "X" first_draft
                (presented_console ["5"; "1"])) as (Hchoice & _ & _).
  pose proof (@malformed_decisions (scripted [] []) "X" first_draft
                (presented_console ["2"; "7"; "1"])) as (_ & Hrewrite & _).
  pose proof (@malformed_decisions (scripted [] []) "X" first_draft
                (presented_console [])) as (_ & _ & Haction).
  split; [|split].
  - apply (Hchoice "5" ["1"]); [reflexivity|done|done|done|].
    right. simpl. lia.
  - apply (Hrewrite "7" ["1"] first_draft); [reflexivity|done|done|reflexivity].
  - apply Haction; reflexivity.
Defined.

(** C9 (as the code has it): after the rewrite with feedback and the approval
    the approved report is version 2 and the instance holds five analysts and
    five interviews, but the result is built from the variables bound before
    the approval loop: four analysts and four interviews on the console, four
    analysts and an interview count of four over the WebSocket (where the
    instance was never given the four analysts and ends with the additional
    one alone). *)
Theorem feedback_analyst_not_in_result :
  (∃ w' result,
     @_run_interactive_research (scripted [] []) (example_task true) scenario_console
       = Some (w', inr result) ∧
     analysts result = numbered_analysts 4 ∧
     length (interviews result) = 4 ∧
     current_analysts (self w') = numbered_analysts 4 ++ [analyst_named "feedback analyst"] ∧
     length (current_interviews (self w')) = 5 ∧
     length (versions_of w') = 2 ∧
     main_content result = "report with feedback") ∧
  (∃ a' report,
     @run_interactive_research (scripted [] []) "s" (example_task true) scenario_app
       = Some (a', inr ()) ∧
     last (sent a') = Some (Result "X" (numbered_analysts 4) 4 report) ∧
     report = "report with feedback" ∧
     current_analysts (workflow a') = [analyst_named "feedback analyst"]).
Proof.
  split.
  - eexists _, _. split; [by vm_compute|]. split; [by vm_compute|].
    split; [by vm_compute|]. split; [by vm_compute|]. split; [by vm_compute|].
    split; by vm_compute.
  - eexists _, _. split; [by vm_compute|]. split; [by vm_compute|].
    split; by vm_compute.
Qed.

(** ** Where the result of the research comes from *)

Section ResultOrigin.
Context `{Collaborators}.

(** Whatever the operator decides in the approval loop, the analysts and the
    interviews of the [ResearchResult] are those of the first round. *)
Lemma interactive_result_from_first_round task w w' result :
  _run_interactive_research task w = Some (w', inr result) →
  ∃ count,
    _generate_analysts_with_diverse_tools (with_max_analysts count task)
      = inr (analysts result) ∧
    _conduct_interviews (analysts result) (with_max_analysts count task)
      = inr (interviews result).
Proof.
  unfold _run_interactive_research. unfold bind at 1.
  unfold _get_analyst_count_from_user, reading.
  destruct (analyst_count_loop _ _) as [[out rest] [e|count]]; [discriminate|].
  unfold bind at 1. simpl. unfold bind at 1. unfold lift at 1.
  destruct (_generate_analysts_with_diverse_tools _) as [e|l] eqn:Hl; [discriminate|].
  unfold bind at 1. simpl. unfold bind at 1. unfold lift at 1.
  destruct (_conduct_interviews l _) as [e|rs] eqn:Hrs; [discriminate|].
  unfold bind at 1. simpl. unfold bind at 1. unfold lift at 1.
  destruct (_write_report _ rs) as [e|report_parts]; [discriminate|].
  unfold bind at 1.
  destruct (_get_final_report_approval _ _ _) as [[w1 [e|final]]|]; try discriminate.
  unfold ret. intros [= <- <-]. simpl. by exists count.
Qed.
End ResultOrigin.

(** ** The research always comes to an end *)

Section Termination.
Context `{Collaborators}.
Variable session_id : string.

Lemma interactive_research_ends task w :
  ∃ w' r, _run_interactive_research task w = Some (w', r).
Proof.
  unfold _run_interactive_research. unfold bind at 1.
  unfold _get_analyst_count_from_user, reading.
  destruct (analyst_count_loop _ _) as [[out rest] [e|count]]; [by eexists _, _|].
  unfold bind at 1. simpl. unfold bind at 1. unfold lift at 1.
  destruct (_generate_analysts_with_diverse_tools _) as [e|l]; [by eexists _, _|].
  unfold bind at 1. simpl. unfold bind at 1. unfold lift at 1.
  destruct (_conduct_interviews l _) as [e|rs]; [by eexists _, _|].
  unfold bind at 1. simpl. unfold bind at 1. unfold lift at 1.
  destruct (_write_report _ rs) as [e|report_parts]; [by eexists _, _|].
  unfold bind at 1.
  match goal with
  | |- context [_get_final_report_approval ?t ?p ?w1] =>
      destruct (final_report_approval_spec t p w1) as (w2 & r & _ & _ & Hrun & _)
  end.
  rewrite Hrun. destruct r; by eexists _, _.
Qed.

(** In the WebSocket backend too a unit that raises makes the interview step
    raise, in both modes. *)
Lemma interviews_with_updates_unit_failure l task a e w :
  a ∈ l →
  _conduct_single_interview a (max_interview_turns task) = inl e →
  ∃ w' e', interviews_with_updates l task w = Some (w', inl e').
Proof.
  intros Ha Hfail. unfold interviews_with_updates.
  destruct (parallel_interviews task).
  - destruct (gather_one_fails
                (fun a => _conduct_single_interview a (max_interview_turns task))
                l (completion_order l) a e Ha Hfail) as [e' He'].
    destruct (gather _ l (completion_order l)) as [log r]. simpl in He'. subst r.
    by eexists _, _.
  - destruct (await_each_one_fails
                (fun a => _conduct_single_interview a (max_interview_turns task))
                l a e Ha Hfail) as [e' He'].
    destruct (await_each _ l 0 [] []) as [log r]. simpl in He'. subst r.
    by eexists _, _.
Qed.

Lemma interviews_with_updates_ends l task w :
  ∃ w' r, interviews_with_updates l task w = Some (w', r) ∧ inbox w' = inbox w.
Proof.
  unfold interviews_with_updates. destruct (parallel_interviews task).
  - destruct (gather _ l (completion_order l)) as [log r]. by eexists _, _.
  - destruct (await_each _ l 0 [] []) as [log r]. by eexists _, _.
Qed.

Lemma research_with_count_ends analyst_count task w :
  ∃ w' r, research_with_count session_id analyst_count task w = Some (w', r).
Proof.
  unfold research_with_count.
  unfold bind at 1. simpl. unfold bind at 1. simpl. unfold bind at 1. simpl.
  unfold bind at 1. unfold lift at 1.
  destruct (_generate_analysts _) as [e|l]; [by eexists _, _|].
  unfold bind at 1. simpl. unfold bind at 1. simpl. unfold bind at 1. simpl.
  unfold bind at 1.
  match goal with
  | |- context [interviews_with_updates l ?t ?w1] =>
      destruct (interviews_with_updates_ends l t w1) as (w2 & r & Hrun & _)
  end.
  rewrite Hrun. destruct r as [e|rs]; [by eexists _, _|].
  unfold bind at 1. simpl. unfold bind at 1. simpl. unfold bind at 1. simpl.
  unfold bind at 1. simpl. unfold bind at 1. unfold lift at 1.
  destruct (_write_report _ rs) as [e|report_parts]; [by eexists _, _|].
  unfold bind at 1. simpl. unfold bind at 1.
  match goal with
  | |- context [get_report_approval session_id ?t ?p ?w1] =>
      destruct (get_report_approval_ends session_id t p w1) as (w3 & r & Hrun')
  end.
  rewrite Hrun'. destruct r as [e|final]; by eexists _, _.
Qed.

Lemma run_interactive_research_ends task w :
  ∃ w' r, run_interactive_research session_id task w = Some (w', r).
Proof.
  unfold run_interactive_research. rewrite research_steps_run, get_analyst_count_run.
  simpl. destruct (wait_for _ _ _ _) as [[inbox' g2] [response| |]].
  - match goal with
    | |- context [research_with_count session_id ?c task ?w1] =>
        destruct (research_with_count_ends c task w1) as (w2 & r & Hrun)
    end.
    rewrite Hrun. destruct r as [e|[]]; [|by eexists _, _].
    destruct (is_Exception e); by eexists _, _.
  - by eexists _, _.
  - by eexists _, _.
Qed.
End Termination.

(** * The rest of the request/response correlation *)

(** ** Keys *)

Lemma list_ascii_of_string_app (s1 s2 : string) :
  String.list_ascii_of_string (s1 +:+ s2)
    = String.list_ascii_of_string s1 ++ String.list_ascii_of_string s2.
Proof. induction s1 as [|c s1 IH]; simpl; [done|by rewrite IH]. Qed.

Lemma list_ascii_of_string_inj (s1 s2 : string) :
  String.list_ascii_of_string s1 = String.list_ascii_of_string s2 → s1 = s2.
Proof.
  intros Heq. rewrite <- (String.string_of_list_ascii_of_string s1), Heq.
  apply String.string_of_list_ascii_of_string.
Qed.

Lemma response_key_inj s1 t1 s2 t2 :
  response_key s1 t1 = response_key s2 t2 → s1 = s2 ∧ t1 = t2.
Proof.
  unfold response_key. intros Heq.
  apply (f_equal String.list_ascii_of_string) in Heq.
  rewrite !list_ascii_of_string_app in Heq.
  assert (t1 = t2) as <-.
  { destruct t1, t2; try done; exfalso; simpl in Heq;
      repeat match type of Heq with
             | context [?l ++ ?a :: ?b :: ?rest] =>
                 change (l ++ a :: b :: rest) with (l ++ [a] ++ b :: rest) in Heq;
                 rewrite (app_assoc l [a]) in Heq
             end;
      apply app_inj_tail in Heq as [_ Hc]; discriminate Hc. }
  split; [|done]. apply app_inv_tail in Heq. by apply list_ascii_of_string_inj.
Qed.

(** X1: the key [f"{session_id}_{response_type}"] determines the session and
    the kind of response: two Asks share a key only if they are Asks of the
    same session for the same kind. *)
Theorem response_key_injective s1 t1 s2 t2 :
  response_key s1 t1 = response_key s2 t2 ↔ s1 = s2 ∧ t1 = t2.
Proof.
  split; [apply response_key_inj|]. by intros [-> ->].
Qed.

Lemma response_key_injective_witness : "s1" = "s1" ∧ REPORT_APPROVAL = REPORT_APPROVAL.
Proof.
  apply (proj1 (response_key_injective "s1" REPORT_APPROVAL "s1" REPORT_APPROVAL)).
  reflexivity.
Defined.

(** ** An Ask among other traffic *)

Lemma wait_for_resolved future timeout events g data :
  futures g !! future = Some (FutResult data) →
  wait_for future timeout events g = (events, g, Resolved data).
Proof. intros Hf. destruct events; simpl; by rewrite Hf. Qed.

Lemma wait_for_cancelled future timeout events g :
  futures g !! future = Some FutCancelled →
  wait_for future timeout events g = (events, g, Cancelled).
Proof. intros Hf. destruct events; simpl; by rewrite Hf. Qed.

Lemma wait_for_next future timeout ev events g :
  futures g !! future = Some FutPending →
  (delay_of ev < timeout)%N →
  wait_for future timeout (ev :: events) g
    = wait_for future (timeout - delay_of ev) events (websocket_endpoint ev g).
Proof.
  intros Hf Hd. simpl. rewrite Hf.
  by rewrite (proj2 (N.leb_gt timeout (delay_of ev))).
Qed.

Lemma register_outstanding session_id t g :
  futures_allocated g →
  outstanding (response_key session_id t) (length (futures g))
    (wait_for_response_register session_id t g).2.
Proof.
  intros Hall. repeat split; simpl.
  - by rewrite lookup_app_r, Nat.sub_diag by lia.
  - by rewrite lookup_insert_eq.
  - intros key' Hkey'. destruct (decide (response_key session_id t = key')) as [|Hne]; [done|].
    rewrite lookup_insert_ne in Hkey' by done.
    apply Hall in Hkey'. simpl in Hkey'. lia.
Qed.

Lemma unrelated_keeps_outstanding session_id t ev future g :
  outstanding (response_key session_id t) future g →
  unrelated session_id t ev →
  outstanding (response_key session_id t) future (websocket_endpoint ev g).
Proof.
  intros (Hfut & Hkey & Honly) Hev. destruct ev as [d s t' data|d s]; simpl in *.
  - unfold on_message.
    destruct (pending_responses g !! response_key s t') as [other|] eqn:Hother; [|done].
    assert (other ≠ future) as Hne.
    { intros ->. apply Honly in Hother. apply response_key_inj in Hother.
      destruct Hother, Hev; congruence. }
    repeat split; try done.
    destruct (pending_or_done g other) as [Hp|Hp].
    + rewrite resolve_lookup_pending by done. by rewrite decide_False.
    + by rewrite resolve_done.
  - destruct (on_disconnect_fold s g) as (Hpending & _ & _ & Hspare).
    repeat split.
    + rewrite Hspare; [done|]. intros key' Hkey'. apply Honly in Hkey'. by subst.
    + by rewrite Hpending, Hev.
    + intros key' Hkey'. rewrite Hpending in Hkey'.
      destruct (startswith key' s); [done|]. by apply Honly.
Qed.

Lemma wait_for_unrelated session_id t pre events future timeout g :
  outstanding (response_key session_id t) future g →
  Forall (unrelated session_id t) pre →
  (elapsed pre < timeout)%N →
  ∃ g', outstanding (response_key session_id t) future g' ∧
        wait_for future timeout (pre ++ events) g
          = wait_for future (timeout - elapsed pre) events g'.
Proof.
  intros Hout Hpre. revert timeout g Hout.
  induction Hpre as [|ev pre Hev _ IH]; intros timeout g Hout Ht; simpl in *.
  - exists g. by rewrite N.sub_0_r.
  - destruct (IH (timeout - delay_of ev)%N (websocket_endpoint ev g)) as (g' & Hout' & Hrun).
    { by apply unrelated_keeps_outstanding. }
    { lia. }
    exists g'. split; [done|].
    change (wait_for future timeout (ev :: pre ++ events) g
            = wait_for future (timeout - (delay_of ev + elapsed pre)) events g').
    rewrite wait_for_next; [|by destruct Hout|lia].
    rewrite Hrun. f_equal. lia.
Qed.

(** The wait of an Ask that is answered in time after unrelated traffic. *)
Lemma ask_answered session_id t g pre d data rest :
  futures_allocated g →
  Forall (unrelated session_id t) pre →
  (elapsed pre + d < 300)%N →
  ∃ g',
    wait_for (length (futures g)) 300 (pre ++ Message d session_id t data :: rest)
      (wait_for_response_register session_id t g).2 = (rest, g', Resolved data) ∧
    futures g' !! length (futures g) = Some (FutResult data).
Proof.
  intros Hall Hpre Ht.
  destruct (wait_for_unrelated session_id t pre (Message d session_id t data :: rest)
              (length (futures g)) 300
              (wait_for_response_register session_id t g).2)
    as (g' & (Hfut & Hkey & _) & ->); [by apply register_outstanding|done|lia|].
  rewrite wait_for_next by (simpl; done || lia). simpl.
  assert (futures (on_message session_id t data g') !! length (futures g)
          = Some (FutResult data)) as Hres.
  { unfold on_message. rewrite Hkey, resolve_lookup_pending by done. by rewrite decide_True. }
  exists (on_message session_id t data g'). split; [|done].
  by apply wait_for_resolved.
Qed.

(** The wait of an Ask whose own socket is lost after unrelated traffic. *)
Lemma ask_cancelled session_id t g pre d rest :
  futures_allocated g →
  Forall (unrelated session_id t) pre →
  (elapsed pre + d < 300)%N →
  ∃ g',
    wait_for (length (futures g)) 300 (pre ++ Disconnect d session_id :: rest)
      (wait_for_response_register session_id t g).2 = (rest, g', Cancelled) ∧
    session_id ∉ active_connections g'.
Proof.
  intros Hall Hpre Ht.
  destruct (wait_for_unrelated session_id t pre (Disconnect d session_id :: rest)
              (length (futures g)) 300
              (wait_for_response_register session_id t g).2)
    as (g' & (Hfut & Hkey & _) & ->); [by apply register_outstanding|done|lia|].
  rewrite wait_for_next by (simpl; done || lia). simpl.
  destruct (on_disconnect_fold session_id g') as (_ & Hactive & Hcancel & _).
  exists (on_disconnect session_id g'). split.
  - apply wait_for_cancelled. eapply Hcancel; [done|apply startswith_own_key|done].
  - rewrite Hactive. apply not_elem_of_difference. right. by apply elem_of_singleton.
Qed.

(** X2: the answer to an Ask reaches it whatever else arrives before:
    messages of other sessions or of another kind, and disconnects of
    sessions whose identifier the key does not start with.  If the answer
    comes within the 300 time units, [wait_for_response] returns its data,
    has taken the events up to the answer from the inbox, and leaves no
    entry for the key in [pending_responses]. *)
Theorem answer_reaches_ask session_id t w pre d data rest :
  futures_allocated (globals w) →
  inbox w = pre ++ Message d session_id t data :: rest →
  Forall (unrelated session_id t) pre →
  (elapsed pre + d < 300)%N →
  ∃ g',
    wait_for_response session_id t w
      = Some ({| inbox := rest; sent := sent w; globals := g'; workflow := workflow w |},
              inr data) ∧
    pending_responses g' !! response_key session_id t = None ∧
    futures g' !! length (futures (globals w)) = Some (FutResult data).
Proof.
  intros Hall Hin Hpre Ht.
  destruct (ask_answered session_id t (globals w) pre d data rest Hall Hpre Ht)
    as (g' & Hrun & Hres).
  rewrite wait_for_response_run, Hin. simpl in *. rewrite Hrun.
  eexists. split; [reflexivity|]. simpl. by rewrite lookup_delete_eq.
Qed.

Lemma answer_reaches_ask_witness :
  ∃ g',
    wait_for_response "s" ANALYST_COUNT
      (busy_app (Message 40 "s" ANALYST_COUNT {[ "count" := JInt 4 ]}))
      = Some ({| inbox := []; sent := []; globals := g'; workflow := StormWorkflow_init |},
              inr {[ "count" := JInt 4 ]}) ∧
    pending_responses g' !! response_key "s" ANALYST_COUNT = None ∧
    futures g' !! 1 = Some (FutResult {[ "count" := JInt 4 ]}).
Proof.
  apply (answer_reaches_ask "s" ANALYST_COUNT
           (busy_app (Message 40 "s" ANALYST_COUNT {[ "count" := JInt 4 ]}))
           [Message 10 "u" REPORT_APPROVAL {[ "action" := JStr "approve" ]};
            Message 20 "s" FEEDBACK {[ "feedback" := JStr "more" ]};
            Disconnect 30 "t"]
           40 {[ "count" := JInt 4 ]} []).
  - apply map_Forall_insert_2; [simpl; lia|]. apply map_Forall_empty.
  - reflexivity.
  - constructor; [by left|]. constructor; [by right|].
    constructor; [reflexivity|]. constructor.
  - reflexivity.
Defined.

(** X3: when the socket of the session itself is lost while its Ask waits,
    the Ask ends in [CancelledError], and the session is no longer among the
    active connections.  If this happens to the analyst-count Ask,
    [run_interactive_research] lets the cancellation pass: it sends no error
    message (its [except Exception] does not catch a cancellation) and no
    collaborator is asked for anything. *)
Theorem own_disconnect_cancels `{Collaborators} session_id w pre d rest :
  futures_allocated (globals w) →
  inbox w = pre ++ Disconnect d session_id :: rest →
  (elapsed pre + d < 300)%N →
  (∀ t, Forall (unrelated session_id t) pre →
     ∃ w', wait_for_response session_id t w = Some (w', inl CancelledError) ∧
           inbox w' = rest ∧
           (session_id ∉ active_connections (globals w')) ∧
           pending_responses (globals w') !! response_key session_id t = None) ∧
  (∀ task, Forall (unrelated session_id ANALYST_COUNT) pre →
     ∃ w', run_interactive_research session_id task w = Some (w', inl CancelledError) ∧
           sent w' = sent w ++ [Progress research_starting;
                                AnalystCountRequest (max_analysts task)] ∧
           workflow w' = workflow w).
Proof.
  intros Hall Hin Ht. split.
  - intros t Hpre.
    destruct (ask_cancelled session_id t (globals w) pre d rest Hall Hpre Ht)
      as (g' & Hrun & Hgone).
    rewrite wait_for_response_run, Hin. simpl in *. rewrite Hrun.
    eexists. split; [reflexivity|]. simpl. split; [done|]. split; [done|].
    by rewrite lookup_delete_eq.
  - intros task Hpre.
    destruct (ask_cancelled session_id ANALYST_COUNT (globals w) pre d rest Hall Hpre Ht)
      as (g' & Hrun & Hgone).
    unfold run_interactive_research. rewrite research_steps_run, get_analyst_count_run.
    simpl in *. rewrite Hin, Hrun. simpl.
    eexists. split; [reflexivity|]. simpl. by rewrite <- app_assoc.
Qed.

Lemma own_disconnect_cancels_witness :
  (∃ w', wait_for_response "s" REPORT_APPROVAL (busy_app (Disconnect 40 "s"))
           = Some (w', inl CancelledError) ∧
         inbox w' = [] ∧
         ("s" ∉ active_connections (globals w')) ∧
         pending_responses (globals w') !! response_key "s" REPORT_APPROVAL = None) ∧
  (∃ w', @run_interactive_research (scripted [] []) "s" (example_task true)
           (busy_app (Disconnect 40 "s")) = Some (w', inl CancelledError) ∧
         sent w' = sent (busy_app (Disconnect 40 "s"))
                     ++ [Progress research_starting; AnalystCountRequest (JInt 2)] ∧
         workflow w' = workflow (busy_app (Disconnect 40 "s"))).
Proof.
  assert (futures_allocated (globals (busy_app (Disconnect 40 "s")))) as Hall.
  { apply map_Forall_insert_2; [simpl; lia|]. apply map_Forall_empty. }
  pose proof (@own_disconnect_cancels (scripted [] []) "s" (busy_app (Disconnect 40 "s"))
                [Message 10 "u" REPORT_APPROVAL {[ "action" := JStr "approve" ]};
                 Message 20 "s" FEEDBACK {[ "feedback" := JStr "more" ]};
                 Disconnect 30 "t"] 40 [] Hall eq_refl eq_refl) as [Hask Hrun].
  split.
  - apply (Hask REPORT_APPROVAL).
    constructor; [by left|]. constructor; [by right|].
    constructor; [reflexivity|]. constructor.
  - apply (Hrun (example_task true)).
    constructor; [by left|]. constructor; [by right|].
    constructor; [reflexivity|]. constructor.
Defined.

(** X4: however [wait_for_response] ends (answer, timeout or cancellation),
    its [finally] has removed the key from [pending_responses]; an answer
    that comes afterwards finds no pending request and is dropped: the
    globals stay as they are.  The wait itself sends nothing and does not
    touch the workflow instance. *)
Theorem finished_ask_leaves_no_key session_id t w :
  ∃ w' r,
    wait_for_response session_id t w = Some (w', r) ∧
    pending_responses (globals w') !! response_key session_id t = None ∧
    (∀ d data, websocket_endpoint (Message d session_id t data) (globals w') = globals w') ∧
    sent w' = sent w ∧ workflow w' = workflow w.
Proof.
  rewrite wait_for_response_run. simpl.
  destruct (wait_for _ _ _ _) as [[inbox' g2] awaited].
  eexists _, _. split; [reflexivity|]. simpl.
  assert (delete (response_key session_id t) (pending_responses g2)
            !! response_key session_id t = None) as Hgone by apply lookup_delete_eq.
  repeat split; try done.
  intros d data. unfold on_message. simpl. by rewrite Hgone.
Qed.

Lemma wait_for_messages future timeout events g :
  Forall (fun ev => is_message ev = true) events →
  futures g !! future ≠ Some FutCancelled →
  (wait_for future timeout events g).2 ≠ Cancelled.
Proof.
  intros Hev. revert timeout g.
  induction Hev as [|ev events Hmsg _ IH]; intros timeout g Hfut; simpl.
  - by destruct (futures g !! future) as [[| |]|].
  - destruct (futures g !! future) as [[| |]|] eqn:Hf; try done.
    + destruct (timeout <=? delay_of ev)%N; [done|]. apply IH.
      destruct ev as [d s t data|]; [|done]. simpl. unfold on_message.
      destruct (pending_responses g !! response_key s t) as [other|]; [|by rewrite Hf].
      destruct (pending_or_done g other) as [Hp|Hp].
      * rewrite resolve_lookup_pending by done. case_decide; [done|by rewrite Hf].
      * rewrite resolve_done by done. by rewrite Hf.
    + destruct (timeout <=? delay_of ev)%N; [done|]. apply IH.
      destruct ev as [d s t data|]; [|done]. simpl. unfold on_message.
      destruct (pending_responses g !! response_key s t) as [other|]; [|by rewrite Hf].
      destruct (pending_or_done g other) as [Hp|Hp].
      * rewrite resolve_lookup_pending by done. case_decide; [done|by rewrite Hf].
      * rewrite resolve_done by done. by rewrite Hf.
Qed.

(** X5: an Ask is cancelled only by the loss of a socket.  As long as nothing
    but messages arrives, whatever their sessions and kinds and whatever the
    globals hold, [wait_for_response] returns the data of an answer or raises
    [HTTPException(408)]. *)
Theorem ask_without_disconnect session_id t w :
  Forall (fun ev => is_message ev = true) (inbox w) →
  ∃ w' r,
    wait_for_response session_id t w = Some (w', r) ∧
    (r = inl (HTTPException 408) ∨ ∃ data, r = inr data).
Proof.
  intros Hev. rewrite wait_for_response_run. simpl.
  pose proof (wait_for_messages (length (futures (globals w))) 300 (inbox w)
                (wait_for_response_register session_id t (globals w)).2 Hev) as Hnot.
  simpl in Hnot.
  destruct (wait_for _ _ _ _) as [[inbox' g2] [data| |]]; eexists _, _;
    (split; [reflexivity|]); eauto.
  exfalso. apply Hnot; [|done]. by rewrite lookup_app_r, Nat.sub_diag by lia.
Qed.

Lemma ask_without_disconnect_witness :
  ∃ w' r,
    wait_for_response "s" ANALYST_COUNT
      (example_app [Message 10 "u" REPORT_APPROVAL {[ "action" := JStr "approve" ]};
                    Message 400 "s" ANALYST_COUNT {[ "count" := JInt 4 ]}])
      = Some (w', r) ∧
    (r = inl (HTTPException 408) ∨ ∃ data, r = inr data).
Proof.
  apply (ask_without_disconnect "s" ANALYST_COUNT).
  repeat constructor.
Defined.

(** * The rest of the console *)

Section ConsoleBounds.
Context `{Collaborators}.

Lemma analyst_count_loop_bounds default_count lines :
  match analyst_count_loop default_count lines with
  | (out, rest, r) =>
      Forall is_count_complaint out ∧
      match r with
      | inr count =>
          count_in_range default_count count ∧
          length lines = S (length out) + length rest
      | inl e => e = EOFError ∧ rest = [] ∧ length out = length lines
      end
  end.
Proof.
  induction lines as [|line rest IH]; simpl; [done|].
  destruct (String.eqb line ""); [repeat split; [constructor | by left]|].
  destruct (py_int line) as [count|].
  - destruct ((1 <=? count)%Z && (count <=? 10)%Z) eqn:Hrange.
    + repeat split; [constructor|]. right. exists count. split; [done|].
      apply andb_true_iff in Hrange. lia.
    + destruct (analyst_count_loop default_count rest) as [[out rest'] r].
      destruct IH as [Hout Hr]. split; [constructor; [by left|done]|].
      destruct r as [e|accepted].
      * destruct Hr as (-> & -> & <-). done.
      * destruct Hr as [Hcount Hlen]. split; [done|]. simpl. lia.
  - destruct (analyst_count_loop default_count rest) as [[out rest'] r].
    destruct IH as [Hout Hr]. split; [constructor; [by right|done]|].
    destruct r as [e|accepted].
    + destruct Hr as (-> & -> & <-). done.
    + destruct Hr as [Hcount Hlen]. split; [done|]. simpl. lia.
Qed.

(** X7: whatever the operator types, the count
    [_get_analyst_count_from_user] returns is the default count or an
    integer from 1 to 10.  Every line read before the accepted one is
    answered by one complaint; when the input ends before an acceptable
    line, [EOFError] is raised.  The instance is not touched. *)
Theorem analyst_count_from_user_bounds default_count w :
  ∃ w' r out,
    _get_analyst_count_from_user default_count w = Some (w', r) ∧
    self w' = self w ∧
    stdout w' = stdout w ++ AnalystCountBanner default_count :: out ∧
    Forall is_count_complaint out ∧
    match r with
    | inr count =>
        count_in_range default_count count ∧
        length (stdin w) = S (length out) + length (stdin w')
    | inl e => e = EOFError ∧ stdin w' = [] ∧ length out = length (stdin w)
    end.
Proof.
  unfold _get_analyst_count_from_user, reading.
  pose proof (analyst_count_loop_bounds default_count (stdin w)) as Hloop.
  destruct (analyst_count_loop default_count (stdin w)) as [[out rest] r].
  destruct Hloop as [Hout Hr].
  eexists _, r, out. split; [reflexivity|]. simpl. done.
Qed.

(** Every version the loop shows in full was asked for by a line that reads
    as a number from 1 to the number of versions, and is the entry of that
    number. *)
Lemma compare_loop_asked versions lines :
  ∀ parts, VersionContent parts ∈ (compare_loop versions lines).1.1 →
    ∃ line n, line ∈ lines ∧ py_int line = Some n ∧
              (1 ≤ n ≤ Z.of_nat (length versions))%Z ∧
              versions !! Z.to_nat (n - 1) = Some parts.
Proof.
  induction lines as [lines IH] using (induction_ltof1 _ (@length string)).
  unfold ltof in IH. intros parts.
  assert (∀ rest, length rest < length lines →
            VersionContent parts ∈ (compare_loop versions rest).1.1 →
            ∀ line, ∃ line' n, line' ∈ line :: rest ∧ py_int line' = Some n ∧
                      (1 ≤ n ≤ Z.of_nat (length versions))%Z ∧
                      versions !! Z.to_nat (n - 1) = Some parts) as Hlater.
  { intros rest Hlen Hshown line.
    destruct (IH rest Hlen parts Hshown) as (line' & n & Hin & Hn).
    exists line', n. split; [by apply list_elem_of_further | done]. }
  destruct lines as [|line rest]; simpl; [by intros ?%elem_of_nil|].
  destruct (String.eqb line "0"); simpl.
  { intros [?|?%elem_of_nil]%elem_of_cons; done. }
  destruct (py_int line) as [n|] eqn:Hint.
  - destruct (if (0 <=? n - 1)%Z then versions !! Z.to_nat (n - 1) else None)
      as [selected|] eqn:Hsel.
    + assert (∃ line' n', line' ∈ line :: rest ∧ py_int line' = Some n' ∧
                (1 ≤ n' ≤ Z.of_nat (length versions))%Z ∧
                versions !! Z.to_nat (n' - 1) = Some selected) as Hasked.
      { exists line, n. destruct (0 <=? n - 1)%Z eqn:Hpos; [|done].
        apply Z.leb_le in Hpos. apply lookup_lt_Some in Hsel as Hlt.
        repeat split; [apply list_elem_of_here | done | lia | lia | done]. }
      destruct rest as [|continue_choice rest']; simpl.
      { intros [[= ->]|?%elem_of_nil]%elem_of_cons; done. }
      destruct (lower_is_y continue_choice); simpl.
      * specialize (Hlater rest').
        destruct (compare_loop versions rest') as [[out rest''] r]. simpl in *.
        intros [[= ->]|Hout]%elem_of_cons; [done|].
        destruct (Hlater ltac:(lia) Hout continue_choice) as (line' & n' & Hin & Hn).
        exists line', n'. split; [by apply list_elem_of_further | done].
      * intros [[= ->]|?%elem_of_nil]%elem_of_cons; done.
    + specialize (Hlater rest).
      destruct (compare_loop versions rest) as [[out rest'] r]. simpl in *.
      intros [?|Hout]%elem_of_cons; [done|]. apply Hlater; [lia|done].
  - specialize (Hlater rest).
    destruct (compare_loop versions rest) as [[out rest'] r]. simpl in *.
    intros [?|Hout]%elem_of_cons; [done|]. apply Hlater; [lia|done].
Qed.

(** What the loop does with a first line that reads as a number. *)
Lemma compare_loop_number versions line rest n :
  String.eqb line "0" = false → py_int line = Some n →
  ((1 ≤ n ≤ Z.of_nat (length versions))%Z →
   ∃ parts out, versions !! Z.to_nat (n - 1) = Some parts ∧
                (compare_loop versions (line :: rest)).1.1 = VersionContent parts :: out) ∧
  (¬ ((1 ≤ n)%Z ∧ (n ≤ Z.of_nat (length versions))%Z) →
   compare_loop versions (line :: rest)
     = (VersionOutOfRange (length versions) :: (compare_loop versions rest).1.1,
        (compare_loop versions rest).1.2, (compare_loop versions rest).2)).
Proof.
  intros Hzero Hint. simpl. rewrite Hzero, Hint. split.
  - intros Hrange. assert ((0 <=? n - 1)%Z = true) as -> by (apply Z.leb_le; lia).
    destruct (lookup_lt_is_Some_2 versions (Z.to_nat (n - 1))) as [parts Hparts]; [lia|].
    rewrite Hparts. destruct rest as [|continue_choice rest']; [by eexists _, _|].
    destruct (lower_is_y continue_choice); [|by eexists _, _].
    destruct (compare_loop versions rest') as [[out rest''] r]. by eexists _, _.
  - intros Hrange.
    assert ((if (0 <=? n - 1)%Z then versions !! Z.to_nat (n - 1) else None) = None) as ->.
    { destruct (0 <=? n - 1)%Z eqn:Hpos; [|done]. apply Z.leb_le in Hpos.
      apply lookup_ge_None. lia. }
    by destruct (compare_loop versions rest) as [[out rest'] r].
Qed.

(** [_compare_report_versions] by what its loop does. *)
Lemma compare_versions_run w :
  _compare_report_versions w =
    let versions := report_versions (self w) in
    let '(out, rest, r) := compare_loop versions (stdin w) in
    match r, rest with
    | inl e, _ =>
        Some ({| stdin := rest; stdout := stdout w ++ VersionSummaries versions :: out;
                 self := self w |}, inl e)
    | inr _, [] =>
        Some ({| stdin := [];
                 stdout := stdout w ++ VersionSummaries versions :: out ++ [CompareFooter];
                 self := self w |}, inl EOFError)
    | inr _, _ :: rest' =>
        Some ({| stdin := rest';
                 stdout := stdout w ++ VersionSummaries versions :: out ++ [CompareFooter];
                 self := self w |}, inr ())
    end.
Proof.
  unfold _compare_report_versions, bind, gets, reading. simpl.
  destruct (compare_loop (report_versions (self w)) (stdin w)) as [[out rest] [e|[]]];
    simpl; [done|].
  unfold print, modify, safe_input. simpl.
  destruct rest as [|line rest']; simpl; by rewrite <- app_assoc.
Qed.

(** X8: [_compare_report_versions] only reads and prints, and leaves the
    instance as it is.  Every version it shows in full was asked for by a
    line that reads as a number from 1 to len(report_versions), and is the
    entry of the history with that number.  A first line that reads as such
    a number shows that entry; one that reads as a number outside this range
    (a zero other than the string 0, or a negative number) shows nothing: the
    loop complains and goes on as it does without that line. *)
Theorem compare_versions_shows_history w :
  let versions := report_versions (self w) in
  ∃ w' r out,
    _compare_report_versions w = Some (w', r) ∧
    self w' = self w ∧
    stdout w' = stdout w ++ VersionSummaries versions :: out ∧
    length (stdin w') ≤ length (stdin w) ∧
    (∀ parts, VersionContent parts ∈ out →
       ∃ line n, line ∈ stdin w ∧ py_int line = Some n ∧
                 (1 ≤ n ≤ Z.of_nat (length versions))%Z ∧
                 versions !! Z.to_nat (n - 1) = Some parts) ∧
    (∀ line rest n,
       stdin w = line :: rest → line ≠ "0" → py_int line = Some n →
       if bool_decide (1 ≤ n ≤ Z.of_nat (length versions))%Z then
         ∃ parts out', versions !! Z.to_nat (n - 1) = Some parts ∧
                       out = VersionContent parts :: out'
       else
         ∃ out',
           out = VersionOutOfRange (length versions) :: out' ∧
           _compare_report_versions {| stdin := rest; stdout := stdout w; self := self w |}
             = Some ({| stdin := stdin w';
                        stdout := stdout w ++ VersionSummaries versions :: out';
                        self := self w |}, r)).
Proof.
  intros versions.
  assert (∀ (out : list Printed) parts,
            VersionContent parts ∈ out ++ [CompareFooter] → VersionContent parts ∈ out)
    as Hfooter.
  { intros out parts [?|[?|?%elem_of_nil]%elem_of_cons]%elem_of_app; done. }
  pose proof (compare_loop_asked versions (stdin w)) as Hasked.
  destruct (compare_loop_reads versions (stdin w)) as [_ Hlen].
  pose proof (compare_versions_run w) as Hrun. simpl in Hrun. fold versions in Hrun.
  assert (∀ line rest n,
            stdin w = line :: rest → line ≠ "0" → py_int line = Some n →
            if bool_decide (1 ≤ n ≤ Z.of_nat (length versions))%Z then
              ∃ parts out', versions !! Z.to_nat (n - 1) = Some parts ∧
                            (compare_loop versions (stdin w)).1.1 = VersionContent parts :: out'
            else
              compare_loop versions (stdin w)
                = (VersionOutOfRange (length versions) :: (compare_loop versions rest).1.1,
                   (compare_loop versions rest).1.2, (compare_loop versions rest).2))
    as Hfirst.
  { intros line rest n -> Hzero%String.eqb_neq Hint.
    destruct (compare_loop_number versions line rest n Hzero Hint) as [Hin Hout].
    case_bool_decide; [by apply Hin | by apply Hout]. }
  destruct (compare_loop versions (stdin w)) as [[out rest] r] eqn:Hloop.
  simpl in Hasked, Hlen, Hfirst.
  assert (∀ line rest0 n,
            stdin w = line :: rest0 → line ≠ "0" → py_int line = Some n →
            bool_decide (1 ≤ n ≤ Z.of_nat (length versions))%Z = false →
            ∃ out', out = VersionOutOfRange (length versions) :: out' ∧
                    compare_loop versions rest0 = (out', rest, r)) as Hskip.
  { intros line rest0 n Hin Hzero Hint Hrange.
    specialize (Hfirst line rest0 n Hin Hzero Hint). rewrite Hrange in Hfirst.
    destruct (compare_loop versions rest0) as [[out' rest'] r']. simpl in Hfirst.
    injection Hfirst as -> -> ->. by eexists. }
  destruct r as [e|[]]; [|destruct rest as [|key rest']].
  - eexists _, _, out. split; [exact Hrun|]. simpl.
    split; [done|]. split; [done|]. split; [done|]. split; [done|].
    intros line rest0 n Hin Hzero Hint. specialize (Hfirst line rest0 n Hin Hzero Hint).
    case_bool_decide as Hrange; [done|].
    destruct (Hskip line rest0 n Hin Hzero Hint) as (out' & -> & Hrest);
      [by apply bool_decide_eq_false_2|].
    exists out'. split; [done|]. rewrite compare_versions_run. simpl.
    fold versions. by rewrite Hrest.
  - eexists _, _, (out ++ [CompareFooter]). split; [exact Hrun|]. simpl.
    split; [done|]. split; [done|]. split; [lia|]. split; [by intros parts ?%Hfooter; auto|].
    intros line rest0 n Hin Hzero Hint. specialize (Hfirst line rest0 n Hin Hzero Hint).
    case_bool_decide as Hrange.
    { destruct Hfirst as (parts & out' & Hparts & ->). by eexists _, _. }
    destruct (Hskip line rest0 n Hin Hzero Hint) as (out' & -> & Hrest);
      [by apply bool_decide_eq_false_2|].
    exists (out' ++ [CompareFooter]). split; [done|]. rewrite compare_versions_run. simpl.
    fold versions. by rewrite Hrest.
  - eexists _, _, (out ++ [CompareFooter]). split; [exact Hrun|]. simpl.
    split; [done|]. split; [done|]. split; [simpl in Hlen; lia|].
    split; [by intros parts ?%Hfooter; auto|].
    intros line rest0 n Hin Hzero Hint. specialize (Hfirst line rest0 n Hin Hzero Hint).
    case_bool_decide as Hrange.
    { destruct Hfirst as (parts & out' & Hparts & ->). by eexists _, _. }
    destruct (Hskip line rest0 n Hin Hzero Hint) as (out' & -> & Hrest);
      [by apply bool_decide_eq_false_2|].
    exists (out' ++ [CompareFooter]). split; [done|]. rewrite compare_versions_run. simpl.
    fold versions. by rewrite Hrest.
Qed.
End ConsoleBounds.

(** The operator asks for version -5, for version 7 and for version 2 of a
    history of two versions: only the second entry is shown. *)
Lemma compare_versions_example :
  ∃ w',
    @_compare_report_versions (scripted [] []) (compare_console ["-5"; "7"; "2"; "n"; ""])
      = Some (w', inr ()) ∧
    stdout w' = [VersionSummaries [first_draft; first_draft];
                 VersionOutOfRange 2; VersionOutOfRange 2;
                 VersionContent first_draft; CompareFooter] ∧
    stdin w' = [].
Proof. eexists. split; [by vm_compute|]. split; by vm_compute. Qed.

(** ** What a rewrite does to the instance *)

Section RewriteWithFeedback.
Context `{Collaborators}.

Lemma Forall2_unit_analyst {R} (unit : Analyst → Exc + R) (who : R → Analyst) l rs :
  (∀ a r, unit a = inr r → who r = a) →
  Forall2 (fun a r => unit a = inr r) l rs → who <$> rs = l.
Proof.
  intros Hwho Hrs. induction Hrs as [|a r l rs Ha _ IH]; [done|].
  simpl. f_equal; [by apply Hwho | done].
Qed.

Lemma single_feedback_interview_analyst a turns feedback r :
  _conduct_single_feedback_aware_interview a turns feedback = inr r → analyst r = a.
Proof.
  unfold _conduct_single_feedback_aware_interview.
  destruct (run_feedback_interview_team a turns feedback) as [e|content]; [discriminate|].
  destruct (run_feedback_section_team a feedback content) as [e|section]; [discriminate|].
  by intros [= <-].
Qed.

Lemma feedback_interviews_aligned l task feedback rs :
  _conduct_feedback_aware_interviews l task feedback = inr rs → analyst <$> rs = l.
Proof.
  unfold _conduct_feedback_aware_interviews. intros Hrun.
  eapply (Forall2_unit_analyst
            (fun a => _conduct_single_feedback_aware_interview a
                        (max_interview_turns task) feedback)).
  { intros a r. apply single_feedback_interview_analyst. }
  destruct (parallel_interviews task).
  - destruct (gather _ l (completion_order l)) as [log [e|rs']] eqn:Hg; [discriminate|].
    injection Hrun as <-. apply (gather_returned _ l (completion_order l)).
    by rewrite Hg.
  - by apply await_each_returned.
Qed.

Lemma interviews_aligned l task rs :
  _conduct_interviews l task = inr rs → analyst <$> rs = l.
Proof.
  intros Hrs. apply conduct_interviews_returned in Hrs.
  eapply (Forall2_unit_analyst
            (fun a => _conduct_single_interview a (max_interview_turns task))); [|done].
  intros a r. apply single_interview_analyst.
Qed.

Lemma rewrite_with_feedback_aligned topic feedback s s' r :
  _rewrite_with_feedback topic feedback s = Some (s', r) → aligned s → aligned s'.
Proof.
  unfold _rewrite_with_feedback, bind, gets, lift, modify, ret. simpl.
  destruct (_generate_additional_analyst_with_feedback _ feedback (current_analysts s))
    as [e|additional_analyst]; [by intros [= <- <-]|].
  destruct (_conduct_feedback_aware_interviews _ _ feedback) as [e|interviews] eqn:Hint;
    [by intros [= <- <-]|].
  destruct (_write_feedback_aware_report topic interviews feedback) as [e|report_parts];
    [by intros [= <- <-]|].
  intros [= <- <-] _. unfold aligned. simpl. by eapply feedback_interviews_aligned.
Qed.

(** X9: [_rewrite_with_feedback] changes the instance only at its end.  When
    any of its steps raises, the instance is as before.  When it returns, the
    instance holds the analysts it held before followed by the one analyst
    made from the feedback, and one interview per analyst, in the order of
    the analysts; the report it returns was written from these interviews.
    The version history and [current_report_parts] are not touched. *)
Theorem rewrite_with_feedback_state topic feedback s :
  ∃ s' r,
    _rewrite_with_feedback topic feedback s = Some (s', r) ∧
    report_versions s' = report_versions s ∧
    current_report_parts s' = current_report_parts s ∧
    match r with
    | inl e => s' = s
    | inr report_parts =>
        ∃ additional_analyst,
          _generate_additional_analyst_with_feedback
            {| topic := topic; max_analysts := JInt 1; max_interview_turns := 3;
               parallel_interviews := true; user_feedback := Some feedback |}
            feedback (current_analysts s) = inr additional_analyst ∧
          current_analysts s' = current_analysts s ++ [additional_analyst] ∧
          analyst <$> current_interviews s' = current_analysts s' ∧
          _write_feedback_aware_report topic (current_interviews s') feedback
            = inr report_parts
    end.
Proof.
  unfold _rewrite_with_feedback, bind, gets, lift, modify, ret. simpl.
  destruct (_generate_additional_analyst_with_feedback _ feedback (current_analysts s))
    as [e|additional_analyst] eqn:Hgen.
  { by exists s, (inl e). }
  destruct (_conduct_feedback_aware_interviews _ _ feedback) as [e|interviews] eqn:Hint.
  { by exists s, (inl e). }
  destruct (_write_feedback_aware_report topic interviews feedback) as [e|report_parts] eqn:Hrep.
  { by exists s, (inl e). }
  eexists _, (inr report_parts). split; [reflexivity|]. simpl.
  split; [done|]. split; [done|]. exists additional_analyst.
  split; [done|]. split; [done|]. split; [|done].
  by eapply feedback_interviews_aligned.
Qed.

Lemma automatic_research_aligned task result :
  _run_automatic_research task = inr result →
  analyst <$> interviews result = analysts result ∧
  result_topic result = topic task ∧
  final_report result
    = _assemble_final_report
        {| part_main_content := main_content result;
           part_introduction := introduction result;
           part_conclusion := conclusion result |}.
Proof.
  unfold _run_automatic_research.
  destruct (_generate_analysts_with_diverse_tools task) as [e|l]; [discriminate|].
  destruct (_conduct_interviews l task) as [e|rs] eqn:Hrs; [discriminate|].
  destruct (_write_report (topic task) rs) as [e|[main intro concl]]; [discriminate|].
  intros [= <-]. simpl. split; [by eapply interviews_aligned|done].
Qed.
End RewriteWithFeedback.

(** ** Properties of the instance that the console keeps *)

Section Keeps.
Context {A B : Type}.
Variable P : StormWorkflow → Prop.

Lemma keeps_ret (a : A) : keeps P (ret a).
Proof. by intros w w' r [= <- <-]. Qed.

Lemma keeps_lift (x : Exc + A) : keeps P (lift x).
Proof. by intros w w' r [= <- <-]. Qed.

Lemma keeps_gets (f : Console → A) : keeps P (gets f).
Proof. by intros w w' r [= <- <-]. Qed.

Lemma keeps_bind (m : M Console A) (k : A → M Console B) :
  keeps P m → (∀ a, keeps P (k a)) → keeps P (bind m k).
Proof.
  intros Hm Hk w w' r. unfold bind.
  destruct (m w) as [[w1 [e|a]]|] eqn:Hrun; [| |done].
  - intros [= <- <-]. by eapply Hm.
  - intros Hrun' HP. eapply Hk; [done|]. by eapply Hm.
Qed.

Lemma keeps_reading banner (loop : list string → list Printed * list string * (Exc + A)) :
  keeps P (reading banner loop).
Proof.
  intros w w' r. unfold reading. destruct (loop (stdin w)) as [[out rest] r'].
  by intros [= <- <-].
Qed.

Lemma keeps_on_self (m : M StormWorkflow A) :
  (∀ s s' r, m s = Some (s', r) → P s → P s') → keeps P (on_self m).
Proof.
  intros Hm w w' r. unfold on_self.
  destruct (m (self w)) as [[s' r']|] eqn:Hrun; [|done].
  intros [= <- <-]. simpl. by eapply Hm.
Qed.
End Keeps.

Lemma keeps_safe_input P : keeps P safe_input.
Proof.
  intros w w' r. unfold safe_input. destruct (stdin w); by intros [= <- <-].
Qed.

Lemma keeps_print P p : keeps P (print p).
Proof. by intros w w' r [= <- <-]. Qed.

Create HintDb keeps.
#[local] Hint Resolve keeps_ret keeps_lift keeps_gets keeps_safe_input keeps_print
  keeps_reading : keeps.
#[local] Hint Extern 2 (keeps _ (bind _ _)) => apply keeps_bind; [|intros ?] : keeps.
#[local] Hint Extern 3 (keeps _ (if ?b then _ else _)) => destruct b : keeps.

Section Aligned.
Context `{Collaborators}.

Lemma keeps_aligned_append_version parts :
  keeps aligned (on_self (modify (append_version parts))).
Proof. apply keeps_on_self. by intros s s' r [= <- <-]. Qed.

Lemma keeps_aligned_rewrite_report topic rewrite_choice :
  keeps aligned (rewrite_report topic rewrite_choice).
Proof.
  unfold rewrite_report.
  destruct (String.eqb rewrite_choice "1").
  { apply keeps_bind; [auto with keeps|]. intros _.
    apply keeps_bind; [auto with keeps|]. intros existing.
    intros w w' r. unfold bind, lift.
    destruct (_run_automatic_research _) as [e|result] eqn:Hres.
    - by intros [= <- <-].
    - intros [= <- <-] _. simpl. unfold aligned. simpl.
      by apply automatic_research_aligned in Hres as [? _]. }
  destruct (String.eqb rewrite_choice "2"); [|auto 20 with keeps].
  apply keeps_bind; [auto with keeps|]. intros _.
  apply keeps_bind; [auto with keeps|]. intros feedback.
  destruct (negb (String.eqb feedback "")); [|auto 20 with keeps].
  apply keeps_bind; [auto with keeps|]. intros _.
  apply keeps_on_self. apply rewrite_with_feedback_aligned.
Qed.

Lemma keeps_aligned_approval_turn topic report_parts :
  keeps aligned (approval_turn topic report_parts).
Proof.
  unfold approval_turn.
  apply keeps_bind; [auto with keeps|]. intros versions.
  apply keeps_bind; [auto with keeps|]. intros _.
  apply keeps_bind; [auto with keeps|]. intros choice.
  destruct (String.eqb choice "1"); [auto 20 with keeps|].
  destruct (String.eqb choice "2").
  { apply keeps_bind; [auto with keeps|]. intros _.
    apply keeps_bind; [auto with keeps|]. intros rewrite_choice.
    apply keeps_bind; [apply keeps_aligned_rewrite_report|]. intros new_report_parts.
    apply keeps_bind; [apply keeps_aligned_append_version|]. intros _.
    auto 20 with keeps. }
  destruct (String.eqb choice "3").
  { unfold _show_full_report. auto 20 with keeps. }
  destruct (String.eqb choice "4" && _).
  { unfold _compare_report_versions. auto 20 with keeps. }
  auto 20 with keeps.
Qed.

Lemma keeps_aligned_approval_loop fuel topic report_parts :
  keeps aligned (approval_loop fuel topic report_parts).
Proof.
  revert report_parts. induction fuel as [|fuel IH]; intros report_parts; [done|].
  simpl. apply keeps_bind; [apply keeps_aligned_approval_turn|].
  intros [report|report]; [auto with keeps|apply IH].
Qed.

Lemma keeps_aligned_final_report_approval topic report_parts :
  keeps aligned (_get_final_report_approval topic report_parts).
Proof.
  unfold _get_final_report_approval.
  apply keeps_bind; [apply keeps_aligned_append_version|]. intros _.
  apply keeps_bind; [auto with keeps|]. intros versions.
  apply keeps_bind; [auto with keeps|]. intros _.
  apply keeps_bind; [auto with keeps|]. intros _.
  apply keeps_bind; [auto with keeps|]. intros fuel.
  apply keeps_aligned_approval_loop.
Qed.

(** X10: the approval loop of the console keeps the analysts and the
    interviews of the instance in step: if [current_interviews] holds one
    interview per analyst of [current_analysts], in order, when the review
    starts, it does so when the review ends, however many rewrites of
    whatever kind were asked for and whether the review returned or raised.
    A research on the console that returns leaves the instance in this
    state. *)
Theorem approval_keeps_instance_aligned topic report_parts task w w' :
  (∀ r, _get_final_report_approval topic report_parts w = Some (w', r) →
        aligned (self w) → aligned (self w')) ∧
  (∀ result, _run_interactive_research task w = Some (w', inr result) →
             aligned (self w')).
Proof.
  split.
  - intros r. apply keeps_aligned_final_report_approval.
  - unfold _run_interactive_research, _get_analyst_count_from_user, reading.
    unfold bind at 1.
    destruct (analyst_count_loop (max_analysts task) (stdin w)) as [[out rest] [e|count]];
      [done|].
    unfold bind at 1. simpl. unfold bind at 1, lift at 1.
    destruct (_generate_analysts_with_diverse_tools _) as [e|l]; [done|].
    unfold bind at 1. simpl. unfold bind at 1, lift at 1.
    destruct (_conduct_interviews l _) as [e|rs] eqn:Hrs; [done|].
    unfold bind at 1. simpl. unfold bind at 1, lift at 1.
    destruct (_write_report _ rs) as [e|first_parts]; [done|].
    apply interviews_aligned in Hrs.
    intros result. unfold bind at 1.
    match goal with
    | |- context [_get_final_report_approval ?t first_parts ?w1] =>
        pose proof (keeps_aligned_final_report_approval t first_parts w1) as Hkeep;
        destruct (_get_final_report_approval t first_parts w1)
          as [[w2 [e|final_parts]]|]; [done| |done]
    end.
    intros [= <- <-]. simpl. by eapply Hkeep.
Qed.

(** X11: a result that [run_research] returns, in automatic or in
    interactive mode, has one interview per analyst, at the analyst's index;
    its topic is the topic of the task and its final report is assembled from
    its own introduction, main content and conclusion.  Its analysts are those
    the generator returned for a count that is the count of the task or, in
    interactive mode, a count from 1 to 10 that the operator chose; the
    automatic mode reads no input. *)
Theorem run_research_result interactive_mode task w w' result :
  run_research interactive_mode task w = Some (w', inr result) →
  analyst <$> interviews result = analysts result ∧
  result_topic result = topic task ∧
  final_report result
    = _assemble_final_report
        {| part_main_content := main_content result;
           part_introduction := introduction result;
           part_conclusion := conclusion result |} ∧
  (interactive_mode = false → w' = w) ∧
  ∃ count,
    count_in_range (max_analysts task) count ∧
    (interactive_mode = false → count = max_analysts task) ∧
    _generate_analysts_with_diverse_tools (with_max_analysts count task)
      = inr (analysts result).
Proof.
  unfold run_research. destruct interactive_mode.
  - unfold _run_interactive_research, _get_analyst_count_from_user, reading.
    unfold bind at 1.
    pose proof (analyst_count_loop_bounds (max_analysts task) (stdin w)) as Hcount.
    destruct (analyst_count_loop (max_analysts task) (stdin w)) as [[out rest] [e|count]];
      [done|].
    destruct Hcount as (_ & Hcount & _).
    unfold bind at 1. simpl. unfold bind at 1, lift at 1.
    destruct (_generate_analysts_with_diverse_tools _) as [e|l] eqn:Hgen; [done|].
    unfold bind at 1. simpl. unfold bind at 1, lift at 1.
    destruct (_conduct_interviews l _) as [e|rs] eqn:Hrs; [done|].
    unfold bind at 1. simpl. unfold bind at 1, lift at 1.
    destruct (_write_report _ rs) as [e|first_parts]; [done|].
    apply interviews_aligned in Hrs.
    unfold bind at 1.
    match goal with
    | |- context [_get_final_report_approval ?t first_parts ?w1] =>
        destruct (_get_final_report_approval t first_parts w1)
          as [[w2 [e|[main intro concl]]]|]; [done| |done]
    end.
    intros [= <- <-]. simpl. repeat split; try done.
    exists count. done.
  - unfold lift. intros [= <- Hres].
    apply automatic_research_aligned in Hres as Hal. destruct Hal as (Hal & Htopic & Hfinal).
    repeat split; try done.
    exists (max_analysts task). split; [by left|]. split; [done|].
    revert Hres. unfold _run_automatic_research.
    replace (with_max_analysts (max_analysts task) task) with task by by destruct task.
    destruct (_generate_analysts_with_diverse_tools task) as [e|l]; [discriminate|].
    destruct (_conduct_interviews l task) as [e|rs]; [discriminate|].
    destruct (_write_report (topic task) rs) as [e|parts]; [discriminate|].
    by intros [= <-].
Qed.

(** X12: both interactive researches end on every finite input, by a
    return or by an exception, because no loop of theirs goes round without
    input: a turn of the console approval loop that goes on has read at
    least one line, and [input] raises [EOFError] when none is left; a turn
    of the approval loop over the WebSocket that goes on has taken at least
    one event from those that will arrive, and the wait of 300 time units
    ends by itself when nothing arrives. *)
Theorem research_always_ends interactive_mode session_id task w a :
  (∃ w' r, run_research interactive_mode task w = Some (w', r)) ∧
  (∃ a' r, run_interactive_research session_id task a = Some (a', r)) ∧
  (∀ topic report_parts w' report,
     approval_turn topic report_parts w = Some (w', inr (Continue report)) →
     length (stdin w') < length (stdin w)) ∧
  (stdin w = [] →
   ∀ topic report_parts,
     _get_final_report_approval topic report_parts w
       = Some ({| stdin := [];
                  stdout := stdout w
                            ++ [ReviewHeader (S (length (versions_of w)));
                                Preview (S (length (versions_of w))) report_parts;
                                Menu (if bool_decide (0 < length (versions_of w))
                                      then 4 else 3)];
                  self := append_version report_parts (self w) |}, inl EOFError)) ∧
  (∀ topic version current_report new_report a' version' current_report' new_report',
     report_approval_turn session_id topic version current_report new_report a
       = Some (a', inr (Present version' current_report' new_report')) →
     length (inbox a') < length (inbox a)) ∧
  (inbox a = [] →
   ∀ topic report_parts,
     ∃ a', get_report_approval session_id topic report_parts a
             = Some (a', inl (HTTPException 408)) ∧
           sent a' = sent a ++ [ReportApprovalRequest topic 1 report_parts]).
Proof.
  split; [|split; [|split; [|split; [|split]]]].
  - unfold run_research. destruct interactive_mode.
    + apply interactive_research_ends.
    + by eexists _, _.
  - apply run_interactive_research_ends.
  - intros topic report_parts w' report Hrun.
    destruct (approval_turn_spec topic report_parts w) as (w1 & r & out & Hrun' & _ & Hturn).
    rewrite Hrun in Hrun'. injection Hrun' as <- <-. by destruct Hturn as [Hshorter _].
  - intros Hin topic report_parts. rewrite final_report_approval_run. simpl.
    rewrite Hin. simpl.
    unfold approval_turn, bind, gets, print, modify, safe_input, versions_of. simpl.
    rewrite length_app, Nat.add_1_r, <- app_assoc. simpl.
    do 3 f_equal. do 4 f_equal.
    repeat case_bool_decide; try done; lia.
  - intros topic version current_report new_report a' version' current' new' Hrun.
    destruct (report_approval_turn_spec session_id topic version current_report new_report a)
      as (a1 & r & out & Hrun' & _ & _ & Hr).
    rewrite Hrun in Hrun'. injection Hrun' as <- <-. by destruct Hr as [Hshorter _].
  - intros Hin topic report_parts.
    unfold get_report_approval, bind at 1, gets. rewrite Hin. simpl. unfold bind at 1.
    unfold report_approval_turn, bind at 1, send_json at 1, modify. simpl.
    unfold bind at 1. rewrite wait_for_response_run. simpl. rewrite Hin. simpl.
    rewrite lookup_app_r, Nat.sub_diag by lia. simpl. by eexists.
Qed.
End Aligned.

Lemma approval_keeps_instance_aligned_witness :
  (∃ w' r,
     @_get_final_report_approval (scripted [] []) "X" first_draft
       {| stdin := ["2"; "2"; "add cost analysis"; "2"; "1"; "1"]; stdout := [];
          self := StormWorkflow_init |} = Some (w', r) ∧
     length (current_analysts (self w')) = 1 ∧
     aligned (self w')) ∧
  (∃ w' result,
     @_run_interactive_research (scripted [] []) (example_task true) scenario_console
       = Some (w', inr result) ∧
     length (current_analysts (self w')) = 5 ∧
     aligned (self w')).
Proof.
  split.
  - eexists _, _. split; [by vm_compute|]. split; [by vm_compute|].
    pose proof (@approval_keeps_instance_aligned (scripted [] []) "X" first_draft
                  (example_task true)
                  {| stdin := ["2"; "2"; "add cost analysis"; "2"; "1"; "1"]; stdout := [];
                     self := StormWorkflow_init |}) as Hthm.
    lazymatch goal with
    | |- aligned (self ?w') => destruct (Hthm w') as [Hreview _]
    end.
    eapply Hreview; vm_compute; reflexivity.
  - eexists _, _. split; [by vm_compute|]. split; [by vm_compute|].
    pose proof (@approval_keeps_instance_aligned (scripted [] []) "X" first_draft
                  (example_task true) scenario_console) as Hthm.
    eapply Hthm. by vm_compute.
Defined.

Lemma run_research_result_witness :
  ∃ w' result,
    @run_research (scripted [] []) true (example_task true) scenario_console
      = Some (w', inr result) ∧
    length (analysts result) = 4 ∧
    analyst <$> interviews result = analysts result ∧
    result_topic result = "X".
Proof.
  eexists _, _. split; [by vm_compute|]. split; [by vm_compute|].
  pose proof (@run_research_result (scripted [] []) true (example_task true)
                scenario_console) as Hthm.
  edestruct Hthm as (Hal & Htopic & _); [by vm_compute|].
  split; [exact Hal|exact Htopic].
Defined.

(** * The configuration and the HTTP endpoints *)

(** ** config.py *)

Lemma set_str_lookup key value config key' :
  set_str key value config !! key' =
    if decide (key = key') then Some (from_option CfgStr CfgNone value) else config !! key'.
Proof.
  unfold set_str. destruct value; simpl; case_decide; subst;
    by rewrite ?lookup_insert_eq, ?lookup_insert_ne by done.
Qed.

Lemma set_int_lookup key value config key' :
  set_int key value config !! key' =
    if decide (key = key') then Some (from_option CfgInt CfgNone value) else config !! key'.
Proof.
  unfold set_int. destruct value; simpl; case_decide; subst;
    by rewrite ?lookup_insert_eq, ?lookup_insert_ne by done.
Qed.

Lemma config_api_key model_config k :
  api_key model_config = Some k → k ≠ "" → use_azure_ad model_config = false →
  component_config (to_autogen_config model_config) !! "api_key" = Some (CfgStr k).
Proof.
  destruct model_config as [p m key url endpoint deployment version ad t tokens]. simpl.
  intros -> Hne ->. apply String.eqb_neq in Hne.
  unfold to_autogen_config. simpl. rewrite Hne. simpl.
  destruct p, url as [url|], endpoint as [endpoint|], deployment as [deployment|],
    tokens as [tokens|]; simpl;
    repeat match goal with
           | |- context [String.eqb ?s ""] => destruct (String.eqb s ""); simpl
           | |- context [(?n =? 0)%Z] => destruct (n =? 0)%Z; simpl
           end;
    repeat first [ rewrite set_str_lookup | rewrite set_int_lookup
                 | rewrite lookup_insert_eq | rewrite lookup_insert_ne by done ];
    simpl; done.
Qed.

(** X13: which optional settings [to_autogen_config] passes on to the model
    client.  The API key is passed on when there is a non-empty one, except
    for Azure OpenAI with [use_azure_ad], where it never is; [base_url] is
    passed on only for OpenAI, the Azure endpoint and deployment only for
    Azure OpenAI; an empty string and a [max_tokens] of 0 count as not set.
    The model name is always passed on. *)
Theorem to_autogen_config_settings self :
  let config := component_config (to_autogen_config self) in
  config !! "model" = Some (CfgStr (model self)) ∧
  config !! "api_key" =
    (if truthy_str (api_key self)
        && negb (is_azure_openai (provider self) && use_azure_ad self)
     then CfgStr <$> api_key self else None) ∧
  config !! "base_url" =
    (if truthy_str (base_url self) && is_openai (provider self)
     then CfgStr <$> base_url self else None) ∧
  config !! "azure_endpoint" =
    (if truthy_str (azure_endpoint self) && is_azure_openai (provider self)
     then CfgStr <$> azure_endpoint self else None) ∧
  config !! "azure_deployment" =
    (if truthy_str (azure_deployment self) && is_azure_openai (provider self)
     then CfgStr <$> azure_deployment self else None) ∧
  config !! "max_tokens" =
    (if truthy_int (max_tokens self) then CfgInt <$> max_tokens self else None).
Proof.
  destruct self as [p m key url endpoint deployment version ad t tokens].
  unfold to_autogen_config. simpl.
  destruct p, key as [key|], url as [url|], endpoint as [endpoint|],
    deployment as [deployment|], tokens as [tokens|], ad; simpl;
    repeat match goal with
           | |- context [String.eqb ?s ""] => destruct (String.eqb s ""); simpl
           | |- context [(?n =? 0)%Z] => destruct (n =? 0)%Z; simpl
           end;
    repeat split;
    repeat first [ rewrite set_str_lookup | rewrite set_int_lookup
                 | rewrite lookup_insert_eq | rewrite lookup_insert_ne by done ];
    simpl; try done.
Qed.

Lemma to_autogen_config_settings_witness :
  let self :=
    {| provider := AZURE_OPENAI; model := "gpt-4.1-nano"; api_key := Some "secret";
       base_url := Some "https://example.org"; azure_endpoint := Some "https://azure";
       azure_deployment := Some ""; api_version := None; use_azure_ad := true;
       temperature := QArith_base.Qmake 0 1; max_tokens := Some 0%Z |} in
  let config := component_config (to_autogen_config self) in
  config !! "model" = Some (CfgStr "gpt-4.1-nano") ∧
  config !! "api_key" = None ∧
  config !! "base_url" = None ∧
  config !! "azure_endpoint" = Some (CfgStr "https://azure") ∧
  config !! "azure_deployment" = None ∧
  config !! "max_tokens" = None.
Proof.
  exact (to_autogen_config_settings
           {| provider := AZURE_OPENAI; model := "gpt-4.1-nano"; api_key := Some "secret";
              base_url := Some "https://example.org"; azure_endpoint := Some "https://azure";
              azure_deployment := Some ""; api_version := None; use_azure_ad := true;
              temperature := QArith_base.Qmake 0 1; max_tokens := Some 0%Z |}).
Defined.

(** ** create_model_config *)

Section CreateModelConfig.
Variable environ : gmap string string.
Variable strip : string → string.

Lemma truthy_str_Some value : truthy_str value = true → ∃ s, value = Some s ∧ s ≠ "".
Proof.
  destruct value as [s|]; [|done]. simpl. intros Hs. exists s. split; [done|].
  intros ->. done.
Qed.

Lemma request_or_env_cases value variable :
  (∃ s, value = Some s ∧ s ≠ "" ∧ strip s ≠ "" ∧
        request_or_env environ strip value variable = Some s) ∨
  (truthy_str value && truthy_str (strip <$> value) = false ∧
   request_or_env environ strip value variable = environ !! variable).
Proof.
  unfold request_or_env.
  destruct (truthy_str value && truthy_str (strip <$> value)) eqn:Hv; [left|by right].
  apply andb_true_iff in Hv as [Hv Hs].
  apply truthy_str_Some in Hv as (s & -> & Hne).
  apply truthy_str_Some in Hs as (s' & [= <-] & Hne').
  by exists s.
Qed.

(** X14: a configuration that [create_model_config] returns.  Its provider
    is the one the request names, [use_azure_ad] is off and it has a
    non-empty API key: the key of the request if that has a character that
    [strip] leaves, as it was sent (not stripped); otherwise the key from
    the environment variable of the provider.  The model client is
    configured with exactly this key. *)
Theorem create_model_config_key name key endpoint deployment model_config :
  create_model_config environ strip name key endpoint deployment = Some model_config →
  name = provider_name (provider model_config) ∧
  use_azure_ad model_config = false ∧
  ∃ k,
    api_key model_config = Some k ∧ k ≠ "" ∧
    (key = Some k ∧ strip k ≠ "" ∨
     truthy_str key && truthy_str (strip <$> key) = false ∧
     environ !! api_key_variable (provider model_config) = Some k) ∧
    component_config (to_autogen_config model_config) !! "api_key" = Some (CfgStr k).
Proof.
  unfold create_model_config.
  destruct (String.eqb name "openai") eqn:Hopenai.
  { apply String.eqb_eq in Hopenai as ->.
    destruct (truthy_str (request_or_env environ strip key "OPENAI_API_KEY")) eqn:Hkey;
      [|done].
    simpl. intros [= <-]. split; [done|]. split; [done|].
    apply truthy_str_Some in Hkey as (k & Hk & Hne). exists k.
    split; [exact Hk|]. split; [done|]. split.
    - destruct (request_or_env_cases key "OPENAI_API_KEY")
        as [(s & -> & _ & Hstrip & Hreq)|[Hblank Hreq]]; rewrite Hreq in Hk.
      + injection Hk as ->. by left.
      + by right.
    - apply config_api_key; [exact Hk|done|done]. }
  destruct (String.eqb name "azure_openai") eqn:Hazure.
  { apply String.eqb_eq in Hazure as ->.
    destruct (truthy_str (request_or_env environ strip key "AZURE_OPENAI_API_KEY")) eqn:Hkey;
      [|done].
    destruct (truthy_str (request_or_env environ strip endpoint "AZURE_OPENAI_ENDPOINT"));
      [|done].
    destruct (truthy_str (request_or_env environ strip deployment "AZURE_OPENAI_DEPLOYMENT"));
      [|done].
    simpl. intros [= <-]. split; [done|]. split; [done|].
    apply truthy_str_Some in Hkey as (k & Hk & Hne). exists k.
    split; [exact Hk|]. split; [done|]. split.
    - destruct (request_or_env_cases key "AZURE_OPENAI_API_KEY")
        as [(s & -> & _ & Hstrip & Hreq)|[Hblank Hreq]]; rewrite Hreq in Hk.
      + injection Hk as ->. by left.
      + by right.
    - apply config_api_key; [exact Hk|done|done]. }
  destruct (String.eqb name "anthropic") eqn:Hanthropic; [|done].
  apply String.eqb_eq in Hanthropic as ->.
  destruct (truthy_str (request_or_env environ strip key "ANTHROPIC_API_KEY")) eqn:Hkey;
    [|done].
  simpl. intros [= <-]. split; [done|]. split; [done|].
  apply truthy_str_Some in Hkey as (k & Hk & Hne). exists k.
  split; [exact Hk|]. split; [done|]. split.
  - destruct (request_or_env_cases key "ANTHROPIC_API_KEY")
      as [(s & -> & _ & Hstrip & Hreq)|[Hblank Hreq]]; rewrite Hreq in Hk.
    + injection Hk as ->. by left.
    + by right.
  - apply config_api_key; [exact Hk|done|done].
Qed.

Lemma create_model_config_unknown name key endpoint deployment :
  name ≠ "openai" → name ≠ "azure_openai" → name ≠ "anthropic" →
  create_model_config environ strip name key endpoint deployment = None.
Proof.
  intros H1 H2 H3. unfold create_model_config.
  apply String.eqb_neq in H1, H2, H3. by rewrite H1, H2, H3.
Qed.

(** ** The endpoints *)

(** X15: what [start_interactive_research] refuses.  Without a WebSocket of
    the session it raises [HTTPException(400)].  With one, a request for
    which [create_model_config] returns nothing (an unknown provider, or no
    usable API key) is answered with status 500, not 400: the
    [HTTPException(400)] is raised inside the [try] whose [except Exception]
    turns every exception into [HTTPException(500)].  In both cases nothing
    is stored in [research_tasks]. *)
Theorem start_research_refused now session_id request sv :
  (session_id ∉ active_connections (globals (application sv)) →
   start_interactive_research environ strip now session_id request sv
     = Some (sv, inl (HTTPException 400))) ∧
  (session_id ∈ active_connections (globals (application sv)) →
   create_model_config environ strip (model_provider request) (request_api_key request)
     (request_azure_endpoint request) (request_azure_deployment request) = None →
   start_interactive_research environ strip now session_id request sv
     = Some (sv, inl (HTTPException 500))) ∧
  (session_id ∈ active_connections (globals (application sv)) →
   model_provider request ≠ "openai" → model_provider request ≠ "azure_openai" →
   model_provider request ≠ "anthropic" →
   start_interactive_research environ strip now session_id request sv
     = Some (sv, inl (HTTPException 500))).
Proof.
  assert (Hnone :
    session_id ∈ active_connections (globals (application sv)) →
    create_model_config environ strip (model_provider request) (request_api_key request)
      (request_azure_endpoint request) (request_azure_deployment request) = None →
    start_interactive_research environ strip now session_id request sv
      = Some (sv, inl (HTTPException 500))).
  { intros Hin Hcfg. unfold start_interactive_research, bind, gets. simpl.
    rewrite bool_decide_eq_true_2 by done. simpl.
    unfold or_internal_error. by rewrite Hcfg. }
  split; [|split].
  - intros Hnot. unfold start_interactive_research, bind, gets. simpl.
    by rewrite bool_decide_eq_false_2.
  - done.
  - intros Hin H1 H2 H3. apply Hnone; [done|]. by apply create_model_config_unknown.
Qed.

(** X16: a request that [start_interactive_research] accepts.  It changes
    nothing but [research_tasks], where the entry of the session, whatever
    it was (a finished research, say), is replaced by a "running" one with
    no result and no error; the background task gets the counts and the
    topic of the request.  [get_research_task] then returns the new entry;
    once [delete_research_task] has removed it, both [get_research_task]
    and a second [delete_research_task] raise [HTTPException(404)], and the
    entries of the other sessions are as before. *)
Theorem start_get_delete now session_id request sv model_config :
  session_id ∈ active_connections (globals (application sv)) →
  create_model_config environ strip (model_provider request) (request_api_key request)
    (request_azure_endpoint request) (request_azure_deployment request) = Some model_config →
  ∃ config task stored sv1 sv2,
    start_interactive_research environ strip now session_id request sv
      = Some (sv1, inr (config, task)) ∧
    application sv1 = application sv ∧
    config_model_config config = model_config ∧
    topic task = request_topic request ∧
    max_analysts task = JInt (request_max_analysts request) ∧
    max_interview_turns task = request_max_interview_turns request ∧
    parallel_interviews task = request_parallel_interviews request ∧
    get_research_task session_id sv1 = Some (sv1, inr stored) ∧
    status stored = "running" ∧ result stored = JNull ∧ error stored = None ∧
    completed_at stored = None ∧ created_at stored = now ∧
    delete_research_task session_id sv1 = Some (sv2, inr session_id) ∧
    application sv2 = application sv ∧
    get_research_task session_id sv2 = Some (sv2, inl (HTTPException 404)) ∧
    delete_research_task session_id sv2 = Some (sv2, inl (HTTPException 404)) ∧
    ∀ other, other ≠ session_id →
             research_tasks sv1 !! other = research_tasks sv !! other ∧
             research_tasks sv2 !! other = research_tasks sv !! other.
Proof.
  intros Hin Hcfg.
  unfold start_interactive_research, bind, gets. simpl.
  rewrite bool_decide_eq_true_2 by done. simpl.
  unfold or_internal_error. rewrite Hcfg. simpl.
  eexists _, _, _, _, _. split; [reflexivity|]. simpl.
  do 6 (split; [reflexivity|]).
  split.
  { unfold get_research_task, bind, gets. simpl. rewrite lookup_insert_eq. reflexivity. }
  simpl. do 5 (split; [reflexivity|]).
  split.
  { unfold delete_research_task, bind, gets. simpl. rewrite lookup_insert_eq. reflexivity. }
  simpl. split; [reflexivity|].
  split.
  { unfold get_research_task, bind, gets. simpl. by rewrite lookup_delete_eq. }
  split.
  { unfold delete_research_task, bind, gets. simpl. by rewrite lookup_delete_eq. }
  intros other Hother. split.
  - by rewrite lookup_insert_ne.
  - by rewrite lookup_delete_ne, lookup_insert_ne.
Qed.
End CreateModelConfig.

Lemma create_model_config_key_witness :
  "openai" = provider_name OPENAI ∧
  false = false ∧
  ∃ k,
    Some "sk-env" = Some k ∧ k ≠ "" ∧
    (Some "   " = Some k ∧ strip_blanks k ≠ "" ∨
     truthy_str (Some "   ") && truthy_str (strip_blanks <$> Some "   ") = false ∧
     example_environ !! api_key_variable OPENAI = Some k) ∧
    component_config
      (to_autogen_config (ModelConfig_with OPENAI (Some "sk-env") None None "gpt-4o"))
      !! "api_key" = Some (CfgStr k).
Proof.
  apply (create_model_config_key example_environ strip_blanks "openai" (Some "   ") None None
           (ModelConfig_with OPENAI (Some "sk-env") None None "gpt-4o")).
  reflexivity.
Defined.

Lemma start_research_refused_witness :
  start_interactive_research example_environ strip_blanks "2026-01-01T00:00:00" "u"
    (example_request "openai" None) (example_server [])
    = Some (example_server [], inl (HTTPException 400)) ∧
  start_interactive_research example_environ strip_blanks "2026-01-01T00:00:00" "s"
    (example_request "anthropic" (Some " ")) (example_server [])
    = Some (example_server [], inl (HTTPException 500)) ∧
  start_interactive_research example_environ strip_blanks "2026-01-01T00:00:00" "s"
    (example_request "gemini" (Some "key")) (example_server [])
    = Some (example_server [], inl (HTTPException 500)).
Proof.
  pose proof (start_research_refused example_environ strip_blanks "2026-01-01T00:00:00" "u"
                (example_request "openai" None) (example_server [])) as (H400 & _ & _).
  pose proof (start_research_refused example_environ strip_blanks "2026-01-01T00:00:00" "s"
                (example_request "anthropic" (Some " ")) (example_server []))
    as (_ & H500 & _).
  pose proof (start_research_refused example_environ strip_blanks "2026-01-01T00:00:00" "s"
                (example_request "gemini" (Some "key")) (example_server []))
    as (_ & _ & Hunknown).
  split; [|split].
  - apply H400. simpl. intros [Hin|Hin]%elem_of_union.
    + apply elem_of_singleton in Hin. discriminate Hin.
    + by apply elem_of_empty in Hin.
  - apply H500; [|reflexivity]. simpl. by apply elem_of_union_l, elem_of_singleton.
  - apply Hunknown; [|done|done|done]. simpl. by apply elem_of_union_l, elem_of_singleton.
Defined.

Lemma start_get_delete_witness :
  ∃ config task stored sv1 sv2,
    start_interactive_research example_environ strip_blanks "2026-01-01T00:00:00" "s"
      (example_request "openai" (Some " sk-request ")) (example_server [])
      = Some (sv1, inr (config, task)) ∧
    api_key (config_model_config config) = Some " sk-request " ∧
    max_analysts task = JInt 2 ∧
    get_research_task "s" sv1 = Some (sv1, inr stored) ∧
    status stored = "running" ∧
    delete_research_task "s" sv1 = Some (sv2, inr "s") ∧
    get_research_task "s" sv2 = Some (sv2, inl (HTTPException 404)).
Proof.
  destruct (start_get_delete example_environ strip_blanks "2026-01-01T00:00:00" "s"
              (example_request "openai" (Some " sk-request ")) (example_server [])
              (ModelConfig_with OPENAI (Some " sk-request ") None None "gpt-4o"))
    as (config & task & stored & sv1 & sv2 & Hstart & _ & Hcfg & _ & Hcount & _ & _ & Hget
        & Hstatus & _ & _ & _ & _ & Hdel & _ & Hget' & _).
  - simpl. by apply elem_of_union_l, elem_of_singleton.
  - reflexivity.
  - exists config, task, stored, sv1, sv2. rewrite Hcfg. done.
Defined.

Section TaskOutcome.
Context `{Collaborators}.
Variable load_component : ComponentConfig → option Exc.
Variable close : option Exc.

(** X17: what [run_interactive_research_task] records in [research_tasks].
    When creating the workflow (loading a model client) raises, the entry of
    the session ends as "failed" with that error, and nothing was sent.
    When the workflow was created, the socket stays connected (only messages
    arrive) and [close] returns, the entry ends as "completed" with the
    result [None] whenever [run_interactive_research] returns, and that
    includes the research that failed: when a step raises an exception,
    [run_interactive_research] sends it to the client and returns, so the
    task sees no failure; a cancellation passes through and leaves
    [research_tasks] alone.  When [close] raises in the [finally] clause,
    the entry ends as "failed" with the error of [close], whatever the
    research did.  In every case an entry that was deleted in the meantime
    is not created again. *)
Theorem research_task_outcome now config task session_id sv :
  let outcome :=
    run_interactive_research_task load_component close now config task session_id sv in
  (∀ e,
     InteractiveStormWorkflow_new load_component config = inl e →
     is_Exception e = true →
     outcome = Some ({| application := application sv;
                        research_tasks :=
                          alter (update_failed now e) session_id (research_tasks sv) |},
                     inr ())) ∧
  (∀ workflow,
     InteractiveStormWorkflow_new load_component config = inr workflow →
     Forall (fun ev => is_message ev = true) (inbox (application sv)) →
     close = None →
     ∃ sv' r,
       outcome = Some (sv', r) ∧
       match r with
       | inr _ =>
           research_tasks sv'
             = alter (update_completed now JNull) session_id (research_tasks sv)
       | inl e => e = CancelledError ∧ research_tasks sv' = research_tasks sv
       end ∧
       ∀ e a1,
         research_steps session_id task (with_workflow workflow (application sv))
           = Some (a1, inl e) →
         is_Exception e = true →
         r = inr () ∧ last (sent (application sv')) = Some (Error e) ∧
         status <$> research_tasks sv' !! session_id
           = (fun _ => "completed") <$> research_tasks sv !! session_id) ∧
  (∀ workflow e,
     InteractiveStormWorkflow_new load_component config = inr workflow →
     close = Some e →
     is_Exception e = true →
     ∃ a',
       outcome = Some ({| application := a';
                          research_tasks :=
                            alter (update_failed now e) session_id (research_tasks sv) |},
                       inr ())) ∧
  (∀ sv' r,
     outcome = Some (sv', r) →
     research_tasks sv !! session_id = None →
     research_tasks sv' = research_tasks sv).
Proof.
  intros outcome. subst outcome. split; [|split; [|split]].
  - intros e Hnew He. unfold run_interactive_research_task. by rewrite Hnew, He.
  - intros workflow Hnew _ Hclose. unfold run_interactive_research_task. rewrite Hnew.
    fold (with_workflow workflow (application sv)).
    unfold run_interactive_research_closing. rewrite Hclose.
    destruct (run_interactive_research_ends session_id task
                (with_workflow workflow (application sv))) as (a' & r & Hrun).
    rewrite Hrun. revert Hrun. unfold run_interactive_research.
    destruct (research_steps session_id task (with_workflow workflow (application sv)))
      as [[a1 [e|[]]]|]; [| |done].
    + destruct (is_Exception e) eqn:He.
      * intros [= <- <-]. eexists _, _. split; [reflexivity|]. split; [done|].
        intros e' a2 [= <- <-] _. split; [done|]. simpl. split; [apply last_snoc|].
        rewrite lookup_alter_eq. by destruct (research_tasks sv !! session_id).
      * intros [= <- <-]. rewrite He. eexists _, _. split; [reflexivity|]. simpl.
        split; [by destruct e|].
        intros e' a2 [= <- <-] He'. congruence.
    + intros [= <- <-]. eexists _, _. split; [reflexivity|]. split; [done|].
      intros e' a2 Habs. discriminate Habs.
  - intros workflow e Hnew Hclose He. unfold run_interactive_research_task. rewrite Hnew.
    unfold run_interactive_research_closing. rewrite Hclose.
    match goal with
    | |- context [run_interactive_research session_id task ?a] =>
        destruct (run_interactive_research_ends session_id task a) as (a' & r & Hrun)
    end.
    rewrite Hrun, He. by exists a'.
  - intros sv' r Hrun Hnone.
    assert (∀ f, alter f session_id (research_tasks sv) = research_tasks sv) as Halter.
    { intros f. apply map_eq. intros key. destruct (decide (session_id = key)) as [<-|Hne].
      - by rewrite lookup_alter_eq, Hnone.
      - by rewrite lookup_alter_ne. }
    revert Hrun. unfold run_interactive_research_task.
    destruct (InteractiveStormWorkflow_new load_component config) as [e|workflow].
    + destruct (is_Exception e); intros [= <- <-]; simpl; [apply Halter|done].
    + unfold run_interactive_research_closing.
      destruct (run_interactive_research session_id task _) as [[a' r0]|]; [|done].
      destruct (match close with Some e => inl e | None => r0 end) as [e|[]].
      * destruct (is_Exception e); intros [= <- <-]; simpl; [apply Halter|done].
      * intros [= <- <-]. simpl. apply Halter.
Qed.
End TaskOutcome.

(** The operator never answers: the client gets the error of the timeout
    and the task is recorded as completed; but when closing the workflow
    raises, the same task is recorded as failed. *)
Lemma research_task_outcome_witness :
  let config :=
    {| config_model_config := ModelConfig_with OPENAI (Some "sk-env") None None "gpt-4o";
       expert_model_config := None; writer_model_config := None;
       analyst_model_config := None; interviewer_model_config := None;
       config_max_analysts := 2; config_max_interview_turns := 3;
       tavily_max_results := 3; arxiv_max_docs := 3;
       config_parallel_interviews := true; openai_api_key := None;
       tavily_api_key := None; naver_client_id := None; naver_client_secret := None |} in
  let sv := {| application := application (example_server []);
               research_tasks :=
                 {[ "s" := {| stored_session_id := "s"; stored_topic := "X";
                              status := "running"; created_at := "2026-01-01T00:00:00";
                              stored_config :=
                                {| stored_max_analysts := 2; stored_max_interview_turns := 3;
                                   stored_parallel_interviews := true;
                                   stored_model_provider := "openai" |};
                              result := JNull; error := None; completed_at := None |} ]} |} in
  (∃ sv' r,
     @run_interactive_research_task (scripted [] []) (fun _ => None) None
       "2026-01-01T00:05:00" config (example_task true) "s" sv = Some (sv', r) ∧
     r = inr () ∧
     last (sent (application sv')) = Some (Error (HTTPException 408)) ∧
     status <$> research_tasks sv' !! "s" = Some "completed") ∧
  (∃ a',
     @run_interactive_research_task (scripted [] []) (fun _ => None)
       (Some (CollaboratorError "close")) "2026-01-01T00:05:00" config
       (example_task true) "s" sv
       = Some ({| application := a';
                  research_tasks :=
                    alter (update_failed "2026-01-01T00:05:00" (CollaboratorError "close"))
                      "s" (research_tasks sv) |}, inr ())).
Proof.
  intros config sv.
  pose proof (@research_task_outcome (scripted [] []) (fun _ => None) None
                "2026-01-01T00:05:00" config (example_task true) "s" sv)
    as (_ & Hcreated & _ & _).
  pose proof (@research_task_outcome (scripted [] []) (fun _ => None)
                (Some (CollaboratorError "close"))
                "2026-01-01T00:05:00" config (example_task true) "s" sv)
    as (_ & _ & Hclosed & _).
  split.
  - destruct (Hcreated StormWorkflow_init eq_refl) as (sv' & r & Hrun & _ & Hfailed);
      [constructor | reflexivity |].
    exists sv', r. split; [exact Hrun|].
    eapply Hfailed; vm_compute; reflexivity.
  - apply (Hclosed StormWorkflow_init (CollaboratorError "close")); reflexivity.
Defined.

(** * More on the WebSocket research *)

Section InstanceUntouched.
Context {A B : Type}.

Lemma untouched_quiet (m : M App A) :
  (∀ a a' r, m a = Some (a', r) →
             workflow a' = workflow a ∧ ∃ out, sent a' = sent a ++ out) →
  instance_untouched m.
Proof.
  intros Hm a a' r Hrun. destruct (Hm a a' r Hrun) as (Hw & out & Hout). by exists out.
Qed.

Lemma untouched_ret (x : A) : instance_untouched (ret x).
Proof.
  apply untouched_quiet. intros a a' r [= <- <-]. split; [done|]. exists []. by rewrite app_nil_r.
Qed.

Lemma untouched_lift (x : Exc + A) : instance_untouched (lift x).
Proof.
  apply untouched_quiet. intros a a' r [= <- <-]. split; [done|]. exists []. by rewrite app_nil_r.
Qed.

Lemma untouched_raise (e : Exc) : instance_untouched (raise (A:=A) e).
Proof. apply untouched_lift. Qed.

Lemma untouched_gets (f : App → A) : instance_untouched (gets f).
Proof.
  apply untouched_quiet. intros a a' r [= <- <-]. split; [done|]. exists []. by rewrite app_nil_r.
Qed.

Lemma untouched_bind (m : M App A) (k : A → M App B) :
  instance_untouched m → (∀ x, instance_untouched (k x)) → instance_untouched (bind m k).
Proof.
  intros Hm Hk a a' r. unfold bind.
  destruct (m a) as [[a1 [e|x]]|] eqn:Hrun; [| |done].
  - intros [= <- <-]. by eapply Hm.
  - intros Hrun'. destruct (Hm a a1 _ Hrun) as (out1 & Hout1 & Hw1).
    destruct (Hk x a1 a' r Hrun') as (out2 & Hout2 & Hw2).
    exists (out1 ++ out2). split; [by rewrite Hout2, Hout1, app_assoc|].
    intros Hnot. rewrite Hw2, Hw1; [done| |].
    + intros Hin. apply Hnot, elem_of_app. by left.
    + intros Hin. apply Hnot, elem_of_app. by right.
Qed.
End InstanceUntouched.

Lemma untouched_send_json m : instance_untouched (send_json m).
Proof. apply untouched_quiet. intros a a' r [= <- <-]. split; [done|]. by exists [m]. Qed.

Lemma untouched_wait_for_response session_id t :
  instance_untouched (wait_for_response session_id t).
Proof.
  apply untouched_quiet. intros a a' r Hrun.
  destruct (wait_for_response_reads session_id t a) as (a1 & r1 & Hrun1 & Hsent & Hw & _).
  rewrite Hrun in Hrun1. injection Hrun1 as <- <-.
  split; [done|]. exists []. by rewrite app_nil_r.
Qed.

Create HintDb untouched.
#[local] Hint Resolve untouched_ret untouched_lift untouched_raise untouched_gets
  untouched_send_json untouched_wait_for_response : untouched.
#[local] Hint Extern 2 (instance_untouched (bind _ _)) =>
  apply untouched_bind; [|intros ?] : untouched.
#[local] Hint Extern 2 (instance_untouched (send_progress _)) =>
  apply untouched_send_json : untouched.
#[local] Hint Extern 3 (instance_untouched (if ?b then _ else _)) => destruct b : untouched.
#[local] Hint Extern 3 (instance_untouched (match ?x with _ => _ end)) =>
  destruct x : untouched.

Section WebInstance.
Context `{Collaborators}.
Variable session_id : string.

Lemma untouched_rewrite_requested topic response new_report :
  instance_untouched (rewrite_requested topic response new_report).
Proof.
  unfold rewrite_requested.
  destruct (py_eq_str _ "complete"); [auto 20 with untouched|].
  destruct (py_eq_str _ "feedback"); [|auto with untouched].
  destruct (truthy _); [|auto 20 with untouched].
  intros a a' r. unfold bind, send_progress, send_json, modify, on_workflow, ret. simpl.
  destruct (_rewrite_with_feedback topic _ (workflow a)) as [[s' [e|report]]|]; [| |done].
  - intros [= <- <-]. simpl. eexists [_; _]. split; [by rewrite <- app_assoc|].
    intros Hnot. exfalso. apply Hnot. apply elem_of_cons. right. by apply elem_of_cons; left.
  - intros [= <- <-]. simpl. eexists [_; _]. split; [by rewrite <- app_assoc|].
    intros Hnot. exfalso. apply Hnot. apply elem_of_cons. right. by apply elem_of_cons; left.
Qed.

Lemma untouched_apply_decision topic version current_report new_report response :
  instance_untouched (apply_decision topic version current_report new_report response).
Proof.
  unfold apply_decision.
  destruct (py_eq_str _ "approve"); [auto 20 with untouched|].
  destruct (py_eq_str _ "rewrite"); [|auto 20 with untouched].
  apply untouched_bind; [apply untouched_rewrite_requested|].
  intros [report|]; auto 20 with untouched.
Qed.

Lemma untouched_report_approval_loop fuel topic version current_report new_report :
  instance_untouched
    (report_approval_loop session_id fuel topic version current_report new_report).
Proof.
  revert version current_report new_report.
  induction fuel as [|fuel IH]; intros version current_report new_report; [done|].
  simpl. apply untouched_bind.
  - unfold report_approval_turn.
    apply untouched_bind; [auto with untouched|]. intros _.
    apply untouched_bind; [auto with untouched|]. intros response.
    apply untouched_apply_decision.
  - intros [report|version' current_report' new_report']; [auto with untouched|apply IH].
Qed.

Lemma untouched_interviews_with_updates l task :
  instance_untouched (interviews_with_updates l task).
Proof.
  unfold interviews_with_updates. destruct (parallel_interviews task).
  - apply untouched_bind; [auto with untouched|]. intros _.
    destruct (gather _ l (completion_order l)) as [log r].
    apply untouched_bind; [|auto with untouched].
    apply untouched_quiet. intros a a' r' [= <- <-]. split; [done|]. by eexists.
  - apply untouched_bind; [auto with untouched|]. intros _.
    destruct (await_each _ l 0 [] []) as [log r].
    apply untouched_bind; [|auto with untouched].
    apply untouched_quiet. intros a a' r' [= <- <-]. split; [done|]. by eexists.
Qed.

Lemma untouched_research_steps task : instance_untouched (research_steps session_id task).
Proof.
  unfold research_steps, get_analyst_count, research_with_count, get_report_approval.
  repeat first
    [ apply untouched_interviews_with_updates
    | apply untouched_report_approval_loop
    | apply untouched_bind; [|intros ?]
    | solve [auto with untouched] ].
Qed.

(** X18: [run_interactive_research] never stores the analysts or the
    interviews of its research in the workflow instance.  Unless a rewrite
    with feedback was run (which the progress message announces), the
    instance is at the end what it was at the start, whatever the operator
    answered and whether the research returned, failed or was cancelled; so
    the "complete" rewrite and the rewrite without feedback, which re-draft
    the report from [workflow.current_interviews], never see the interviews
    of the research they belong to. *)
Theorem web_research_leaves_instance task a a' r :
  run_interactive_research session_id task a = Some (a', r) →
  ∃ out, sent a' = sent a ++ out ∧
         (Progress feedback_rewrite_running ∉ out → workflow a' = workflow a).
Proof.
  unfold run_interactive_research.
  pose proof (untouched_research_steps task a) as Hsteps.
  destruct (research_steps session_id task a) as [[a1 [e|[]]]|]; [| |done].
  - destruct (Hsteps _ _ eq_refl) as (out & Hout & Hw).
    destruct (is_Exception e).
    + intros [= <- <-]. exists (out ++ [Error e]). simpl.
      split; [by rewrite Hout, app_assoc|].
      intros Hnot. apply Hw. intros Hin. apply Hnot, elem_of_app. by left.
    + intros [= <- <-]. by exists out.
  - intros [= <- <-]. by apply (Hsteps _ _ eq_refl).
Qed.
End WebInstance.

(** The operator asks for a "complete" rewrite and approves: the instance is
    still the empty one the research started with. *)
Lemma web_research_leaves_instance_witness :
  ∃ a' r out,
    @run_interactive_research (scripted [] []) "s" (example_task true)
      (example_app
         [Message 2 "s" ANALYST_COUNT {[ "count" := JInt 4 ]};
          Message 3 "s" REPORT_APPROVAL
            (<[ "action" := JStr "rewrite" ]> {[ "rewrite_type" := JStr "complete" ]});
          Message 3 "s" REPORT_APPROVAL {[ "action" := JStr "approve" ]}])
      = Some (a', r) ∧
    sent a' = [] ++ out ∧
    Progress (rewrite_completed 2) ∈ out ∧
    workflow a' = StormWorkflow_init.
Proof.
  eexists _, _, _. split; [by vm_compute|]. split; [by vm_compute|]. split.
  { vm_compute.
    repeat first [ apply list_elem_of_here | apply list_elem_of_further ]. }
  edestruct (@web_research_leaves_instance (scripted [] []) "s" (example_task true)
               (example_app
                  [Message 2 "s" ANALYST_COUNT {[ "count" := JInt 4 ]};
                   Message 3 "s" REPORT_APPROVAL
                     (<[ "action" := JStr "rewrite" ]> {[ "rewrite_type" := JStr "complete" ]});
                   Message 3 "s" REPORT_APPROVAL {[ "action" := JStr "approve" ]}]))
    as (out & Hout & Hw); [by vm_compute|].
  rewrite Hw; [reflexivity|].
  vm_compute in Hout. subst out.
  intros Hin. repeat (apply elem_of_cons in Hin as [Hin|Hin]; [discriminate Hin|]).
  by apply elem_of_nil in Hin.
Defined.

Section UnknownRewriteType.
Context `{Collaborators}.

(** X19: a rewrite request over the WebSocket whose rewrite type is neither
    "complete" nor "feedback" rewrites nothing.  On the first turn
    [new_report] is not bound yet and [get_report_approval] raises
    [UnboundLocalError]; after an earlier rewrite, [new_report] still holds
    the draft of that rewrite, which is presented again as the next version:
    the version number goes up and "rewrite completed" is sent although no
    collaborator was asked for anything. *)
Theorem unknown_rewrite_type topic version current_report response a :
  py_get response "action" JNull = JStr "rewrite" →
  py_eq_str (py_get response "rewrite_type" (JStr "feedback")) "complete" = false →
  py_eq_str (py_get response "rewrite_type" (JStr "feedback")) "feedback" = false →
  apply_decision topic version current_report None response a
    = Some (a, inl (UnboundLocalError "new_report")) ∧
  ∀ earlier,
    apply_decision topic version current_report (Some earlier) response a
      = Some ({| inbox := inbox a;
                 sent := sent a ++ [Progress (rewrite_completed (version + 1))];
                 globals := globals a; workflow := workflow a |},
              inr (Present (version + 1) earlier (Some earlier))).
Proof.
  intros Haction Hcomplete Hfeedback.
  unfold apply_decision, rewrite_requested. rewrite Haction, Hcomplete, Hfeedback. simpl.
  split; [reflexivity|]. intros earlier. reflexivity.
Qed.
End UnknownRewriteType.

Lemma unknown_rewrite_type_witness :
  @apply_decision (scripted [] []) "X" 1 first_draft None odd_rewrite (example_app [])
    = Some (example_app [], inl (UnboundLocalError "new_report")) ∧
  @apply_decision (scripted [] []) "X" 1 first_draft (Some first_draft) odd_rewrite
    (example_app [])
    = Some ({| inbox := []; sent := [] ++ [Progress (rewrite_completed (1 + 1))];
               globals := Globals_init; workflow := StormWorkflow_init |},
            inr (Present (1 + 1) first_draft (Some first_draft))).
Proof.
  destruct (@unknown_rewrite_type (scripted [] []) "X" 1%Z first_draft odd_rewrite
              (example_app [])) as [Hfirst Hlater]; [reflexivity..|].
  split; [exact Hfirst|apply Hlater].
Defined.

Lemma disconnect_own_and_unrelated_witness :
  (pending_responses (on_disconnect "u" other_session_waiting)
     !! response_key "u" REPORT_APPROVAL = None ∧
   futures (on_disconnect "u" other_session_waiting) !! 0 = Some FutCancelled) ∧
  pending_responses (on_disconnect "s" other_session_waiting) !! response_key "u" REPORT_APPROVAL
    = pending_responses other_session_waiting !! response_key "u" REPORT_APPROVAL ∧
  futures (on_disconnect "s" other_session_waiting) !! 0
    = futures other_session_waiting !! 0.
Proof.
  pose proof (disconnect_own_and_unrelated "u" other_session_waiting) as (Hown & _ & _).
  pose proof (disconnect_own_and_unrelated "s" other_session_waiting) as (_ & Hkey & Hfut).
  split; [|split].
  - apply (Hown REPORT_APPROVAL 0); reflexivity.
  - apply Hkey. reflexivity.
  - apply Hfut. intros key Hkey'.
    destruct (decide (key = response_key "u" REPORT_APPROVAL)) as [->|Hne]; [reflexivity|].
    unfold other_session_waiting in Hkey'. simpl in Hkey'.
    rewrite lookup_insert_ne in Hkey' by done. by rewrite lookup_empty in Hkey'.
Defined.

Lemma older_fan_out_keeps_every_slot_witness :
  ∃ results,
    conduct_all_interviews_parallel example_editor_interview example_editors "X"
      = inr results ∧
    ∀ editor, editor ∈ example_editors → is_Some (results !! editor_name editor).
Proof.
  apply (older_fan_out_keeps_every_slot example_editor_interview example_editors "X").
  - intros editor e. unfold example_editor_interview.
    destruct (String.eqb (editor_name editor) "e2"); [|discriminate]. by intros [= <-].
  - intros editor. unfold example_editor_interview.
    destruct (String.eqb (editor_name editor) "e2"); discriminate.
Defined.

Lemma older_fan_out_entries_witness :
  ∃ results,
    conduct_all_interviews_parallel example_editor_interview example_editors "X"
      = inr results ∧
    (∀ editor, editor ∈ example_editors →
       results !! editor_name editor
         = Some (match example_editor_interview editor "X" with
                 | inr conversation => Said <$> conversation
                 | inl _ => [InterviewError (editor_name editor)]
                 end)) ∧
    (∀ name, is_Some (results !! name) → name ∈ editor_name <$> example_editors).
Proof.
  apply (older_fan_out_entries example_editor_interview example_editors "X").
  - simpl. apply NoDup_cons. split; [|apply NoDup_singleton].
    intros Hin%list_elem_of_singleton. discriminate.
  - intros editor e _. unfold example_editor_interview.
    destruct (String.eqb (editor_name editor) "e2"); [|discriminate]. by intros [= <-].
  - intros editor _. unfold example_editor_interview.
    destruct (String.eqb (editor_name editor) "e2"); discriminate.
Defined.

(** * A research that is approved at once *)

(** ** Every registered future exists *)

Lemma resolve_length future state g :
  length (futures (resolve future state g)) = length (futures g).
Proof. unfold resolve. simpl. destruct (done g future); [done|apply length_insert]. Qed.

Lemma on_message_allocated session_id t data g :
  futures_allocated g → futures_allocated (on_message session_id t data g).
Proof.
  intros Hall. unfold on_message.
  destruct (pending_responses g !! response_key session_id t) as [future|]; [|done].
  intros key fut Hkey. rewrite resolve_length. by apply (Hall key).
Qed.

Lemma on_disconnect_length session_id g :
  length (futures (on_disconnect session_id g)) = length (futures g).
Proof.
  unfold on_disconnect.
  apply (map_fold_weak_ind
           (fun (r : Globals) (_ : gmap string nat) => length (futures r) = length (futures g))).
  - done.
  - intros key fut m r _ Hr. unfold disconnect_step.
    destruct (startswith key session_id); [|done]. by rewrite resolve_length.
Qed.

Lemma on_disconnect_allocated session_id g :
  futures_allocated g → futures_allocated (on_disconnect session_id g).
Proof.
  intros Hall key fut Hkey. rewrite on_disconnect_length.
  destruct (on_disconnect_fold session_id g) as (Hpending & _).
  rewrite Hpending in Hkey. destruct (startswith key session_id); [done|].
  by apply (Hall key).
Qed.

Lemma wait_for_allocated future timeout events g :
  futures_allocated g → futures_allocated (wait_for future timeout events g).1.2.
Proof.
  assert (Hcancel : ∀ g, futures_allocated g →
                         futures_allocated (resolve future FutCancelled g)).
  { intros g' Hall key fut Hkey. rewrite resolve_length. by apply (Hall key). }
  revert timeout g. induction events as [|ev events IH]; intros timeout g Hall; simpl.
  - destruct (futures g !! future) as [[| |]|]; simpl; auto.
  - destruct (futures g !! future) as [[| |]|]; simpl; auto.
    + destruct (timeout <=? delay_of ev)%N; simpl; [auto|]. apply IH.
      destruct ev; simpl; [by apply on_message_allocated|by apply on_disconnect_allocated].
    + destruct (timeout <=? delay_of ev)%N; simpl; [auto|]. apply IH.
      destruct ev; simpl; [by apply on_message_allocated|by apply on_disconnect_allocated].
Qed.

Lemma register_allocated session_id t g :
  futures_allocated g → futures_allocated (wait_for_response_register session_id t g).2.
Proof.
  intros Hall key fut. simpl. rewrite length_app. simpl.
  destruct (decide (response_key session_id t = key)) as [<-|Hne].
  - rewrite lookup_insert_eq. intros [= <-]. lia.
  - rewrite lookup_insert_ne by done. intros Hkey. apply Hall in Hkey. simpl in Hkey. lia.
Qed.

Lemma wait_for_response_allocated session_id t a a' r :
  wait_for_response session_id t a = Some (a', r) →
  futures_allocated (globals a) → futures_allocated (globals a').
Proof.
  rewrite wait_for_response_run. simpl. intros Hrun Hall.
  pose proof (wait_for_allocated (length (futures (globals a))) 300 (inbox a)
                (wait_for_response_register session_id t (globals a)).2
                (register_allocated session_id t (globals a) Hall)) as Hwait.
  simpl in Hwait.
  destruct (wait_for _ _ _ _) as [[inbox' g2] awaited]. injection Hrun as <- _.
  simpl in *. intros key fut Hkey. unfold pop_pending in Hkey. simpl in Hkey.
  destruct (decide (response_key session_id t = key)) as [<-|Hne].
  - by rewrite lookup_delete_eq in Hkey.
  - rewrite lookup_delete_ne in Hkey by done. by apply (Hwait key).
Qed.

Section ApprovedAtOnce.
Context `{Collaborators}.
Variable session_id : string.

#[local] Arguments wait_for : simpl never.

Lemma interviews_with_updates_result l task a :
  ∃ out,
    interviews_with_updates l task a
      = Some ({| inbox := inbox a; sent := sent a ++ out;
                 globals := globals a; workflow := workflow a |},
              _conduct_interviews l task).
Proof.
  unfold interviews_with_updates, _conduct_interviews, _conduct_interviews_log.
  destruct (parallel_interviews task).
  - destruct (gather _ l (completion_order l)) as [log [e|rs]];
      eexists (_ :: _); unfold bind, send_progress, send_json, modify, lift; simpl;
      by rewrite <- app_assoc.
  - destruct (await_each _ l 0 [] []) as [log [e|rs]];
      eexists (_ :: _); unfold bind, send_progress, send_json, modify, lift; simpl;
      by rewrite <- app_assoc.
Qed.

Lemma get_report_approval_approved topic report_parts a d data rest :
  futures_allocated (globals a) →
  inbox a = Message d session_id REPORT_APPROVAL data :: rest →
  (d < 300)%N →
  py_get data "action" JNull = JStr "approve" →
  ∃ g',
    get_report_approval session_id topic report_parts a
      = Some ({| inbox := rest;
                 sent := sent a ++ [ReportApprovalRequest topic 1 report_parts;
                                    Progress report_approved];
                 globals := g'; workflow := workflow a |},
              inr report_parts).
Proof.
  intros Hall Hin Hd Haction.
  unfold get_report_approval, bind at 1, gets. simpl.
  unfold report_approval_turn, bind at 1. unfold bind at 1, send_json at 1, modify. simpl.
  unfold bind at 1. rewrite wait_for_response_run. simpl. rewrite Hin.
  destruct (ask_answered session_id REPORT_APPROVAL (globals a) [] d data rest)
    as (g' & Hwait & _); [done|constructor|simpl; lia|].
  simpl in Hwait. rewrite Hwait. simpl.
  rewrite decision_approve by done. simpl.
  eexists. by rewrite <- app_assoc.
Qed.

(** X20: the research over the WebSocket when the operator answers both
    questions in time and approves the first draft.  Whatever the answer to
    the analyst-count question holds, the research is carried out with the
    count taken from it (or the default); if the generator, every interview
    and the report writers return, [run_interactive_research] returns after
    sending, as its last message, the result with the analysts, the number of
    interviews and the report assembled from the first draft.  It has taken
    the two answers from the inbox and left the workflow instance alone. *)
Theorem approved_research_sends_result task a d1 data1 d2 data2 rest l rs report_parts :
  futures_allocated (globals a) →
  inbox a = Message d1 session_id ANALYST_COUNT data1
              :: Message d2 session_id REPORT_APPROVAL data2 :: rest →
  (d1 < 300)%N → (d2 < 300)%N →
  py_get data2 "action" JNull = JStr "approve" →
  _generate_analysts
    (with_max_analysts (py_get data1 "count" (max_analysts task)) task) = inr l →
  _conduct_interviews l
    (with_max_analysts (py_get data1 "count" (max_analysts task)) task) = inr rs →
  _write_report (topic task) rs = inr report_parts →
  ∃ a',
    run_interactive_research session_id task a = Some (a', inr ()) ∧
    last (sent a')
      = Some (Result (topic task) l (length rs) (_assemble_final_report report_parts)) ∧
    inbox a' = rest ∧ workflow a' = workflow a.
Proof.
  intros Hall Hin Hd1 Hd2 Haction Hgen Hint Hrep.
  unfold run_interactive_research. rewrite research_steps_run, get_analyst_count_run.
  simpl. rewrite Hin.
  destruct (ask_answered session_id ANALYST_COUNT (globals a) [] d1 data1
              (Message d2 session_id REPORT_APPROVAL data2 :: rest))
    as (g1 & Hwait & _); [done|constructor|simpl; lia|].
  simpl in Hwait.
  assert (futures_allocated (pop_pending (response_key session_id ANALYST_COUNT) g1)) as Hall1.
  { pose proof (wait_for_allocated (length (futures (globals a))) 300
                  (Message d1 session_id ANALYST_COUNT data1
                     :: Message d2 session_id REPORT_APPROVAL data2 :: rest)
                  (wait_for_response_register session_id ANALYST_COUNT (globals a)).2
                  (register_allocated session_id ANALYST_COUNT (globals a) Hall)) as Hw.
    simpl in Hw. rewrite Hwait in Hw. simpl in Hw.
    intros key fut Hkey. unfold pop_pending in Hkey. simpl in *.
    destruct (decide (response_key session_id ANALYST_COUNT = key)) as [<-|Hne].
    - by rewrite lookup_delete_eq in Hkey.
    - rewrite lookup_delete_ne in Hkey by done. by apply (Hw key). }
  rewrite Hwait.
  unfold research_with_count.
  unfold bind at 1, send_progress at 1, send_json at 1, modify. simpl.
  unfold bind at 1, send_progress at 1, send_json at 1, modify. simpl.
  unfold bind at 1, send_progress at 1, send_json at 1, modify. simpl.
  unfold bind at 1, lift at 1. rewrite Hgen.
  unfold bind at 1, send_progress at 1, send_json at 1, modify. simpl.
  unfold bind at 1, send_progress at 1, send_json at 1, modify. simpl.
  unfold bind at 1, send_progress at 1, send_json at 1, modify. simpl.
  unfold bind at 1.
  match goal with
  | |- context [interviews_with_updates l ?t ?a1] =>
      destruct (interviews_with_updates_result l t a1) as (out & ->)
  end.
  rewrite Hint.
  unfold bind at 1, send_progress at 1, send_json at 1, modify. simpl.
  unfold bind at 1, send_progress at 1, send_json at 1, modify. simpl.
  unfold bind at 1, send_progress at 1, send_json at 1, modify. simpl.
  unfold bind at 1, send_progress at 1, send_json at 1, modify. simpl.
  unfold bind at 1, lift at 1. rewrite Hrep.
  unfold bind at 1, send_progress at 1, send_json at 1, modify. simpl.
  unfold bind at 1.
  match goal with
  | |- context [get_report_approval session_id ?t report_parts ?a1] =>
      destruct (get_report_approval_approved t report_parts a1 d2 data2 rest)
        as (g2 & ->); [done|done|done|done|]
  end.
  unfold bind, send_progress, send_json, modify. simpl.
  eexists. split; [reflexivity|]. simpl. split; [apply last_snoc|done].
Qed.
End ApprovedAtOnce.

Lemma approved_research_sends_result_witness :
  ∃ a',
    @run_interactive_research (scripted [] []) "s" (example_task false)
      (example_app [Message 42 "s" ANALYST_COUNT {[ "count" := JInt 1 ]};
                    Message 299 "s" REPORT_APPROVAL {[ "action" := JStr "approve" ]};
                    Message 0 "s" FEEDBACK ∅]) = Some (a', inr ()) ∧
    last (sent a')
      = Some (Result "X" [analyst_named "a1"] 1 "report") ∧
    inbox a' = [Message 0 "s" FEEDBACK ∅] ∧ workflow a' = StormWorkflow_init.
Proof.
  apply (@approved_research_sends_result (scripted [] []) "s" (example_task false)
           (example_app [Message 42 "s" ANALYST_COUNT {[ "count" := JInt 1 ]};
                         Message 299 "s" REPORT_APPROVAL {[ "action" := JStr "approve" ]};
                         Message 0 "s" FEEDBACK ∅])
           42%N {[ "count" := JInt 1 ]} 299%N {[ "action" := JStr "approve" ]}
           [Message 0 "s" FEEDBACK ∅] [analyst_named "a1"]
           [ {| analyst := analyst_named "a1"; interview_content := "interview with a1";
                section_content := "section by a1" |} ] first_draft).
  - apply map_Forall_empty.
  - reflexivity.
  - reflexivity.
  - reflexivity.
  - reflexivity.
  - reflexivity.
  - by vm_compute.
  - reflexivity.
Defined.

(** * The text of the final report *)

Lemma drop_prefix_app (sep rest : string) : drop_prefix sep (sep +:+ rest) = rest.
Proof. induction sep as [|c sep IH]; simpl; [by destruct rest|done]. Qed.

Lemma prefix_drop (sep s : string) :
  String.prefix sep s = true → s = sep +:+ drop_prefix sep s.
Proof.
  revert s. induction sep as [|c sep IH]; intros s; simpl; [intros _; by destruct s|].
  destruct s as [|c' s]; simpl; [done|]. destruct (Ascii.ascii_dec c c') as [->|]; [|done].
  intros Hp. change (String c' s = String c' (sep +:+ drop_prefix sep s)).
  f_equal. by apply IH.
Qed.

Lemma split_once_unfold sep s :
  split_once sep s =
    if String.prefix sep s then Some ("", drop_prefix sep s)
    else
      match s with
      | "" => None
      | String c s' =>
          match split_once sep s' with
          | Some (before, after) => Some (String c before, after)
          | None => None
          end
      end.
Proof. by destruct s. Qed.

(** [split_once] cuts at an occurrence of the separator. *)
Lemma split_once_Some sep s before after :
  split_once sep s = Some (before, after) → s = before +:+ sep +:+ after.
Proof.
  revert before. induction s as [|c s IH]; intros before; rewrite split_once_unfold.
  - destruct (String.prefix sep "") eqn:Hp; [|done].
    intros [= <- <-]. by apply prefix_drop.
  - destruct (String.prefix sep (String c s)) eqn:Hp.
    + intros [= <- <-]. by apply prefix_drop.
    + destruct (split_once sep s) as [[b a]|]; [|done].
      intros [= <- <-]. change (String c s = String c (b +:+ sep +:+ a)).
      f_equal. by apply IH.
Qed.

Lemma string_app_assoc (s1 s2 s3 : string) : (s1 +:+ s2) +:+ s3 = s1 +:+ s2 +:+ s3.
Proof.
  induction s1 as [|c s1 IH]; [done|].
  change (String c ((s1 +:+ s2) +:+ s3) = String c (s1 +:+ s2 +:+ s3)). by f_equal.
Qed.

Lemma string_app_nil_r (s : string) : s +:+ "" = s.
Proof.
  induction s as [|c s IH]; [done|]. change (String c (s +:+ "") = String c s). by f_equal.
Qed.

Lemma prefix_app (sep rest : string) : String.prefix sep (sep +:+ rest) = true.
Proof.
  induction sep as [|c sep IH]; [by destruct rest|].
  change (String.prefix (String c sep) (String c (sep +:+ rest)) = true). simpl.
  by destruct (Ascii.ascii_dec c c).
Qed.

(** [sub in s] holds exactly when [s] is some text, [sub], and some text. *)
Lemma contains_iff sub s :
  contains sub s = true ↔ ∃ before after, s = before +:+ sub +:+ after.
Proof.
  unfold contains. split.
  - destruct (split_once sub s) as [[before after]|] eqn:Hs; [|done].
    intros _. exists before, after. by apply split_once_Some.
  - intros (before & after & ->). induction before as [|c before IH].
    + rewrite split_once_unfold.
      change ("" +:+ sub +:+ after) with (sub +:+ after). by rewrite prefix_app.
    + change (String c before +:+ sub +:+ after) with (String c (before +:+ sub +:+ after)).
      rewrite split_once_unfold.
      destruct (String.prefix sub (String c (before +:+ sub +:+ after))); [done|].
      by destruct (split_once sub (before +:+ sub +:+ after)) as [[b a]|].
Qed.

Lemma replace_prefix old s :
  startswith s old = true → replace_once old "" s = drop_prefix old s.
Proof.
  unfold startswith, replace_once. intros Hp. by rewrite split_once_unfold, Hp.
Qed.

Lemma split_section_cut sep main_content before section :
  split_section sep main_content = (before, section) →
  ∃ cut, main_content = before +:+ cut ∧
         match section with
         | Some text => cut = sep +:+ text
         | None => cut = ""
         end.
Proof.
  unfold split_section.
  destruct (split_once sep main_content) as [[b a]|] eqn:Hs; intros [= <- <-].
  - exists (sep +:+ a). split; [by apply split_once_Some|done].
  - exists "". by rewrite string_app_nil_r.
Qed.

Section FinalReportFacts.
Variable lower : string → string.
Variable strip : string → string.

#[local] Arguments split_once : simpl never.

(** X21: the layout of the final report.  A main content that is taken for
    a whole report (it has a heading and mentions a conclusion) is returned
    stripped, and then the introduction and the conclusion written
    separately are not used.  Otherwise the report is the introduction, the
    heading of the main part, a first part of the main content (freed of a
    leading "## Insights"), a rule and the conclusion, followed by at most
    one section: the references under the heading "## 참고문헌", or else the
    sources under "## Sources"; a section that is empty is left out. *)
Theorem final_report_layout parts :
  let main_content := part_main_content parts in
  if complete_report lower main_content
  then assemble_final_report lower strip parts = strip main_content
  else
    ∃ body cut tail,
      assemble_final_report lower strip parts
        = (part_introduction parts +:+ main_heading +:+ body +:+ rule
           +:+ part_conclusion parts) +:+ tail ∧
      (if startswith main_content "## Insights"
       then strip (drop_prefix "## Insights" main_content)
       else main_content) = body +:+ cut ∧
      (tail = "" ∨
       ∃ text, text ≠ "" ∧
               (tail = references_heading +:+ text ∨ tail = sources_heading +:+ text)).
Proof.
  simpl. unfold assemble_final_report. fold (complete_report lower (part_main_content parts)).
  destruct (complete_report lower (part_main_content parts)); [done|].
  assert ((if startswith (part_main_content parts) "## Insights"
           then strip (replace_once "## Insights" "" (part_main_content parts))
           else part_main_content parts)
          = (if startswith (part_main_content parts) "## Insights"
             then strip (drop_prefix "## Insights" (part_main_content parts))
             else part_main_content parts)) as ->.
  { destruct (startswith _ "## Insights") eqn:Hp; [|done]. by rewrite replace_prefix. }
  set (main := if startswith _ "## Insights" then _ else _).
  assert (∃ m1 references cut1,
            (if contains "## 참고문헌" main
             then split_section (LF +:+ "## 참고문헌" +:+ LF) main
             else if contains "## References" main
                  then split_section (LF +:+ "## References" +:+ LF) main
                  else (main, None)) = (m1, references) ∧
            main = m1 +:+ cut1) as (m1 & references & cut1 & -> & Hmain).
  { destruct (contains "## 참고문헌" main).
    { destruct (split_section _ main) as [m1 references] eqn:Hs.
      apply split_section_cut in Hs as (cut & Hcut & _). by exists m1, references, cut. }
    destruct (contains "## References" main).
    { destruct (split_section _ main) as [m1 references] eqn:Hs.
      apply split_section_cut in Hs as (cut & Hcut & _). by exists m1, references, cut. }
    exists main, None, "". by rewrite string_app_nil_r. }
  assert (∃ body sources cut2,
            (if contains "## Sources" m1
             then split_section (LF +:+ "## Sources" +:+ LF) m1
             else (m1, None)) = (body, sources) ∧
            m1 = body +:+ cut2) as (body & sources & cut2 & -> & Hm1).
  { destruct (contains "## Sources" m1).
    { destruct (split_section _ m1) as [body sources] eqn:Hs.
      apply split_section_cut in Hs as (cut & Hcut & _). by exists body, sources, cut. }
    exists m1, None, "". by rewrite string_app_nil_r. }
  exists body, (cut2 +:+ cut1).
  assert (main = body +:+ cut2 +:+ cut1) as Hcut.
  { by rewrite Hmain, Hm1, string_app_assoc. }
  destruct references as [references|]; simpl.
  - destruct (String.eqb references "") eqn:Hr; simpl.
    + destruct sources as [sources|]; simpl.
      * destruct (String.eqb sources "") eqn:Hs; simpl.
        -- exists "". rewrite string_app_nil_r. split; [done|]. split; [done|]. by left.
        -- eexists. split; [reflexivity|]. split; [done|]. right. exists sources.
           apply String.eqb_neq in Hs. split; [done|]. by right.
      * exists "". rewrite string_app_nil_r. split; [done|]. split; [done|]. by left.
    + eexists. split; [reflexivity|]. split; [done|]. right. exists references.
      apply String.eqb_neq in Hr. split; [done|]. by left.
  - destruct sources as [sources|]; simpl.
    + destruct (String.eqb sources "") eqn:Hs; simpl.
      * exists "". rewrite string_app_nil_r. split; [done|]. split; [done|]. by left.
      * eexists. split; [reflexivity|]. split; [done|]. right. exists sources.
        apply String.eqb_neq in Hs. split; [done|]. by right.
    + exists "". rewrite string_app_nil_r. split; [done|]. split; [done|]. by left.
Qed.

(** A heading on a line of its own occurs in the text. *)
Lemma heading_line_contains heading s before after :
  split_once (LF +:+ heading +:+ LF) s = Some (before, after) → contains heading s = true.
Proof.
  intros Hs%split_once_Some. apply contains_iff.
  exists (before +:+ LF), (LF +:+ after). rewrite Hs. by rewrite !string_app_assoc.
Qed.

(** X22: a main content that is not taken for a whole report and that,
    once a leading "## Insights" is removed, has a sources section followed
    by a references section, under the heading "## 참고문헌" or, when that
    heading does not occur, "## References".  Both sections are cut off the
    main part.  If the references are not empty they alone are put back,
    under the heading "## 참고문헌" whatever the heading was, and the text of
    the sources section is not put into the final report; if the references
    are empty, the sources are put back under "## Sources". *)
Theorem sources_lost_beside_references parts before references body sources :
  let main_content :=
    if startswith (part_main_content parts) "## Insights"
    then strip (drop_prefix "## Insights" (part_main_content parts))
    else part_main_content parts in
  complete_report lower (part_main_content parts) = false →
  split_once (LF +:+ "## 참고문헌" +:+ LF) main_content = Some (before, references) ∨
    (contains "## 참고문헌" main_content = false ∧
     split_once (LF +:+ "## References" +:+ LF) main_content = Some (before, references)) →
  split_once (LF +:+ "## Sources" +:+ LF) before = Some (body, sources) →
  (∃ heading, (heading = "## 참고문헌" ∨ heading = "## References") ∧
     main_content
       = body +:+ (LF +:+ "## Sources" +:+ LF) +:+ sources
         +:+ (LF +:+ heading +:+ LF) +:+ references) ∧
  assemble_final_report lower strip parts
    = (part_introduction parts +:+ main_heading +:+ body +:+ rule +:+ part_conclusion parts)
      +:+ (if negb (String.eqb references "") then references_heading +:+ references
           else if negb (String.eqb sources "") then sources_heading +:+ sources
           else "").
Proof.
  simpl. intros Hcomplete Hrefs Hsrc.
  pose proof (heading_line_contains _ _ _ _ Hsrc) as Hhas_src.
  split.
  - apply split_once_Some in Hsrc.
    destruct Hrefs as [Hrefs|[_ Hrefs]]; apply split_once_Some in Hrefs.
    + exists "## 참고문헌". split; [by left|]. rewrite Hrefs, Hsrc. by rewrite !string_app_assoc.
    + exists "## References". split; [by right|]. rewrite Hrefs, Hsrc.
      by rewrite !string_app_assoc.
  - unfold assemble_final_report.
    fold (complete_report lower (part_main_content parts)). rewrite Hcomplete.
    assert ((if startswith (part_main_content parts) "## Insights"
             then strip (replace_once "## Insights" "" (part_main_content parts))
             else part_main_content parts)
            = (if startswith (part_main_content parts) "## Insights"
               then strip (drop_prefix "## Insights" (part_main_content parts))
               else part_main_content parts)) as ->.
    { destruct (startswith _ "## Insights") eqn:Hp; [|done]. by rewrite replace_prefix. }
    set (main := if startswith _ "## Insights" then _ else _) in *.
    assert ((if contains "## 참고문헌" main
             then split_section (LF +:+ "## 참고문헌" +:+ LF) main
             else if contains "## References" main
                  then split_section (LF +:+ "## References" +:+ LF) main
                  else (main, None)) = (before, Some references)) as ->.
    { destruct Hrefs as [Hrefs|[Hkorean Hrefs]].
      - rewrite (heading_line_contains _ _ _ _ Hrefs). unfold split_section. by rewrite Hrefs.
      - rewrite Hkorean, (heading_line_contains _ _ _ _ Hrefs). unfold split_section.
        by rewrite Hrefs. }
    rewrite Hhas_src. unfold split_section. rewrite Hsrc. simpl.
    destruct (String.eqb references ""); simpl; [|done].
    destruct (String.eqb sources ""); simpl; [|done].
    by rewrite string_app_nil_r.
Qed.
End FinalReportFacts.

Lemma sources_lost_beside_references_witness :
  let main :=
    "## Insights" +:+ LF +:+ "findings" +:+ (LF +:+ "## Sources" +:+ LF) +:+ "s1"
    +:+ (LF +:+ "## References" +:+ LF) +:+ "r1" in
  (∃ heading, (heading = "## 참고문헌" ∨ heading = "## References") ∧
     strip_line_feed (drop_prefix "## Insights" main)
       = "findings" +:+ (LF +:+ "## Sources" +:+ LF) +:+ "s1"
         +:+ (LF +:+ heading +:+ LF) +:+ "r1") ∧
  assemble_final_report id strip_line_feed (example_parts main)
    = ("intro" +:+ main_heading +:+ "findings" +:+ rule +:+ "end")
      +:+ references_heading +:+ "r1".
Proof.
  apply (sources_lost_beside_references id strip_line_feed
           (example_parts ("## Insights" +:+ LF +:+ "findings"
                           +:+ (LF +:+ "## Sources" +:+ LF) +:+ "s1"
                           +:+ (LF +:+ "## References" +:+ LF) +:+ "r1"))
           ("findings" +:+ (LF +:+ "## Sources" +:+ LF) +:+ "s1") "r1" "findings" "s1").
  - by vm_compute.
  - right. split; by vm_compute.
  - by vm_compute.
Defined.

(** * A research on the console that is approved at once *)

Section ConsoleApproved.
Context `{Collaborators}.

Lemma analyst_count_accepted default_count line rest count :
  (line = "" ∧ count = default_count ∨
   line ≠ "" ∧ ∃ n, py_int line = Some n ∧ (1 ≤ n ≤ 10)%Z ∧ count = JInt n) →
  analyst_count_loop default_count (line :: rest) = ([], rest, inr count).
Proof.
  intros [[-> ->]|(Hne & n & Hn & Hrange & ->)]; simpl; [done|].
  apply String.eqb_neq in Hne. rewrite Hne, Hn.
  by rewrite (proj2 (Z.leb_le 1 n)), (proj2 (Z.leb_le n 10)) by lia.
Qed.

(** X24: the research on the console when the operator accepts a count and
    approves the first draft.  An empty line takes the count of the task, a
    number from 1 to 10 is taken as it is; if the generator, every interview
    and the report writers return, [_run_interactive_research] returns the
    result made of these analysts, these interviews and this draft, having
    read exactly the two lines; the instance then holds the analysts and the
    interviews, and its version history has the draft as its one new
    entry. *)
Theorem console_approved_research task w line rest count l rs report_parts :
  stdin w = line :: "1" :: rest →
  (line = "" ∧ count = max_analysts task ∨
   line ≠ "" ∧ ∃ n, py_int line = Some n ∧ (1 ≤ n ≤ 10)%Z ∧ count = JInt n) →
  _generate_analysts_with_diverse_tools (with_max_analysts count task) = inr l →
  _conduct_interviews l (with_max_analysts count task) = inr rs →
  _write_report (topic task) rs = inr report_parts →
  ∃ w',
    _run_interactive_research task w
      = Some (w', inr {| result_topic := topic task;
                         analysts := l;
                         interviews := rs;
                         introduction := part_introduction report_parts;
                         main_content := part_main_content report_parts;
                         conclusion := part_conclusion report_parts;
                         final_report := _assemble_final_report report_parts |}) ∧
    stdin w' = rest ∧
    self w' = append_version report_parts (set_current l rs (self w)).
Proof.
  intros Hin Hline Hgen Hint Hrep.
  unfold _run_interactive_research, _get_analyst_count_from_user, reading.
  unfold bind at 1. rewrite Hin.
  rewrite (analyst_count_accepted (max_analysts task) line ("1" :: rest) count Hline).
  unfold bind at 1. simpl. unfold bind at 1, lift at 1. rewrite Hgen.
  unfold bind at 1. simpl. unfold bind at 1, lift at 1. rewrite Hint.
  unfold bind at 1. simpl. unfold bind at 1, lift at 1. rewrite Hrep.
  unfold bind at 1.
  unfold _get_final_report_approval, bind, on_self, modify, gets, print. simpl.
  eexists. split; [reflexivity|]. simpl. split; reflexivity.
Qed.
End ConsoleApproved.

Lemma console_approved_research_witness :
  ∃ w',
    @_run_interactive_research (scripted [] []) (example_task false)
      {| stdin := ["1"; "1"; "left over"]; stdout := []; self := StormWorkflow_init |}
      = Some (w', inr {| result_topic := "X";
                         analysts := [analyst_named "a1"];
                         interviews :=
                           [ {| analyst := analyst_named "a1";
                                interview_content := "interview with a1";
                                section_content := "section by a1" |} ];
                         introduction := "introduction";
                         main_content := "report";
                         conclusion := "conclusion";
                         final_report := "report" |}) ∧
    stdin w' = ["left over"] ∧
    self w' = append_version first_draft
                (set_current [analyst_named "a1"]
                   [ {| analyst := analyst_named "a1";
                        interview_content := "interview with a1";
                        section_content := "section by a1" |} ] StormWorkflow_init).
Proof.
  apply (@console_approved_research (scripted [] []) (example_task false)
           {| stdin := ["1"; "1"; "left over"]; stdout := []; self := StormWorkflow_init |}
           "1" ["left over"] (JInt 1) [analyst_named "a1"]
           [ {| analyst := analyst_named "a1"; interview_content := "interview with a1";
                section_content := "section by a1" |} ] first_draft).
  - reflexivity.
  - right. split; [done|]. exists 1%Z. split; [reflexivity|]. split; [lia|reflexivity].
  - reflexivity.
  - by vm_compute.
  - reflexivity.
Defined.

(** * The research with one more analyst *)

Section AdditionalAnalystFacts.
Context `{Collaborators}.

(** X25: [_run_research_with_additional_analyst] interviews the analysts of
    the instance followed by the additional one, with the interviews of the
    first round (not the feedback-aware ones), and returns a result with
    these analysts and one interview for each, in order.  Unlike
    [_rewrite_with_feedback] it never changes the instance: the additional
    analyst is not added to [current_analysts]. *)
Theorem additional_analyst_research task additional_analyst s :
  ∃ r,
    _run_research_with_additional_analyst task additional_analyst s = Some (s, r) ∧
    ∀ result, r = inr result →
      analysts result = current_analysts s ++ [additional_analyst] ∧
      _conduct_interviews (analysts result) task = inr (interviews result) ∧
      analyst <$> interviews result = analysts result ∧
      _write_report (topic task) (interviews result)
        = inr {| part_main_content := main_content result;
                 part_introduction := introduction result;
                 part_conclusion := conclusion result |}.
Proof.
  unfold _run_research_with_additional_analyst, bind, gets, lift, ret. simpl.
  assert (match current_analysts s with
          | [] => [additional_analyst]
          | _ :: _ => current_analysts s ++ [additional_analyst]
          end = current_analysts s ++ [additional_analyst]) as ->
    by by destruct (current_analysts s).
  destruct (_conduct_interviews _ task) as [e|rs] eqn:Hrs; [by eexists|].
  destruct (_write_report (topic task) rs) as [e|[main intro concl]] eqn:Hrep; [by eexists|].
  eexists. split; [reflexivity|]. intros result [= <-]. simpl.
  repeat split; try done. by eapply interviews_aligned.
Qed.
End AdditionalAnalystFacts.
